(** * schnetpack_OOD: the atom-exclusion transform and the train entry point

    A shallow embedding of

    - [src/schnetpack/exclusion_transformer.py] ([ExclusionTransformer]), and
    - [src/schnetpack/cli.py] ([train], [predict]),

    together with the properties of them that the specification states.

    Python objects that are mutated in place (the tensor behind
    [inputs[structure.Z]], the data module, the configuration, the files of
    the working directory) live in an explicit store; code that can raise
    returns a [result]; the calls into the external collaborators (hydra,
    torch, numpy, pytorch_lightning) go through an interface whose
    implementation is left open, and every call is recorded in a trace. *)

From stdpp Require Import gmap strings list fin_maps pretty.

Local Open Scope Z_scope.

(** ** Exceptions, results and the state-and-exception monad *)

(** The Python exceptions the two modules can meet. [FrameworkError] stands
    for whatever an external collaborator raises. *)
Inductive exn :=
  | TypeError (msg : string)
  | KeyError (key : string)
  | IndexError
  | AttributeError (msg : string)
  | FileNotFoundError (path : string)
  | FileExistsError (path : string)
  | IsADirectoryError (path : string)
  | NotADirectoryError (path : string)
  | OverflowError
  | ConfigAttributeError (key : string)
  | MissingMandatoryValue (key : string)
  | FrameworkError (call : string).

Inductive result (A : Type) :=
  | Ok (a : A)
  | Raise (e : exn).
Global Arguments Ok {A} a.
Global Arguments Raise {A} e.

Definition is_ok {A} (r : result A) : bool :=
  match r with Ok _ => true | Raise _ => false end.

(** A computation over a store [S]: it ends normally with a value or raises,
    and in both cases hands back the store as the mutations left it. *)
Definition M (S A : Type) : Type := S → result A * S.

Definition ret {S A} (a : A) : M S A := λ s, (Ok a, s).

Definition bind {S A B} (m : M S A) (k : A → M S B) : M S B :=
  λ s, match m s with
       | (Ok a, s') => k a s'
       | (Raise e, s') => (Raise e, s')
       end.

Definition raise {S A} (e : exn) : M S A := λ s, (Raise e, s).
Definition get {S} : M S S := λ s, (Ok s, s).
Definition gets {S A} (f : S → A) : M S A := λ s, (Ok (f s), s).
Definition modify {S} (f : S → S) : M S unit := λ s, (Ok tt, f s).

(** A result that does not depend on the store. *)
Definition of_result {S A} (r : result A) : M S A := λ s, (r, s).

Declare Scope py_scope.
Delimit Scope py_scope with py.
Notation "x <- m ;; k" := (bind m (λ x, k))
  (at level 100, m at next level, right associativity) : py_scope.
Notation "m ;;; k" := (bind m (λ _, k))
  (at level 100, right associativity) : py_scope.

(** ** Part I: [ExclusionTransformer] *)

Module Exclusion.

(** An entry of [excluded_atoms]: an atomic number, or [None]. *)
Inductive pyval :=
  | PyNone
  | PyInt (z : Z).

Global Instance pyval_eq_dec : EqDecision pyval.
Proof. solve_decision. Defined.

(** Python truth value, as [if excluded_atom:] tests it. *)
Definition truthy (v : pyval) : bool :=
  match v with
  | PyNone => false
  | PyInt z => negb (z =? 0)
  end.

(** Object identities, and the two kinds of object [forward] meets: the
    mapping [inputs], whose entries are references to tensors, and the
    tensor of atomic numbers, a tensor of 64-bit integers (its entries in
    storage order). *)
Definition loc := positive.

Inductive obj :=
  | ODict (entries : gmap string loc)
  | OTensor (data : list Z).

Abbreviation heap := (gmap loc obj).

(** [d[key]] on the mapping object at [d]. *)
Definition getitem (d : loc) (key : string) : M heap loc :=
  λ h, match h !! d with
       | Some (ODict entries) =>
           match entries !! key with
           | Some r => (Ok r, h)
           | None => (Raise (KeyError key), h)
           end
       | _ => (Raise (TypeError "object is not subscriptable"), h)
       end.

Definition tensor_data (t : loc) : M heap (list Z) :=
  λ h, match h !! t with
       | Some (OTensor data) => (Ok data, h)
       | _ => (Raise (TypeError "not a tensor"), h)
       end.

(** The Python integer [a] as torch reads it where it meets a tensor of
    64-bit integers: as it is when it is one; as the 64-bit integer with
    the same bits when it fits in 64 bits without sign; otherwise the
    conversion raises. *)
Definition int64_scalar (a : Z) : result Z :=
  if decide (- 2 ^ 63 ≤ a < 2 ^ 63) then Ok a
  else if decide (2 ^ 63 ≤ a < 2 ^ 64) then Ok (a - 2 ^ 64)
  else Raise OverflowError.

(** [t == a], elementwise. *)
Definition tensor_eq (t : loc) (a : Z) : M heap (list bool) :=
  (data <- tensor_data t ;;
   c <- of_result (int64_scalar a) ;;
   ret ((λ x, x =? c) <$> data))%py.

(** [a in t], which torch defines as [(a == t).any().item()]. *)
Definition tensor_contains (a : Z) (t : loc) : M heap bool :=
  (mask <- tensor_eq t a ;; ret (existsb id mask))%py.

(** [t[mask] = v]: the tensor object at [t] is overwritten where the mask
    holds; the object keeps its identity. *)
Definition tensor_setitem_mask (t : loc) (mask : list bool) (v : Z) : M heap unit :=
  (data <- tensor_data t ;;
   if decide (length mask = length data)
   then modify (λ h : heap,
          <[t := OTensor (zip_with (λ x (b : bool), if b then v else x) data mask)]> h)
   else raise IndexError)%py.

(** What the specification says of an entry [x] of the atomic numbers: it is
    excluded when it equals some truthy entry of the exclusion list, and
    excluded entries become zero. *)
Definition is_excluded (atoms : list pyval) (x : Z) : bool :=
  existsb (λ v, truthy v && bool_decide (v = PyInt x)) atoms.

Definition zero_excluded (atoms : list pyval) (x : Z) : Z :=
  if is_excluded atoms x then 0 else x.

(** An entry of the exclusion list that a 64-bit tensor can hold. *)
Definition fits_int64 (v : pyval) : Prop :=
  match v with
  | PyNone => True
  | PyInt a => - 2 ^ 63 ≤ a < 2 ^ 63
  end.

(** What the loop compares the tensor with: the truthy entries of the
    list as torch reads them, up to the first that it cannot read, and
    the exception that one raises. *)
Fixpoint targets (atoms : list pyval) : list Z * option exn :=
  match atoms with
  | [] => ([], None)
  | PyInt a :: rest =>
      if a =? 0 then targets rest
      else match int64_scalar a with
           | Ok c => (c :: (targets rest).1, (targets rest).2)
           | Raise e => ([], Some e)
           end
  | PyNone :: rest => targets rest
  end.

Definition zero_targets (cs : list Z) (x : Z) : Z :=
  if existsb (Z.eqb x) cs then 0 else x.

Section Forward.

(** [schnetpack.properties.Z], the key of the atomic numbers. *)
Variable structure_Z : string.

Record ExclusionTransformer := { excluded_atoms : option (list pyval) }.

(** [__init__(self, excluded_atoms: list = None)] *)
Definition init (excluded_atoms : option (list pyval)) : ExclusionTransformer :=
  {| excluded_atoms := excluded_atoms |}.
Definition init_default : ExclusionTransformer := init None.

(** The body of the [for] loop, for one [excluded_atom]. *)
Definition forward_step (inputs : loc) (excluded_atom : pyval) : M heap unit :=
  (if truthy excluded_atom then
     match excluded_atom with
     | PyInt a =>
         tz <- getitem inputs structure_Z ;;
         found <- tensor_contains a tz ;;
         if found then
           target <- getitem inputs structure_Z ;;
           src <- getitem inputs structure_Z ;;
           mask <- tensor_eq src a ;;
           tensor_setitem_mask target mask 0
         else ret tt
     | PyNone => ret tt
     end
   else ret tt)%py.

Fixpoint forward_loop (inputs : loc) (atoms : list pyval) : M heap unit :=
  match atoms with
  | [] => ret tt
  | excluded_atom :: rest =>
      (forward_step inputs excluded_atom ;;; forward_loop inputs rest)%py
  end.

(** [forward(self, inputs)]: iterating over [None] raises; otherwise the
    loop runs and the reference it was given is returned. *)
Definition forward (self : ExclusionTransformer) (inputs : loc) : M heap loc :=
  match excluded_atoms self with
  | None => raise (TypeError "'NoneType' object is not iterable")
  | Some atoms => (forward_loop inputs atoms ;;; ret inputs)%py
  end.

(** The batch is well formed at [h]: [inputs] is a mapping whose
    atomic-numbers entry refers to the tensor [t], stored at [tz]. *)
Definition batch_at (h : heap) (inputs tz : loc) (t : list Z) : Prop :=
  ∃ entries, h !! inputs = Some (ODict entries)
             ∧ entries !! structure_Z = Some tz
             ∧ h !! tz = Some (OTensor t).

End Forward.

(** The batch of the specification's example: atomic numbers [7, 6, 7, 1]
    and one more tensor. *)
Definition example_batch : heap :=
  {[ 1%positive := ODict {["_atomic_numbers" := 2%positive; "_idx" := 3%positive]};
     2%positive := OTensor [7; 6; 7; 1];
     3%positive := OTensor [0; 0; 0; 0] ]}.

(** A batch whose atomic-numbers tensor holds the smallest 64-bit
    integer. *)
Definition extreme_batch : heap :=
  {[ 1%positive := ODict {["_atomic_numbers" := 2%positive]};
     2%positive := OTensor [- 2 ^ 63; 6] ]}.

End Exclusion.

(** ** Part II: the [train] entry point of [cli.py] *)

Module Cli.

Local Open Scope string_scope.

(** *** Files and directories *)

(** The files and directories of the machine. What lies below the working
    directory is keyed by its path from there ([config.yaml],
    [checkpoints/last.ckpt]), what lies elsewhere by its path from the root
    ([/data/qm9]). The root, the working directory and the directories
    above it are there throughout and have no key. A file holds its text.
    There are no symbolic links, and every access is permitted. *)
Inductive node :=
  | File (content : string)
  | Dir.

Global Instance node_eq_dec : EqDecision node.
Proof. solve_decision. Defined.

Abbreviation filesystem := (gmap string node).

(** **** Path names *)

Definition slash : Ascii.ascii := Ascii.ascii_of_nat 47.

Definition is_sep (c : Ascii.ascii) : bool := Ascii.eqb c slash.

(** The pieces of a path name between its slashes. *)
Fixpoint components (path : string) : list string :=
  match path with
  | EmptyString => [""]
  | String c rest =>
      if is_sep c then "" :: components rest
      else match components rest with
           | name :: names => String c name :: names
           | [] => [String c ""]
           end
  end.

Fixpoint join_path (names : list string) : string :=
  match names with
  | [] => ""
  | [name] => name
  | name :: rest => name ++ "/" ++ join_path rest
  end.

(** [l] without its beginning [pre], when it begins so. *)
Fixpoint strip_prefix (pre l : list string) : option (list string) :=
  match pre, l with
  | [], _ => Some l
  | x :: pre', y :: l' => if decide (x = y) then strip_prefix pre' l' else None
  | _ :: _, [] => None
  end.

(** A component that names an entry of a directory. *)
Definition is_name (name : string) : Prop :=
  name ≠ "" ∧ name ≠ "." ∧ name ≠ "..".

(** A path that is one name: it leads to the entry of that name in the
    working directory. *)
Definition slash_free (path : string) : bool :=
  forallb (λ c, negb (is_sep c)) (String.list_ascii_of_string path).

Definition plain (path : string) : Prop :=
  slash_free path = true ∧ is_name path.

(** The ways in which the operating system refuses a path. *)
Inductive errno := ENOENT | ENOTDIR | EISDIR | EEXIST.

Definition os_error (e : errno) (path : string) : exn :=
  match e with
  | ENOENT => FileNotFoundError path
  | ENOTDIR => NotADirectoryError path
  | EISDIR => IsADirectoryError path
  | EEXIST => FileExistsError path
  end.

(** [posixpath.split]: the path up to its last slash, without the slashes
    it ends in unless it consists of slashes, and what follows that
    slash. *)
Fixpoint drop_while {A} (f : A → bool) (l : list A) : list A :=
  match l with
  | x :: l' => if f x then drop_while f l' else l
  | [] => []
  end.

Fixpoint take_while {A} (f : A → bool) (l : list A) : list A :=
  match l with
  | x :: l' => if f x then x :: take_while f l' else []
  | [] => []
  end.

Definition path_split (p : string) : string * string :=
  let chars := rev (String.list_ascii_of_string p) in
  let tail := take_while (λ c, negb (is_sep c)) chars in
  let head := drop_while (λ c, negb (is_sep c)) chars in
  let head := if forallb is_sep head then head else drop_while is_sep head in
  (String.string_of_list_ascii (rev head), String.string_of_list_ascii (rev tail)).

Section Paths.

(** The working directory, as its names from the root. *)
Variable cwd : list string.

(** A place in the tree, as its names from the root, and its key. *)
Definition key (loc : list string) : string :=
  match strip_prefix cwd loc with
  | Some below => join_path below
  | None => "/" ++ join_path loc
  end.

Definition node_at (files : filesystem) (loc : list string) : option node :=
  if bool_decide (is_Some (strip_prefix loc cwd)) then Some Dir
  else files !! key loc.

(** Every place from the root down to [above ++ names] is a directory,
    given that [above] is one; else what the first that is not makes the
    operating system answer. *)
Fixpoint dir_chain_from (files : filesystem) (above names : list string)
  : option errno :=
  match names with
  | [] => None
  | name :: rest =>
      match node_at files (above ++ [name]) with
      | Some Dir => dir_chain_from files (above ++ [name]) rest
      | Some (File _) => Some ENOTDIR
      | None => Some ENOENT
      end
  end.

Definition dir_chain (files : filesystem) (loc : list string) : option errno :=
  dir_chain_from files [] loc.

(** Path resolution, component by component, from the place [cur]. Empty
    components are passed over; [.] stays and [..] goes up, both only
    from a directory. That the places passed on the way down are
    directories is checked by the operation that uses the result. *)
Fixpoint walk (files : filesystem) (cur names : list string)
  : errno + list string :=
  match names with
  | [] => inr cur
  | name :: rest =>
      if decide (name = "") then walk files cur rest
      else if decide (name = ".") then
        match dir_chain files cur with
        | Some e => inl e
        | None => walk files cur rest
        end
      else if decide (name = "..") then
        match dir_chain files cur with
        | Some e => inl e
        | None => walk files (removelast cur) rest
        end
      else walk files (cur ++ [name]) rest
  end.

(** The place a path leads to, and whether the path ends in a slash and
    so asks for a directory. *)
Definition locate (files : filesystem) (path : string)
  : errno + (list string * bool) :=
  match path with
  | EmptyString => inl ENOENT
  | String c _ =>
      let names := components path in
      match walk files (if is_sep c then [] else cwd) names with
      | inl e => inl e
      | inr loc => inr (loc, bool_decide (last names = Some ""))
      end
  end.

(** [os.path.exists(path)]. An entry that has a key is there together
    with the directories above it: entries are only ever made inside
    directories that are there (see [writable] and [mkdir_key]). *)
Definition exists_in (files : filesystem) (path : string) : bool :=
  match locate files path with
  | inr (loc, dir_only) =>
      match node_at files loc with
      | Some Dir => true
      | Some (File _) => negb dir_only
      | None => false
      end
  | inl _ => false
  end.

(** Opening [path] for writing: the key of the file that is written. *)
Definition writable (files : filesystem) (path : string) : errno + string :=
  match locate files path with
  | inl e => inl e
  | inr (loc, dir_only) =>
      match dir_chain files (removelast loc) with
      | Some e => inl e
      | None =>
          match node_at files loc with
          | Some Dir => inl EISDIR
          | _ => if dir_only then inl EISDIR else inr (key loc)
          end
      end
  end.

(** Opening [path] for reading: the text of the file. *)
Definition readable (files : filesystem) (path : string) : errno + string :=
  match locate files path with
  | inl e => inl e
  | inr (loc, dir_only) =>
      match dir_chain files (removelast loc) with
      | Some e => inl e
      | None =>
          match node_at files loc with
          | Some Dir => inl EISDIR
          | Some (File text) => if dir_only then inl ENOTDIR else inr text
          | None => inl ENOENT
          end
      end
  end.

(** [os.mkdir(path)]: the key of the directory that is made. *)
Definition mkdir_key (files : filesystem) (path : string) : errno + string :=
  match locate files path with
  | inl e => inl e
  | inr (loc, _) =>
      match dir_chain files (removelast loc) with
      | Some e => inl e
      | None =>
          match node_at files loc with
          | Some _ => inl EEXIST
          | None => inr (key loc)
          end
      end
  end.

Definition mkdir (path : string) (files : filesystem)
  : option (errno * string) * filesystem :=
  match mkdir_key files path with
  | inl e => (Some (e, path), files)
  | inr k => (None, <[k := Dir]> files)
  end.

Definition is_eexist (r : option (errno * string)) : bool :=
  match r with Some (EEXIST, _) => true | _ => false end.

(** [os.makedirs(name)], as the standard library has it:
    [head, tail = path.split(name)], once more when [tail] is empty;
    when [head] does not exist it is made first, by a recursive call
    whose [FileExistsError] is passed over, and nothing more is done
    when [tail] is [.]; then [mkdir(name)]. The recursive call is on a
    shorter name: [fuel] above the length of [name] is enough (see
    [makedirs_from_total]). The error comes with the name it is about. *)
Fixpoint makedirs_from (fuel : nat) (name : string) (files : filesystem)
  : option (option (errno * string) * filesystem) :=
  match fuel with
  | O => None
  | S fuel' =>
      let (head, tail) := path_split name in
      let (head, tail) :=
        if bool_decide (tail = "") then path_split head else (head, tail) in
      if negb (bool_decide (head = "")) && negb (bool_decide (tail = ""))
         && negb (exists_in files head)
      then
        match makedirs_from fuel' head files with
        | None => None
        | Some (r, files1) =>
            if bool_decide (r = None) || is_eexist r then
              if bool_decide (tail = ".") then Some (None, files1)
              else Some (mkdir name files1)
            else Some (r, files1)
        end
      else Some (mkdir name files)
  end.

End Paths.

(** [f"config.old.{count}.yaml"] *)
Definition archive_name (count : nat) : string :=
  "config.old." ++ pretty count ++ ".yaml".

(** [count = 1; while os.path.exists(f"config.old.{count}.yaml"): count += 1]
    as a search from [count] that gives up after [fuel] increments. An
    archive name is a plain name, which exists when the working directory
    has an entry of that name (see [exists_in_plain]). *)
Fixpoint first_free (files : filesystem) (fuel count : nat) : option nat :=
  match files !! archive_name count with
  | None => Some count
  | Some _ =>
      match fuel with
      | O => None
      | S fuel' => first_free files fuel' (S count)
      end
  end.

(** The specification's sentence on a run in a directory that already
    holds [config.yaml], as a relation between the directory before and
    after: one new archive, numbered one more than the highest number in
    use, and [config.yaml] holding the new configuration. *)
Definition highest_archive (files : filesystem) (h : nat) : Prop :=
  (h = O ∨ is_Some (files !! archive_name h))
  ∧ ∀ k, (h < k)%nat → files !! archive_name k = None.

Definition archived_as_specified (before after : filesystem) (new_config : string)
  : Prop :=
  ∃ h, highest_archive before h
       ∧ is_Some (after !! archive_name (S h))
       ∧ after !! "config.yaml" = Some (File new_config).

(** *** The configuration *)

(** A value that may still be the placeholder [???]. *)
Inductive setting :=
  | Missing
  | Value (v : string).

(** A configuration fragment ([config.data], one callback, ...): its keys,
    each with a text value or [null]. *)
Abbreviation Fragment := (gmap string (option string)).

Record Config := {
  top_run_data_dir : option setting;      (* a top-level key spelled "run.data_dir" *)
  run_data_dir : setting;                 (* run.data_dir *)
  run_ckpt_path : option string;          (* run.ckpt_path, None when null *)
  run_id : string;                        (* run.id *)
  globals_model_path : option string;     (* globals.model_path *)
  data : option Fragment;
  model : option Fragment;
  task : option Fragment;
  trainer : option Fragment;
  callbacks : option (list (string * Fragment));
  logger : option (list (string * Fragment));
  print_config : option bool;
  matmul_precision : option (option string);
  seed : option Z;
}.

Definition set_ckpt_path (p : option string) (c : Config) : Config :=
  {| top_run_data_dir := top_run_data_dir c;
     run_data_dir := run_data_dir c; run_ckpt_path := p; run_id := run_id c;
     globals_model_path := globals_model_path c;
     data := data c; model := model c; task := task c; trainer := trainer c;
     callbacks := callbacks c; logger := logger c;
     print_config := print_config c; matmul_precision := matmul_precision c;
     seed := seed c |}.

(** [OmegaConf.is_missing(config, "run.data_dir")]: the key is looked up
    as it is spelled, among the top-level keys of the configuration, and
    not as the key [data_dir] of the section [run]. *)
Definition is_missing_data_dir (c : Config) : bool :=
  match top_run_data_dir c with
  | Some Missing => true
  | _ => false
  end.

(** Truth value of a text-or-null configuration value. *)
Definition truthy (v : option string) : bool :=
  match v with
  | None => false
  | Some s => negb (bool_decide (s = ""))
  end.

(** How an f-string shows such a value. *)
Definition fmt (v : option string) : string := default "None" v.

(** *** The collaborators *)

(** Identities of the objects the collaborators hand out (models, tasks,
    trainers, classes, time stamps). *)
Definition Obj := positive.

(** The attributes of the data module that the script assigns. *)
Record DataModule := {
  dm_id : Obj;
  split_file : option string;
  num_train : option nat;
  num_test : option nat;
  num_val : option nat;
}.

(** What [np.load] gives for a partition file: named index arrays. *)
Abbreviation Npz := (gmap string (list Z)).

Inductive Arg :=
  | ANone
  | AObj (o : Obj)
  | AObjs (os : list Obj)
  | AStr (s : string).

(** The calls the script makes into hydra, torch, numpy and
    pytorch_lightning. [CInstantiate key conf kwargs] is
    [hydra.utils.instantiate(config.<key>, **kwargs)]. *)
Inductive Call :=
  | CPrintConfig
  | CSetMatmulPrecision (precision : string)
  | CSeedEverything (seed : option Z)
  | CStr2Class (name : option string)
  | CInstantiate (key : list string) (conf : Fragment) (kwargs : list (string * Arg))
  | CTorchLoad (path : string)
  | CLogHyperparameters (task trainer : Obj)
  | CNpLoad (path : string)
  | CTime
  | CTrainerFit (trainer task : Obj) (dm : DataModule)
  | CTrainerTest (trainer task : Obj) (dm : DataModule)
  | CBestModelPath (trainer : Obj)
  | CLoadFromCheckpoint (task : Obj) (path : string)
  | CTorchSave (obj : Obj) (path : string)
  | CSaveModel (task : Obj) (path : string).

Inductive Level := INFO | ERROR.

Inductive AttrVal :=
  | VStr (s : string)
  | VLen (n : nat).

(** What a run does, in order: console and log output, assignments to the
    attributes of the data module, calls into the collaborators. *)
Inductive Event :=
  | EvPrint (text : string)
  | EvLog (level : Level) (msg : string)
  | EvSetAttr (attr : string) (v : AttrVal)
  | EvCall (c : Call).

(** How a call of [torch.save] ends: it raises before it opens the file;
    it opens the file and raises while it writes, which leaves the bytes
    written so far; or it writes the whole file. *)
Inductive save_result :=
  | NotOpened (e : exn)
  | Aborted (bytes : string) (e : exn)
  | Completed (bytes : string).

(** The collaborators, over a state [W] of their own. Each operation may
    raise. [torch_save] and [save_model] say how the save of an object
    under a file name ends, given that the file can be opened. [getcwd]
    is the working directory, as its names from the root. *)
Class Framework (W : Type) := {
  gethostname : W → string;
  getcwd : list string;
  abspath : string → string;
  yaml_load : string → option Config;
  yaml_save : Config → string;
  str_elapsed : Obj → Obj → string;
  fw_print_config : Config → M W unit;
  set_float32_matmul_precision : string → M W unit;
  seed_everything : option Z → M W unit;
  str2class : option string → M W Obj;
  instantiate : list string → Fragment → list (string * Arg) → M W Obj;
  instantiate_datamodule : Fragment → option Obj → M W DataModule;
  torch_load : string → M W Obj;
  log_hyperparameters : Config → Obj → Obj → M W unit;
  np_load : string → M W Npz;
  time_time : M W Obj;
  trainer_fit : Obj → Obj → DataModule → M W unit;
  trainer_test : Obj → Obj → DataModule → M W unit;
  best_model_path : Obj → M W string;
  load_from_checkpoint : Obj → string → M W Obj;
  torch_save : Obj → string → W → save_result * W;
  save_model : Obj → string → W → save_result * W;
}.

(** Kinds of events: console and log output; what lines 91-179 may record;
    what the evaluation passes may record; what the export may record. No
    kind holds a call to [trainer.fit], nor
    [hydra.utils.instantiate(config.model)]. *)
Definition is_output (e : Event) : bool :=
  match e with EvPrint _ | EvLog _ _ => true | _ => false end.

Definition setup_event (e : Event) : bool :=
  match e with
  | EvCall CPrintConfig | EvCall (CSetMatmulPrecision _)
  | EvCall (CSeedEverything _) | EvCall (CStr2Class _) | EvCall (CTorchLoad _)
  | EvCall (CLogHyperparameters _ _) => true
  | EvCall (CInstantiate key _ _) => negb (bool_decide (key = ["model"]))
  | _ => false
  end.

Definition sweep_event (e : Event) : bool :=
  match e with
  | EvSetAttr _ _ | EvCall (CNpLoad _) | EvCall CTime
  | EvCall (CTrainerTest _ _ _) => true
  | _ => false
  end.

Definition export_event (e : Event) : bool :=
  match e with
  | EvCall (CBestModelPath _) | EvCall (CLoadFromCheckpoint _ _)
  | EvCall (CTorchSave _ _) | EvCall (CSaveModel _ _) => true
  | _ => false
  end.

Definition train_event (e : Event) : bool :=
  setup_event e || sweep_event e || export_event e.

Definition is_fit (e : Event) : bool :=
  match e with EvCall (CTrainerFit _ _ _) => true | _ => false end.

Definition is_test (e : Event) : bool :=
  match e with EvCall (CTrainerTest _ _ _) => true | _ => false end.

Definition is_instantiate_model (e : Event) : bool :=
  match e with
  | EvCall (CInstantiate key _ _) => bool_decide (key = ["model"])
  | _ => false
  end.

(** Assignments to the data module, and evaluation calls. *)
Definition is_sweep_step (e : Event) : bool :=
  match e with
  | EvSetAttr _ _ | EvCall (CTrainerTest _ _ _) => true
  | _ => false
  end.

Definition is_call (e : Event) : bool :=
  match e with EvCall _ => true | _ => false end.

(** An entry of [config.callbacks] or [config.logger] that names a target,
    and the call that instantiates it. *)
Definition has_target (item : string * Fragment) : bool :=
  bool_decide (is_Some (item.2 !! "_target_")).

Definition target_call (group : string) (item : string * Fragment) : Event :=
  EvCall (CInstantiate [group; item.1] item.2 []).

Definition setup_or_output (e : Event) : bool := setup_event e || is_output e.
Definition export_or_output (e : Event) : bool := export_event e || is_output e.
Definition train_or_output (e : Event) : bool := train_event e || is_output e.

Definition is_save (e : Event) : bool :=
  match e with
  | EvCall (CTorchSave _ _) | EvCall (CSaveModel _ _) => true
  | _ => false
  end.

Section Train.

Context {W : Type} `{!Framework W}.

(** The store of a run: the working directory, the configuration object
    (the script assigns [run.ckpt_path]), the data module object once it
    exists, the state of the collaborators, and what happened so far. *)
Record State := {
  fs : filesystem;
  cfg : Config;
  datamodule : option DataModule;
  world : W;
  trace : list Event;
}.

Definition set_fs (f : filesystem → filesystem) (s : State) : State :=
  {| fs := f (fs s); cfg := cfg s; datamodule := datamodule s;
     world := world s; trace := trace s |}.
Definition set_cfg (f : Config → Config) (s : State) : State :=
  {| fs := fs s; cfg := f (cfg s); datamodule := datamodule s;
     world := world s; trace := trace s |}.
Definition set_datamodule (d : option DataModule) (s : State) : State :=
  {| fs := fs s; cfg := cfg s; datamodule := d;
     world := world s; trace := trace s |}.
Definition set_world (w : W) (s : State) : State :=
  {| fs := fs s; cfg := cfg s; datamodule := datamodule s;
     world := w; trace := trace s |}.
Definition emit (e : Event) (s : State) : State :=
  {| fs := fs s; cfg := cfg s; datamodule := datamodule s;
     world := world s; trace := trace s ++ [e] |}.

(** **** Console, log and collaborator calls *)

Definition print (text : string) : M State unit := modify (emit (EvPrint text)).
Definition log_info (msg : string) : M State unit := modify (emit (EvLog INFO msg)).
Definition log_error (msg : string) : M State unit := modify (emit (EvLog ERROR msg)).

(** A call into a collaborator: recorded, then run on the collaborators'
    state; what it raises is raised here. *)
Definition ext {A} (c : Call) (f : M W A) : M State A :=
  λ s, let s1 := emit (EvCall c) s in
       match f (world s1) with
       | (r, w) => (r, set_world w s1)
       end.

(** **** Files *)

(** [os.path.exists(path)] *)
Definition path_exists (path : string) : M State bool :=
  gets (λ s, exists_in getcwd (fs s) path).

(** [OmegaConf.load(path)] *)
Definition omegaconf_load (path : string) : M State Config :=
  λ s, match readable getcwd (fs s) path with
       | inr text =>
           match yaml_load text with
           | Some c => (Ok c, s)
           | None => (Raise (FrameworkError "OmegaConf.load"), s)
           end
       | inl e => (Raise (os_error e path), s)
       end.

(** [with open(path, "w") as f: f.write(text)] *)
Definition write_file (path text : string) : M State unit :=
  λ s, match writable getcwd (fs s) path with
       | inr k => (Ok tt, set_fs (<[k := File text]>) s)
       | inl e => (Raise (os_error e path), s)
       end.

(** [os.makedirs(path)]; it may raise after it has made some of the
    directories. *)
Definition makedirs (path : string) : M State unit :=
  λ s, match makedirs_from getcwd (S (String.length path)) path (fs s) with
       | Some (None, files) => (Ok tt, set_fs (λ _, files) s)
       | Some (Some (e, name), files) =>
           (Raise (os_error e name), set_fs (λ _, files) s)
       | None => (Raise (FrameworkError "os.makedirs"), s)  (* not reached *)
       end.

(** [torch.save(obj, path)] and [task.save_model(path)], which ends in
    [torch.save]: the call is recorded; unless the collaborator raises
    first, the file is opened for writing, and what the collaborator
    writes is in it afterwards, also when it raises on the way. That the
    file cannot be opened is raised by the collaborator. *)
Definition save_to (c : Call) (save : W → save_result * W) (path : string)
  : M State unit :=
  λ s, let s1 := emit (EvCall c) s in
       match save (world s1) with
       | (NotOpened e, w) => (Raise e, set_world w s1)
       | (Aborted bytes e, w) =>
           match writable getcwd (fs s1) path with
           | inr k => (Raise e, set_fs (<[k := File bytes]>) (set_world w s1))
           | inl _ => (Raise (FrameworkError "torch.save"), s1)
           end
       | (Completed bytes, w) =>
           match writable getcwd (fs s1) path with
           | inr k => (Ok tt, set_fs (<[k := File bytes]>) (set_world w s1))
           | inl _ => (Raise (FrameworkError "torch.save"), s1)
           end
       end.

(** The [while] loop of the archive counter. The working directory holds
    finitely many entries, so as many increments as it has entries are
    enough (see [first_free_total]). *)
Definition next_archive_index : M State nat :=
  λ s, match first_free (fs s) (size (fs s)) 1 with
       | Some count => (Ok count, s)
       | None => (Raise (FrameworkError "archive counter"), s)
       end.

(** **** Reading the configuration *)

Definition section (name : string) (get_section : Config → option Fragment)
  : M State Fragment :=
  (config <- gets cfg ;;
   match get_section config with
   | Some conf => ret conf
   | None => raise (ConfigAttributeError name)
   end)%py.

(** [conf.<key>] *)
Definition attr (conf : Fragment) (key : string) : M State (option string) :=
  match conf !! key with
  | Some v => ret v
  | None => raise (ConfigAttributeError key)
  end.

(** [config.run.data_dir] *)
Definition cfg_data_dir : M State string :=
  (config <- gets cfg ;;
   match run_data_dir config with
   | Value dir => ret dir
   | Missing => raise (MissingMandatoryValue "run.data_dir")
   end)%py.

(** [config.globals.model_path], used as a string *)
Definition cfg_model_path : M State string :=
  (config <- gets cfg ;;
   match globals_model_path config with
   | Some path => ret path
   | None => raise (TypeError "globals.model_path")
   end)%py.

(** [str2class(name) if name else None] *)
Definition optional_class (name : option string) : M State (option Obj) :=
  (if truthy name then
     cls <- ext (CStr2Class name) (str2class name) ;; ret (Some cls)
   else ret None)%py.

(** **** Lines 64-89: resume from, or create, [config.yaml] *)

Definition train_resume : M State unit :=
  (log_info ("Config already exists in given directory " ++ abspath "." ++ "."
             ++ " Attempting to continue training.") ;;;
   (* save old config *)
   old_config <- omegaconf_load "config.yaml" ;;
   count <- next_archive_index ;;
   write_file (archive_name count) (yaml_save old_config) ;;;
   (* resume from latest checkpoint *)
   config <- gets cfg ;;
   (match run_ckpt_path config with
    | None =>
        found <- path_exists "checkpoints/last.ckpt" ;;
        if found
        then modify (set_cfg (set_ckpt_path (Some "checkpoints/last.ckpt")))
        else ret tt
    | Some _ => ret tt
    end) ;;;
   config <- gets cfg ;;
   match run_ckpt_path config with
   | Some ckpt_path => log_info ("Resuming from checkpoint " ++ abspath ckpt_path)
   | None => ret tt
   end)%py.

Definition train_fresh : M State unit :=
  (config <- gets cfg ;; write_file "config.yaml" (yaml_save config))%py.

Definition train_config_file : M State unit :=
  (found <- path_exists "config.yaml" ;;
   if found then train_resume else train_fresh)%py.

(** **** Lines 91-108: options, seed, data directory *)

Definition train_options : M State unit :=
  (config <- gets cfg ;;
   (if bool_decide (print_config config = Some true)
    then ext CPrintConfig (fw_print_config config)
    else ret tt) ;;;
   (* Set matmul precision if specified *)
   (match matmul_precision config with
    | Some (Some precision) =>
        log_info ("Setting float32 matmul precision to <" ++ precision ++ ">") ;;;
        ext (CSetMatmulPrecision precision) (set_float32_matmul_precision precision)
    | _ => ret tt
    end) ;;;
   (* Set seed for random number generators *)
   (match seed config with
    | Some n =>
        log_info ("Seed with <" ++ pretty n ++ ">") ;;;
        ext (CSeedEverything (Some n)) (seed_everything (Some n))
    | None =>
        log_info "Seed randomly..." ;;;
        ext (CSeedEverything None) (seed_everything None)
    end) ;;;
   data_dir <- cfg_data_dir ;;
   found <- path_exists data_dir ;;
   if found then ret tt else makedirs data_dir)%py.

(** **** Lines 110-179: the objects of the run *)

(* Init Lightning datamodule *)
Definition init_datamodule : M State unit :=
  (conf <- section "data" data ;;
   target <- attr conf "_target_" ;;
   log_info ("Instantiating datamodule <" ++ fmt target ++ ">") ;;;
   sampler_name <- attr conf "train_sampler_cls" ;;
   train_sampler_cls <- optional_class sampler_name ;;
   dm <- ext (CInstantiate ["data"] conf
                [("train_sampler_cls", from_option AObj ANone train_sampler_cls)])
             (instantiate_datamodule conf train_sampler_cls) ;;
   modify (set_datamodule (Some dm)))%py.

Definition pretrained_model_path : string :=
  "/home/gulsum/Documents/Surrogates/schnetpack/src/runs/Train100/best_model".

(* Init model *)
Definition init_model : M State Obj :=
  (conf <- section "model" model ;;
   target <- attr conf "_target_" ;;
   log_info ("Instantiating model <" ++ fmt target ++ ">") ;;;
   ext (CTorchLoad pretrained_model_path) (torch_load pretrained_model_path))%py.

(* Init LightningModule *)
Definition init_task (model : Obj) : M State Obj :=
  (conf <- section "task" task ;;
   target <- attr conf "_target_" ;;
   log_info ("Instantiating task <" ++ fmt target ++ ">") ;;;
   scheduler_name <- attr conf "scheduler_cls" ;;
   scheduler_cls <- optional_class scheduler_name ;;
   optimizer_name <- attr conf "optimizer_cls" ;;
   optimizer_cls <- ext (CStr2Class optimizer_name) (str2class optimizer_name) ;;
   let kwargs := [("model", AObj model); ("optimizer_cls", AObj optimizer_cls);
                  ("scheduler_cls", from_option AObj ANone scheduler_cls)] in
   ext (CInstantiate ["task"] conf kwargs) (instantiate ["task"] conf kwargs))%py.

(** The loops over [config["callbacks"].items()] and
    [config["logger"].items()]: entries without [_target_] are skipped. *)
Fixpoint instantiate_targets (group kind : string)
    (items : list (string * Fragment)) : M State (list Obj) :=
  match items with
  | [] => ret []
  | (name, conf) :: rest =>
      match conf !! "_target_" with
      | Some target =>
          (log_info ("Instantiating " ++ kind ++ " <" ++ fmt target ++ ">") ;;;
           o <- ext (CInstantiate [group; name] conf [])
                    (instantiate [group; name] conf []) ;;
           os <- instantiate_targets group kind rest ;;
           ret (o :: os))%py
      | None => instantiate_targets group kind rest
      end
  end.

(* Init Lightning callbacks *)
Definition init_callbacks : M State (list Obj) :=
  (config <- gets cfg ;;
   match callbacks config with
   | Some items => instantiate_targets "callbacks" "callback" items
   | None => ret []
   end)%py.

(* Init Lightning loggers *)
Definition init_loggers : M State (list Obj) :=
  (config <- gets cfg ;;
   match logger config with
   | Some items => instantiate_targets "logger" "logger" items
   | None => ret []
   end)%py.

(* Init Lightning trainer *)
Definition init_trainer (callbacks logger : list Obj) : M State Obj :=
  (conf <- section "trainer" trainer ;;
   target <- attr conf "_target_" ;;
   log_info ("Instantiating trainer <" ++ fmt target ++ ">") ;;;
   config <- gets cfg ;;
   let kwargs := [("callbacks", AObjs callbacks); ("logger", AObjs logger);
                  ("default_root_dir", AStr (run_id config));
                  ("_convert_", AStr "partial")] in
   ext (CInstantiate ["trainer"] conf kwargs) (instantiate ["trainer"] conf kwargs))%py.

Definition init_hyperparameters (task trainer : Obj) : M State unit :=
  (log_info "Logging hyperparameters." ;;;
   config <- gets cfg ;;
   ext (CLogHyperparameters task trainer) (log_hyperparameters config task trainer))%py.

(** **** Lines 183-288: the evaluation passes *)

Definition with_split_file (p : string) (d : DataModule) : DataModule :=
  {| dm_id := dm_id d; split_file := Some p; num_train := num_train d;
     num_test := num_test d; num_val := num_val d |}.
Definition with_num_train (n : nat) (d : DataModule) : DataModule :=
  {| dm_id := dm_id d; split_file := split_file d; num_train := Some n;
     num_test := num_test d; num_val := num_val d |}.
Definition with_num_test (n : nat) (d : DataModule) : DataModule :=
  {| dm_id := dm_id d; split_file := split_file d; num_train := num_train d;
     num_test := Some n; num_val := num_val d |}.
Definition with_num_val (n : nat) (d : DataModule) : DataModule :=
  {| dm_id := dm_id d; split_file := split_file d; num_train := num_train d;
     num_test := num_test d; num_val := Some n |}.

(** [datamodule.<attr> = v] *)
Definition set_attr (attr : string) (v : AttrVal) (upd : DataModule → DataModule)
  : M State unit :=
  λ s, match datamodule s with
       | Some dm => (Ok tt, emit (EvSetAttr attr v) (set_datamodule (Some (upd dm)) s))
       | None => (Raise (AttributeError attr), s)
       end.

Definition get_datamodule : M State DataModule :=
  λ s, match datamodule s with
       | Some dm => (Ok dm, s)
       | None => (Raise (AttributeError "datamodule"), s)
       end.

(** [len(s_file[key])] *)
Definition npz_len (s_file : Npz) (key : string) : M State nat :=
  match s_file !! key with
  | Some idx => ret (length idx)
  | None => raise (KeyError key)
  end.

(** The five lines that open every pass: point the data module at a
    partition file and take over the sizes of its three index arrays. *)
Definition swap_partition (path : string) : M State unit :=
  (set_attr "split_file" (VStr path) (with_split_file path) ;;;
   dm <- get_datamodule ;;
   s_file <- match split_file dm with
             | Some p => ext (CNpLoad p) (np_load p)
             | None => raise (TypeError "np.load")
             end ;;
   n <- npz_len s_file "train_idx" ;;
   set_attr "num_train" (VLen n) (with_num_train n) ;;;
   n <- npz_len s_file "test_idx" ;;
   set_attr "num_test" (VLen n) (with_num_test n) ;;;
   n <- npz_len s_file "val_idx" ;;
   set_attr "num_val" (VLen n) (with_num_val n))%py.

(** [start = time.time(); trainer.test(model=task, datamodule=datamodule);
    end = time.time(); log.info("Testing for ... took ...")] *)
Definition timed_test (trainer task : Obj) (label : string) : M State unit :=
  (start <- ext CTime time_time ;;
   dm <- get_datamodule ;;
   ext (CTrainerTest trainer task dm) (trainer_test trainer task dm) ;;;
   end_ <- ext CTime time_time ;;
   log_info ("Testing for " ++ label ++ " took " ++ str_elapsed end_ start
             ++ " seconds"))%py.

Definition train_perc : nat := 100.

Definition split_files : string :=
  "/home/gulsum/Documents/Surrogates/schnetpack/src/schnetpack/splits/split_files/".

Definition split_100 : string :=
  split_files ++ "split_train_" ++ pretty train_perc ++ "_perc_of_nitrogen_100_perc_of_remaining_test_100_perc_of_nitrogen_100_perc_of_remaining.npz".
Definition split_80 : string :=
  split_files ++ "split_train_100_perc_of_nitrogen_100_perc_of_remaining_test_80_perc_of_nitrogen_100_perc_of_remaining.npz".
Definition split_60 : string :=
  split_files ++ "split_train_100_perc_of_nitrogen_100_perc_of_remaining_test_60_perc_of_nitrogen_100_perc_of_remaining.npz".
Definition split_40 : string :=
  split_files ++ "split_train_100_perc_of_nitrogen_100_perc_of_remaining_test_40_perc_of_nitrogen_100_perc_of_remaining.npz".
Definition split_20 : string :=
  split_files ++ "split_train_100_perc_of_nitrogen_100_perc_of_remaining_test_20_perc_of_nitrogen_100_perc_of_remaining.npz".
Definition split_0 : string :=
  split_files ++ "split_train_100_perc_of_nitrogen_100_perc_of_remaining_test_0_perc_of_nitrogen_100_perc_of_remaining.npz".
Definition split_only_nitrogen : string :=
  split_files ++ "split_train_100_perc_of_nitrogen_100_perc_of_remaining_test_100_perc_of_nitrogen_0_perc_of_remaining.npz".

Definition train_sweep (trainer task : Obj) : M State unit :=
  (swap_partition split_100 ;;;
   (* Train the model: the call to trainer.fit is commented out *)
   log_info ("Starting training for " ++ pretty train_perc ++ "% nitrogen.") ;;;
   log_info "Starting testing for 100% nitrogen." ;;;
   timed_test trainer task "100% nitrogen" ;;;
   swap_partition split_80 ;;;
   log_info "Starting testing for 80% nitrogen." ;;;
   timed_test trainer task "80% nitrogen" ;;;
   swap_partition split_60 ;;;
   log_info "Starting testing for 60% nitrogen." ;;;
   timed_test trainer task "60% nitrogen" ;;;
   swap_partition split_40 ;;;
   log_info "Starting testing for 40% nitrogen." ;;;
   timed_test trainer task "40% nitrogen" ;;;
   swap_partition split_20 ;;;
   log_info "Starting testing for 20% nitrogen." ;;;
   timed_test trainer task "20% nitrogen" ;;;
   swap_partition split_0 ;;;
   log_info "Starting testing for 0% nitrogen." ;;;
   timed_test trainer task "0% nitrogen" ;;;
   swap_partition split_only_nitrogen ;;;
   log_info ("Starting testing for only nitrogen, Train " ++ pretty train_perc
             ++ "% N.") ;;;
   timed_test trainer task "only nitrogen")%py.

(** **** Lines 322-331: store best model *)

Definition newline : string := String (Ascii.ascii_of_nat 10) "".

Definition store_best_model (trainer task : Obj) : M State unit :=
  (best_path <- ext (CBestModelPath trainer) (best_model_path trainer) ;;
   log_info ("Best checkpoint path:" ++ newline ++ best_path) ;;;
   log_info "Store best model" ;;;
   best_task <- ext (CLoadFromCheckpoint task best_path)
                    (load_from_checkpoint task best_path) ;;
   model_path <- cfg_model_path ;;
   save_to (CTorchSave best_task (model_path ++ ".task"))
           (torch_save best_task (model_path ++ ".task"))
           (model_path ++ ".task") ;;;
   model_path <- cfg_model_path ;;
   save_to (CSaveModel best_task model_path)
           (save_model best_task model_path) model_path ;;;
   model_path <- cfg_model_path ;;
   log_info ("Best model stored at " ++ abspath model_path))%py.

(** **** [train(config)] *)

Definition header : string :=
  newline ++ "GULSUM2" ++ newline
  ++ "   _____      __    _   __     __  ____             __" ++ newline
  ++ "  / ___/_____/ /_  / | / /__  / /_/ __ \____ ______/ /__" ++ newline
  ++ "  \__ \/ ___/ __ \/  |/ / _ \/ __/ /_/ / __ `/ ___/ //_/" ++ newline
  ++ " ___/ / /__/ / / / /|  /  __/ /_/ ____/ /_/ / /__/ ,<" ++ newline
  ++ "/____/\___/_/ /_/_/ |_/\___/\__/_/    \__,_/\___/_/|_|" ++ newline.

Definition msg_no_data_dir : string :=
  "Config incomplete! You need to specify the data directory `data_dir`.".

Definition msg_no_sections : string :=
  newline
  ++ "        Config incomplete HELLO! You have to specify at least `data` and `model`!" ++ newline
  ++ "        For an example, try one of our pre-defined experiments:" ++ newline
  ++ "        > spktrain data_dir=/data/will/be/here +experiment=qm9" ++ newline
  ++ "        ".

(** Lines 91-331: what a run does once [config.yaml] is dealt with. *)
Definition train_run : M State unit :=
  (train_options ;;;
   init_datamodule ;;;
   model <- init_model ;;
   task <- init_task model ;;
   callbacks <- init_callbacks ;;
   logger <- init_loggers ;;
   trainer <- init_trainer callbacks logger ;;
   init_hyperparameters task trainer ;;;
   train_sweep trainer task ;;;
   store_best_model trainer task)%py.

Definition train : M State unit :=
  (print header ;;;
   host <- gets (λ s, gethostname (world s)) ;;
   log_info ("Running on host GULSUM!: " ++ host) ;;;
   config <- gets cfg ;;
   if is_missing_data_dir config then
     log_error msg_no_data_dir
   else if negb (bool_decide (is_Some (model config))
                 && bool_decide (is_Some (data config))) then
     log_error msg_no_sections
   else
     train_config_file ;;;
     train_run)%py.

(** **** Vocabulary of the properties *)

(** [frames R m]: whatever [m] does, and however it ends, the store it
    leaves is related by [R] to the one it started from. *)
Definition frames {A} (R : State → State → Prop) (m : M State A) : Prop :=
  ∀ s, R s (m s).2.

(** The configuration passes the two checks of lines 48-62. *)
Definition complete (c : Config) : Prop :=
  is_missing_data_dir c = false ∧ is_Some (model c) ∧ is_Some (data c).

(** The store when the banner and the host name are out. *)
Definition greeted (s : State) : State :=
  emit (EvLog INFO ("Running on host GULSUM!: " ++ gethostname (world s)))
    (emit (EvPrint header) s).

(** The configuration after lines 78-81, in a directory [files]. *)
Definition resume_cfg (files : filesystem) (c : Config) : Config :=
  match run_ckpt_path c with
  | Some _ => c
  | None =>
      if bool_decide (is_Some (files !! "checkpoints/last.ckpt"))
      then set_ckpt_path (Some "checkpoints/last.ckpt") c
      else c
  end.

(** Lines 91-179 as one block: everything before the first pass. It
    hands the trainer and the task to the passes and to the export. *)
Definition train_setup : M State (Obj * Obj) :=
  (train_options ;;;
   init_datamodule ;;;
   model <- init_model ;;
   task <- init_task model ;;
   callbacks <- init_callbacks ;;
   logger <- init_loggers ;;
   trainer <- init_trainer callbacks logger ;;
   init_hyperparameters task trainer ;;;
   ret (trainer, task))%py.

(** From [s] to [s'] the trace has grown by events of kind [P], and a
    data module that was there is still there. *)
Definition extends (P : Event → bool) (s s' : State) : Prop :=
  (is_Some (datamodule s) → is_Some (datamodule s'))
  ∧ ∃ t, trace s' = (trace s ++ t)%list ∧ Forall (λ e, P e = true) t.

Definition same_cfg (s s' : State) : Prop := cfg s' = cfg s.

(** One evaluation pass as the data module and the trainer see it: the
    split file is assigned, then the three sizes, then the test runs on
    the data module as these assignments left it. *)
Definition pass_dm (dm : Obj) (path : string) (n_train n_test n_val : nat)
  : DataModule :=
  {| dm_id := dm; split_file := Some path; num_train := Some n_train;
     num_test := Some n_test; num_val := Some n_val |}.

Definition pass_assigns (path : string) (n_train n_test n_val : nat)
  : list Event :=
  [EvSetAttr "split_file" (VStr path);
   EvSetAttr "num_train" (VLen n_train);
   EvSetAttr "num_test" (VLen n_test);
   EvSetAttr "num_val" (VLen n_val)].

Definition pass_events (trainer task dm : Obj) (path : string)
    (n_train n_test n_val : nat) : list Event :=
  (pass_assigns path n_train n_test n_val
  ++ [EvCall (CTrainerTest trainer task (pass_dm dm path n_train n_test n_val))])%list.

(** The passes over a sequence of partition files, one after the other,
    all with the same trainer, task and data module object. *)
Inductive sweep_shape (trainer task dm : Obj) : list string → list Event → Prop :=
  | sweep_done : sweep_shape trainer task dm [] []
  | sweep_pass path paths n_train n_test n_val rest :
      sweep_shape trainer task dm paths rest →
      sweep_shape trainer task dm (path :: paths)
        (pass_events trainer task dm path n_train n_test n_val ++ rest).

(** The partition files of [train], in the order of the source. *)
Definition partitions : list string :=
  [split_100; split_80; split_60; split_40; split_20; split_0;
   split_only_nitrogen].

(** [k] continues a sweep: started with any data module whose identity
    is [dm], it records the passes over [paths], or a beginning of them
    if it raises. *)
Definition sweeps (trainer task dm : Obj) (paths : list string)
    (k : M State unit) : Prop :=
  ∀ s d, datamodule s = Some d → dm_id d = dm →
    ∃ t full,
      trace (k s).2 = (trace s ++ t)%list
      ∧ sweep_shape trainer task dm paths full
      ∧ List.filter is_sweep_step t `prefix_of` full
      ∧ ((k s).1 = Ok tt → List.filter is_sweep_step t = full).

(** [k] continues a pass whose assignments are made: what it still owes
    is the test on [path], and then the passes over [paths]. *)
Definition tests_then (trainer task dm : Obj) (path : string)
    (paths : list string) (k : M State unit) : Prop :=
  ∀ s n1 n2 n3, datamodule s = Some (pass_dm dm path n1 n2 n3) →
    ∃ t full,
      trace (k s).2 = (trace s ++ t)%list
      ∧ sweep_shape trainer task dm paths full
      ∧ List.filter is_sweep_step t
        `prefix_of` EvCall (CTrainerTest trainer task (pass_dm dm path n1 n2 n3)) :: full
      ∧ ((k s).1 = Ok tt →
         List.filter is_sweep_step t
         = EvCall (CTrainerTest trainer task (pass_dm dm path n1 n2 n3)) :: full).

(** The best checkpoint can be found and loaded, from the collaborators'
    state [w]. *)
Definition checkpoint_loads (trainer task : Obj) (w : W) : Prop :=
  ∃ path w1 best w2,
    best_model_path trainer w = (Ok path, w1)
    ∧ load_from_checkpoint task path w1 = (Ok best, w2).

(** From [s] to [s'] no entry of the working directory has gone, and
    what was a directory still is one. *)
Definition keeps_entries (s s' : State) : Prop :=
  ∀ path, (is_Some (fs s !! path) → is_Some (fs s' !! path))
          ∧ (fs s !! path = Some Dir → fs s' !! path = Some Dir).


(** From [s] to [s'] the configuration is the same, up to
    [run.ckpt_path] having become [checkpoints/last.ckpt]. *)
Definition ckpt_only (s s' : State) : Prop :=
  cfg s' = cfg s ∨ cfg s' = set_ckpt_path (Some "checkpoints/last.ckpt") (cfg s).

End Train.

End Cli.

(** ** Part III: the [predict] entry point of [cli.py] *)

Module Predict.

Import Cli.

Local Open Scope string_scope.

(** *** Tensors and batches *)

(** A tensor along its first dimension: integers (indices, atomic numbers)
    or rows that the script never looks into (positions, energies). A batch
    and the results of a model are mappings from names to tensors, taken
    here by value. *)
Inductive tensor :=
  | TInt (data : list Z)
  | TReal (rows : list Obj).

Abbreviation tensors := (gmap string tensor).

(** Position [j] of a tensor of [n] entries, as torch reads an index:
    negative indices count from the end. *)
Definition normalize_index (n : nat) (j : Z) : option nat :=
  if decide (0 ≤ j < Z.of_nat n)%Z then Some (Z.to_nat j)
  else if decide (- Z.of_nat n ≤ j < 0)%Z then Some (Z.to_nat (Z.of_nat n + j))
  else None.

Definition gather {A} (xs : list A) (js : list Z) : option (list A) :=
  mapM (λ j, i ← normalize_index (length xs) j; xs !! i) js.

(** [a[b]] for an index tensor [b]: integer tensors index, others do not. *)
Definition tensor_index (a b : tensor) : result tensor :=
  match b with
  | TInt js =>
      match a with
      | TInt xs => from_option (λ ys, Ok (TInt ys)) (Raise IndexError) (gather xs js)
      | TReal xs => from_option (λ ys, Ok (TReal ys)) (Raise IndexError) (gather xs js)
      end
  | TReal _ => Raise IndexError
  end.

(** Reading a tensor: its length and its [i]-th entry. *)
Definition tensor_len (t : tensor) : nat :=
  match t with
  | TInt xs => length xs
  | TReal xs => length xs
  end.

Definition tensor_row (t : tensor) (i : nat) : option (Z + Obj) :=
  match t with
  | TInt xs => inl <$> xs !! i
  | TReal xs => inr <$> xs !! i
  end.

(** The entry that index [j] selects among [n]. *)
Definition position (n : nat) (j : Z) : nat :=
  Z.to_nat (if decide (0 ≤ j)%Z then j else Z.of_nat n + j).

(** *** Configuration, collaborators, events *)

(** The keys of the configuration that [predict] reads, [None] for a key
    that is absent. *)
Record Config := {
  data : option Fragment;
  batch_size : option Z;
  enable_grad : option bool;
  outputdir : option string;
  write_interval : option string;
  write_idx_m : option bool;
  trainer : option Fragment;
  ckpt_path : option (option string);
}.

(** [WrapperLM(model, enable_grad)] *)
Record WrapperLM := {
  wl_model : Obj;
  wl_enable_grad : bool;
}.

Inductive Call :=
  | CInstantiate (key : list string) (conf : Fragment) (kwargs : list (string * Arg))
  | CAtomsLoader (dataset : Obj) (batch_size num_workers : Z)
  | CTorchLoad (path : string)
  | CPredictionWriter (output_dir write_interval : string) (write_idx : bool)
  | CTrainerPredict (trainer : Obj) (module : WrapperLM) (dataloaders : Obj)
      (ckpt_path : option string)
  | CSetGradEnabled (mode : bool)
  | CModel (model : Obj) (x : tensors).

Inductive Event :=
  | EvLog (msg : string)
  | EvCall (c : Call).

Class Collaborators (W : Type) := {
  instantiate : list string → Fragment → list (string * Arg) → M W Obj;
  atoms_loader : Obj → Z → Z → M W Obj;
  torch_load : string → M W Obj;
  prediction_writer : string → string → bool → M W Obj;
  trainer_predict : Obj → WrapperLM → Obj → option string → M W unit;
  set_grad_enabled : bool → M W unit;
  run_model : Obj → tensors → M W tensors;
}.

Section Predict.

Context {W : Type} `{!Collaborators W}.

(** [schnetpack.properties.idx] and [schnetpack.properties.idx_m] *)
Variables properties_idx properties_idx_m : string.

Record State := {
  world : W;
  trace : list Event;
}.

Definition emit (e : Event) (s : State) : State :=
  {| world := world s; trace := (trace s ++ [e])%list |}.

Definition log_info (msg : string) : M State unit := modify (emit (EvLog msg)).

Definition ext {A} (c : Call) (f : M W A) : M State A :=
  λ s, match f (world s) with
       | (r, w) => (r, {| world := w; trace := (trace s ++ [EvCall c])%list |})
       end.

(** [config.<name>] *)
Definition field {A} (name : string) (value : option A) : M State A :=
  match value with
  | Some v => ret v
  | None => raise (ConfigAttributeError name)
  end.

Definition attr (conf : Fragment) (key : string) : M State (option string) :=
  field key (conf !! key).

(** [d[key]] on a mapping taken by value *)
Definition getitem (d : tensors) (key : string) : M State tensor :=
  match d !! key with
  | Some t => ret t
  | None => raise (KeyError key)
  end.

Definition lift {A} (r : result A) : M State A := λ s, (r, s).

(** **** [WrapperLM] *)

(** [__init__(self, model, enable_grad=config.enable_grad)] *)
Definition init (model : Obj) (enable_grad : bool) : WrapperLM :=
  {| wl_model := model; wl_enable_grad := enable_grad |}.

(** [forward(self, x)]: [return model(x)], where [model] is the variable
    of [predict], not [self.model]. *)
Definition forward (model : Obj) (self : WrapperLM) (x : tensors) : M State tensors :=
  ext (CModel model x) (run_model model x).

(** [predict_step(self, batch, batch_idx, dataloader_idx=0)] *)
Definition predict_step (model : Obj) (self : WrapperLM) (batch : tensors)
    (batch_idx dataloader_idx : Z) : M State tensors :=
  (ext (CSetGradEnabled (wl_enable_grad self))
       (set_grad_enabled (wl_enable_grad self)) ;;;
   results <- forward model self batch ;;
   idx <- getitem batch properties_idx ;;
   idx_m <- getitem batch properties_idx_m ;;
   value <- lift (tensor_index idx idx_m) ;;
   (* results = {k: v.detach().cpu() for k, v in results.items()} *)
   ret (<[properties_idx_m := value]> results))%py.

(** **** [predict(config)] *)

Definition predict (config : Config) : M State unit :=
  (conf <- field "data" (data config) ;;
   datapath <- attr conf "datapath" ;;
   log_info ("Load data from `" ++ fmt datapath ++ "`") ;;;
   dataset <- ext (CInstantiate ["data"] conf []) (instantiate ["data"] conf []) ;;
   size <- field "batch_size" (batch_size config) ;;
   loader <- ext (CAtomsLoader dataset size 8) (atoms_loader dataset size 8) ;;
   model <- ext (CTorchLoad "best_model") (torch_load "best_model") ;;
   (* class WrapperLM: the default of enable_grad is read here *)
   _ <- field "enable_grad" (enable_grad config) ;;
   trainer_conf <- field "trainer" (trainer config) ;;
   target <- attr trainer_conf "_target_" ;;
   log_info ("Instantiating trainer <" ++ fmt target ++ ">") ;;;
   output_dir <- field "outputdir" (outputdir config) ;;
   interval <- field "write_interval" (write_interval config) ;;
   write_idx <- field "write_idx_m" (write_idx_m config) ;;
   writer <- ext (CPredictionWriter output_dir interval write_idx)
                 (prediction_writer output_dir interval write_idx) ;;
   let kwargs := [("callbacks", AObjs [writer]); ("default_root_dir", AStr ".");
                  ("_convert_", AStr "partial")] in
   trainer <- ext (CInstantiate ["trainer"] trainer_conf kwargs)
                  (instantiate ["trainer"] trainer_conf kwargs) ;;
   grad <- field "enable_grad" (enable_grad config) ;;
   ckpt <- field "ckpt_path" (ckpt_path config) ;;
   ext (CTrainerPredict trainer (init model grad) loader ckpt)
       (trainer_predict trainer (init model grad) loader ckpt))%py.

End Predict.

End Predict.

(** ** A concrete set of collaborators, for running the model *)

Module Demo.
Import Cli.
Local Open Scope string_scope.

(** Fresh object identities are drawn from a counter. *)
Definition fresh : M nat Obj := λ n, (Ok (Pos.of_succ_nat n), S n).

Definition base_config : Config :=
  {| top_run_data_dir := None;
     run_data_dir := Value "data"; run_ckpt_path := None; run_id := "run0";
     globals_model_path := Some "best_model";
     data := Some {["_target_" := Some "schnetpack.datasets.QM9";
                    "train_sampler_cls" := None]};
     model := Some {["_target_" := Some "schnetpack.model.NeuralNetworkPotential"]};
     task := Some {["_target_" := Some "schnetpack.AtomisticTask";
                    "scheduler_cls" := None;
                    "optimizer_cls" := Some "torch.optim.AdamW"]};
     trainer := Some {["_target_" := Some "pytorch_lightning.Trainer"]};
     callbacks := Some [("model_checkpoint",
                         {["_target_" := Some "schnetpack.train.ModelCheckpoint"]})];
     logger := None;
     print_config := Some true; matmul_precision := None; seed := None |}.

Definition with_run_id (id : string) (c : Config) : Config :=
  {| top_run_data_dir := top_run_data_dir c;
     run_data_dir := run_data_dir c; run_ckpt_path := run_ckpt_path c; run_id := id;
     globals_model_path := globals_model_path c;
     data := data c; model := model c; task := task c; trainer := trainer c;
     callbacks := callbacks c; logger := logger c;
     print_config := print_config c; matmul_precision := matmul_precision c;
     seed := seed c |}.

(** Collaborators that always succeed, except that the best checkpoint
    loads only when [ckpt_loads] says so. Configurations are written to
    disk as their run identifier. *)
Definition demo_framework (ckpt_loads : bool) : Framework nat :=
  {| gethostname := λ _, "host";
     getcwd := ["work"];
     abspath := λ p, "/work/" ++ p;
     yaml_load := λ text, Some (with_run_id text base_config);
     yaml_save := run_id;
     str_elapsed := λ _ _, "0.5";
     fw_print_config := λ _, ret tt;
     set_float32_matmul_precision := λ _, ret tt;
     seed_everything := λ _, ret tt;
     str2class := λ _, fresh;
     instantiate := λ _ _ _, fresh;
     instantiate_datamodule := λ _ _,
       (o <- fresh ;;
        ret {| dm_id := o; split_file := Some "split.npz"; num_train := None;
               num_test := None; num_val := None |})%py;
     torch_load := λ _, fresh;
     log_hyperparameters := λ _ _ _, ret tt;
     np_load := λ _, ret {["train_idx" := [0; 1; 2]; "val_idx" := [3]; "test_idx" := [4; 5]]};
     time_time := fresh;
     trainer_fit := λ _ _ _, ret tt;
     trainer_test := λ _ _ _, ret tt;
     best_model_path := λ _, ret "checkpoints/best.ckpt";
     load_from_checkpoint := λ _ _,
       if ckpt_loads then fresh else raise (FileNotFoundError "checkpoints/best.ckpt");
     torch_save := λ _ _ w, (Completed "task-snapshot", w);
     save_model := λ _ _ w, (Completed "model-export", w) |}.

(** The same configuration with [run.data_dir] left as [???]. *)
Definition incomplete_config : Config :=
  {| top_run_data_dir := None;
     run_data_dir := Missing; run_ckpt_path := None; run_id := "run0";
     globals_model_path := Some "best_model";
     data := data base_config; model := model base_config;
     task := task base_config; trainer := trainer base_config;
     callbacks := callbacks base_config; logger := None;
     print_config := Some true; matmul_precision := None; seed := None |}.

(** The same configuration without a [model] section. *)
Definition no_model_config : Config :=
  {| top_run_data_dir := None;
     run_data_dir := Value "data"; run_ckpt_path := None; run_id := "run0";
     globals_model_path := Some "best_model";
     data := data base_config; model := None;
     task := task base_config; trainer := trainer base_config;
     callbacks := callbacks base_config; logger := None;
     print_config := Some true; matmul_precision := None; seed := None |}.

Definition start (files : filesystem) (c : Config) : State (W := nat) :=
  {| fs := files; cfg := c; datamodule := None; world := O; trace := [] |}.

(** A working directory with a checkpoint and no [config.yaml]. *)
Definition checkpoint_dir : filesystem :=
  {["checkpoints" := Dir; "checkpoints/last.ckpt" := File "weights"]}.

(** A working directory in which [best_model] is a directory. *)
Definition model_dir : filesystem := {["best_model" := Dir]}.

(** A working directory left by an earlier run: its [config.yaml], and one
    archive, numbered 2. *)
Definition resumed_dir : filesystem :=
  {["config.yaml" := File "run-before"; "config.old.2.yaml" := File "run-long-ago"]}.

(** Collaborators for [predict]: a model that returns one energy per
    molecule and nothing else. *)
Definition demo_collaborators : Predict.Collaborators nat :=
  {| Predict.instantiate := λ _ _ _, fresh;
     Predict.atoms_loader := λ _ _ _, fresh;
     Predict.torch_load := λ _, fresh;
     Predict.prediction_writer := λ _ _ _, fresh;
     Predict.trainer_predict := λ _ _ _ _, ret tt;
     Predict.set_grad_enabled := λ _, ret tt;
     Predict.run_model := λ _ _, ret {["energy" := Predict.TReal [7; 8]%positive]} |}.

Definition predict_config : Predict.Config :=
  {| Predict.data := Some {["_target_" := Some "schnetpack.data.ASEAtomsData";
                            "datapath" := Some "qm9.db"]};
     Predict.batch_size := Some 100;
     Predict.enable_grad := Some false;
     Predict.outputdir := Some "predictions";
     Predict.write_interval := Some "epoch";
     Predict.write_idx_m := Some false;
     Predict.trainer := Some {["_target_" := Some "pytorch_lightning.Trainer"]};
     Predict.ckpt_path := Some None |}.

(** The same configuration without the key [enable_grad]. *)
Definition predict_config_no_grad : Predict.Config :=
  {| Predict.data := Predict.data predict_config;
     Predict.batch_size := Some 100;
     Predict.enable_grad := None;
     Predict.outputdir := Some "predictions";
     Predict.write_interval := Some "epoch";
     Predict.write_idx_m := Some false;
     Predict.trainer := Predict.trainer predict_config;
     Predict.ckpt_path := Some None |}.

(** A batch of two molecules, numbered 41 and 42 in the data set, with
    three and two atoms. *)
Definition predict_batch : Predict.tensors :=
  {["_idx" := Predict.TInt [41; 42];
    "_idx_m" := Predict.TInt [0; 0; 0; 1; -1];
    "_atomic_numbers" := Predict.TInt [8; 1; 1; 1; 1]]}.

Definition predict_start : Predict.State (W := nat) :=
  {| Predict.world := O; Predict.trace := [] |}.

Definition wrapper : Predict.WrapperLM := Predict.init 3%positive false.

End Demo.

(** * Properties *)

(** ** The monad *)

Lemma bind_ok {S A B} (m : M S A) (k : A → M S B) s a s' :
  m s = (Ok a, s') → bind m k s = k a s'.
Proof. unfold bind. by intros ->. Qed.

Lemma bind_raise {S A B} (m : M S A) (k : A → M S B) s e s' :
  m s = (Raise e, s') → bind m k s = (Raise e, s').
Proof. unfold bind. by intros ->. Qed.

(** ** Part I: [ExclusionTransformer.forward] *)

Section ExclusionProperties.

Import Exclusion.

Variable structure_Z : string.

Abbreviation forward := (forward structure_Z).
Abbreviation forward_loop := (forward_loop structure_Z).
Abbreviation forward_step := (forward_step structure_Z).

Abbreviation batch_at := (batch_at structure_Z).

Lemma batch_at_distinct h inputs tz t : batch_at h inputs tz t → inputs ≠ tz.
Proof. intros (entries & Hd & _ & Ht) ->. congruence. Qed.

Lemma batch_at_insert h inputs tz t t' :
  batch_at h inputs tz t → batch_at (<[tz := OTensor t']> h) inputs tz t'.
Proof.
  intros Hb. pose proof (batch_at_distinct _ _ _ _ Hb) as Hne.
  destruct Hb as (entries & Hd & Hz & Ht). exists entries.
  rewrite lookup_insert_ne by done. rewrite lookup_insert_eq. done.
Qed.

(** One masked assignment, as a map over the entries. *)
Lemma masked_assign_fmap (a : Z) (t : list Z) :
  zip_with (λ x (b : bool), if b then 0 else x) t ((λ x, x =? a) <$> t)
  = (λ x, if x =? a then 0 else x) <$> t.
Proof. induction t as [|x t IH]; csimpl; [done | by rewrite IH]. Qed.

Lemma absent_fmap_id (a : Z) (t : list Z) :
  existsb id ((λ x, x =? a) <$> t) = false →
  (λ x, if x =? a then 0 else x) <$> t = t.
Proof.
  induction t as [|x t IH]; csimpl; [done |].
  intros [Hx Ht]%orb_false_iff. unfold id in Hx. rewrite Hx. by rewrite IH.
Qed.

Lemma forward_step_falsy inputs v h :
  truthy v = false → forward_step inputs v h = (Ok tt, h).
Proof. intros Hv. unfold forward_step. by rewrite Hv. Qed.

Lemma getitem_batch h inputs tz t :
  batch_at h inputs tz t → getitem inputs structure_Z h = (Ok tz, h).
Proof. intros (entries & Hd & Hz & _). unfold getitem. by rewrite Hd, Hz. Qed.

Lemma tensor_data_batch h inputs tz t :
  batch_at h inputs tz t → tensor_data tz h = (Ok t, h).
Proof. intros (entries & _ & _ & Ht). unfold tensor_data. by rewrite Ht. Qed.

Lemma tensor_eq_batch h inputs tz t a c :
  batch_at h inputs tz t → int64_scalar a = Ok c →
  tensor_eq tz a h = (Ok ((λ x, x =? c) <$> t), h).
Proof.
  intros Hb Hc. unfold tensor_eq.
  erewrite bind_ok by (by eapply tensor_data_batch).
  unfold bind, of_result. by rewrite Hc.
Qed.

Lemma tensor_eq_overflow h inputs tz t a e :
  batch_at h inputs tz t → int64_scalar a = Raise e →
  tensor_eq tz a h = (Raise e, h).
Proof.
  intros Hb Hc. unfold tensor_eq.
  erewrite bind_ok by (by eapply tensor_data_batch).
  unfold bind, of_result. by rewrite Hc.
Qed.

Lemma tensor_contains_batch h inputs tz t a c :
  batch_at h inputs tz t → int64_scalar a = Ok c →
  tensor_contains a tz h = (Ok (existsb id ((λ x, x =? c) <$> t)), h).
Proof.
  intros Hb Hc. unfold tensor_contains.
  by erewrite bind_ok by (by eapply tensor_eq_batch).
Qed.

Lemma tensor_setitem_mask_batch h inputs tz t c :
  batch_at h inputs tz t →
  tensor_setitem_mask tz ((λ x, x =? c) <$> t) 0 h
  = (Ok tt, <[tz := OTensor ((λ x, if x =? c then 0 else x) <$> t)]> h).
Proof.
  intros Hb. unfold tensor_setitem_mask.
  erewrite bind_ok by (by eapply tensor_data_batch).
  rewrite decide_True by apply length_fmap.
  unfold modify. by rewrite masked_assign_fmap.
Qed.

Lemma truthy_int a : truthy (PyInt a) = negb (a =? 0).
Proof. done. Qed.

(** A truthy entry that torch can read zeroes the entries equal to what
    it is read as. *)
Lemma forward_step_truthy inputs a c h tz t :
  a ≠ 0 → int64_scalar a = Ok c → batch_at h inputs tz t →
  forward_step inputs (PyInt a) h
  = (Ok tt, <[tz := OTensor ((λ x, if x =? c then 0 else x) <$> t)]> h).
Proof.
  intros Ha Hc Hb. unfold Exclusion.forward_step. rewrite truthy_int.
  replace (a =? 0) with false by (symmetry; by apply Z.eqb_neq).
  cbn [negb].
  erewrite bind_ok by (by eapply getitem_batch).
  erewrite bind_ok by (by eapply tensor_contains_batch).
  destruct (existsb id ((λ x, x =? c) <$> t)) eqn:Hfound.
  - erewrite bind_ok by (by eapply getitem_batch).
    erewrite bind_ok by (by eapply getitem_batch).
    erewrite bind_ok by (by eapply tensor_eq_batch).
    by eapply tensor_setitem_mask_batch.
  - rewrite absent_fmap_id by done. unfold ret. f_equal. symmetry.
    apply insert_id. by destruct Hb as (? & _ & _ & ?).
Qed.

(** A truthy entry that torch cannot read raises at the membership
    test, before anything is written. *)
Lemma forward_step_overflow inputs a e h tz t :
  a ≠ 0 → int64_scalar a = Raise e → batch_at h inputs tz t →
  forward_step inputs (PyInt a) h = (Raise e, h).
Proof.
  intros Ha Hc Hb. unfold Exclusion.forward_step. rewrite truthy_int.
  replace (a =? 0) with false by (symmetry; by apply Z.eqb_neq).
  cbn [negb].
  erewrite bind_ok by (by eapply getitem_batch).
  apply bind_raise. unfold tensor_contains. apply bind_raise.
  by eapply tensor_eq_overflow.
Qed.

Lemma zero_targets_cons c cs x :
  zero_targets cs (if x =? c then 0 else x) = zero_targets (c :: cs) x.
Proof.
  unfold zero_targets. cbn [existsb].
  destruct (x =? c); cbn [orb]; [by destruct (existsb _ cs) | done].
Qed.

Lemma zero_targets_idemp cs x :
  zero_targets cs (zero_targets cs x) = zero_targets cs x.
Proof.
  unfold zero_targets. destruct (existsb (Z.eqb x) cs) eqn:Hx.
  - by destruct (existsb (Z.eqb 0) cs).
  - by rewrite Hx.
Qed.

(** The loop on a well-formed batch: the only object it changes is the
    tensor of atomic numbers, where the entries equal to one of its
    targets become zero; it raises when an entry cannot be read, with
    the entries before that one done. *)
Lemma forward_loop_batch atoms : ∀ h inputs tz t,
  batch_at h inputs tz t →
  forward_loop inputs atoms h
  = (from_option Raise (Ok tt) (targets atoms).2,
     <[tz := OTensor (zero_targets (targets atoms).1 <$> t)]> h).
Proof.
  assert (∀ h inputs tz t, batch_at h inputs tz t →
            <[tz := OTensor (zero_targets [] <$> t)]> h = h) as Hnone.
  { intros h inputs tz t (? & _ & _ & Ht). apply insert_id.
    rewrite Ht. do 2 f_equal. symmetry. apply list_fmap_id. }
  induction atoms as [|v atoms IH]; intros h inputs tz t Hb.
  - cbn. unfold ret. f_equal. symmetry. by eapply Hnone.
  - cbn [Exclusion.forward_loop]. destruct v as [|a].
    { erewrite bind_ok by (by apply forward_step_falsy). by apply IH. }
    cbn [targets]. destruct (Z.eqb_spec a 0) as [-> | Ha].
    { erewrite bind_ok by (by apply forward_step_falsy). by apply IH. }
    destruct (int64_scalar a) as [c | e] eqn:Hc.
    + erewrite bind_ok by (by eapply forward_step_truthy).
      erewrite IH by (by eapply batch_at_insert).
      cbn [fst snd]. rewrite insert_insert_eq, <- list_fmap_compose.
      do 3 f_equal. apply list_fmap_ext. intros i x _. cbn.
      apply zero_targets_cons.
    + erewrite bind_raise by (by eapply forward_step_overflow).
      cbn [fst snd from_option]. f_equal. symmetry. by eapply Hnone.
Qed.

(** When every entry fits in 64 bits, the loop reads them all, and its
    targets are what the list excludes. *)
Lemma int64_scalar_fits a : - 2 ^ 63 ≤ a < 2 ^ 63 → int64_scalar a = Ok a.
Proof. intros Ha. unfold int64_scalar. by rewrite decide_True. Qed.

Lemma targets_fits atoms :
  Forall fits_int64 atoms →
  (targets atoms).2 = None
  ∧ ∀ x, zero_targets (targets atoms).1 x = zero_excluded atoms x.
Proof.
  unfold zero_targets, zero_excluded, is_excluded.
  induction 1 as [|v atoms Hv _ [IHe IHx]]; [done |].
  destruct v as [|a]; [done |]. cbn [targets existsb truthy].
  destruct (Z.eqb_spec a 0) as [-> | Ha]; [done |].
  rewrite int64_scalar_fits by done. cbn [fst snd negb andb existsb].
  split; [done |]. intros x. specialize (IHx x).
  destruct (Z.eqb_spec x a) as [-> | Hne].
  - by rewrite bool_decide_eq_true_2.
  - rewrite bool_decide_eq_false_2 by congruence. done.
Qed.

Lemma forward_loop_fits atoms h inputs tz t :
  Forall fits_int64 atoms → batch_at h inputs tz t →
  forward_loop inputs atoms h
  = (Ok tt, <[tz := OTensor (zero_excluded atoms <$> t)]> h).
Proof.
  intros [He Hx]%targets_fits Hb.
  rewrite (forward_loop_batch atoms _ _ _ _ Hb), He. cbn [from_option].
  do 3 f_equal. apply list_fmap_ext. intros i x _. apply Hx.
Qed.

(** Falsy entries do not count. *)
Lemma forward_loop_filter atoms inputs h :
  forward_loop inputs atoms h
  = forward_loop inputs (List.filter truthy atoms) h.
Proof.
  revert h. induction atoms as [|v atoms IH]; intros h; [done |].
  cbn [Exclusion.forward_loop List.filter]. destruct (truthy v) eqn:Hv.
  - cbn [Exclusion.forward_loop]. unfold bind.
    destruct (forward_step inputs v h) as [[[]|e] h']; [apply IH | done].
  - erewrite bind_ok by (by apply forward_step_falsy). apply IH.
Qed.

(** On a store where the batch is not well formed, the first truthy
    entry raises, before anything is written. *)
Lemma forward_step_frame inputs v h :
  (∀ tz t, ¬ batch_at h inputs tz t) →
  ∃ r, forward_step inputs v h = (r, h).
Proof.
  intros Hbad. unfold forward_step.
  destruct (truthy v); [| by eexists].
  destruct v as [|a]; [by eexists |].
  unfold bind at 1. unfold getitem at 1.
  destruct (h !! inputs) as [[entries|]|] eqn:Hd; [| by eexists | by eexists].
  destruct (entries !! structure_Z) as [tz|] eqn:Hz; [| by eexists].
  unfold bind at 1, tensor_contains, bind at 1, tensor_eq, bind at 1, tensor_data.
  destruct (h !! tz) as [[|t]|] eqn:Ht; [by eexists | | by eexists].
  destruct (Hbad tz t). by exists entries.
Qed.

Lemma forward_loop_frame atoms inputs h :
  (∀ tz t, ¬ batch_at h inputs tz t) →
  ∃ r, forward_loop inputs atoms h = (r, h).
Proof.
  intros Hbad. induction atoms as [|v atoms [r IH]]; [by eexists |].
  cbn [Exclusion.forward_loop]. unfold bind.
  destruct (forward_step_frame inputs v h Hbad) as [[[]|e] ->]; by eexists.
Qed.

Lemma batch_at_dec h inputs :
  (∃ tz t, batch_at h inputs tz t) ∨ (∀ tz t, ¬ batch_at h inputs tz t).
Proof.
  destruct (h !! inputs) as [[entries|]|] eqn:Hd.
  - destruct (entries !! structure_Z) as [tz|] eqn:Hz.
    + destruct (h !! tz) as [[|t]|] eqn:Ht.
      * right. intros tz' t' (? & ? & ? & ?). simplify_eq.
      * left. exists tz, t, entries. done.
      * right. intros tz' t' (? & ? & ? & ?). simplify_eq.
    + right. intros tz' t' (? & ? & ? & ?). simplify_eq.
  - right. intros tz' t' (? & ? & ? & ?). simplify_eq.
  - right. intros tz' t' (? & ? & ? & ?). simplify_eq.
Qed.

Lemma is_excluded_spec atoms x :
  is_excluded atoms x = true ↔ ∃ v, v ∈ atoms ∧ truthy v = true ∧ v = PyInt x.
Proof.
  unfold is_excluded. rewrite existsb_exists. split.
  - intros (v & Hin & [Hv Heq]%andb_true_iff). exists v.
    apply bool_decide_eq_true in Heq. by rewrite <- list_elem_of_In in Hin.
  - intros (v & Hin & Hv & ->). exists (PyInt x). rewrite list_elem_of_In in Hin.
    split; [done |]. rewrite Hv. by rewrite bool_decide_eq_true_2.
Qed.

(** C4. On a batch whose mapping holds the atomic numbers, [forward] with
    an exclusion list whose entries fit in 64 bits returns the reference
    it was given, and the store afterwards differs from the one before
    only in the tensor of atomic numbers, where exactly the entries equal
    to a truthy entry of the exclusion list have become zero. *)
Theorem forward_zeroes_excluded (atoms : list pyval) (h : heap)
    (inputs tz : loc) (t : list Z) :
  Forall fits_int64 atoms →
  batch_at h inputs tz t →
  forward (init (Some atoms)) inputs h
  = (Ok inputs, <[tz := OTensor (zero_excluded atoms <$> t)]> h)
  ∧ ∀ x, (zero_excluded atoms x = 0
          ∧ ∃ v, v ∈ atoms ∧ truthy v = true ∧ v = PyInt x)
         ∨ (zero_excluded atoms x = x
            ∧ ¬ ∃ v, v ∈ atoms ∧ truthy v = true ∧ v = PyInt x).
Proof.
  intros Hfits Hb. split.
  - unfold Exclusion.forward, init. cbn [excluded_atoms].
    by erewrite bind_ok by (by apply forward_loop_fits).
  - intros x. unfold zero_excluded.
    destruct (is_excluded atoms x) eqn:Hx.
    + left. split; [done |]. by apply is_excluded_spec.
    + right. split; [done |]. rewrite <- is_excluded_spec. congruence.
Qed.

(** C5. Falsy entries of the exclusion list are passed over: the list
    acts as the list of its truthy entries, and a list of falsy entries
    only ([None] and zero) returns the batch with the store untouched,
    without raising, whatever the store holds. *)
Theorem forward_skips_falsy (atoms : list pyval) (inputs : loc) (h : heap) :
  forward (init (Some atoms)) inputs h
  = forward (init (Some (List.filter truthy atoms))) inputs h
  ∧ (Forall (λ v, v = PyNone ∨ v = PyInt 0) atoms →
     forward (init (Some atoms)) inputs h = (Ok inputs, h)).
Proof.
  split.
  - unfold Exclusion.forward, init. cbn [excluded_atoms]. unfold bind.
    by rewrite forward_loop_filter.
  - intros Hfalsy. unfold Exclusion.forward, init. cbn [excluded_atoms].
    unfold bind. rewrite forward_loop_filter.
    replace (List.filter truthy atoms) with (@nil pyval); [done |].
    induction Hfalsy as [|v atoms [-> | ->] _ IH]; [done | done | done].
Qed.

(** C9. Built with the default argument, the transform raises on every
    batch and leaves the store as it was; a list of falsy entries, on the
    same batch, returns normally. *)
Theorem forward_default_raises (inputs : loc) (h : heap) :
  forward init_default inputs h
  = (Raise (TypeError "'NoneType' object is not iterable"), h)
  ∧ forward (init (Some [PyInt 0; PyNone])) inputs h = (Ok inputs, h).
Proof. done. Qed.

(** C10. Running [forward] again on what [forward] returned changes
    nothing: the second run ends as the first did, in the same store. *)
Theorem forward_idempotent (self : ExclusionTransformer) (inputs : loc) (h : heap) :
  bind (forward self inputs) (forward self) h = forward self inputs h.
Proof.
  destruct self as [[atoms|]]; [| done].
  unfold Exclusion.forward. cbn [excluded_atoms].
  destruct (batch_at_dec h inputs) as [(tz & t & Hb) | Hbad].
  - pose proof (forward_loop_batch atoms _ _ _ _ Hb) as Hrun.
    pose proof (forward_loop_batch atoms _ _ _ _
                  (batch_at_insert _ _ _ _
                     (zero_targets (targets atoms).1 <$> t) Hb)) as Hagain.
    unfold bind, ret. rewrite Hrun.
    destruct ((targets atoms).2) as [e |]; cbn [from_option]; [done |].
    rewrite Hagain. cbn [from_option].
    rewrite insert_insert_eq, <- list_fmap_compose. do 3 f_equal.
    apply list_fmap_ext. intros i x _. apply zero_targets_idemp.
  - destruct (forward_loop_frame atoms inputs h Hbad) as [[[]|e] Hrun].
    + unfold bind, ret. rewrite Hrun. cbv beta iota. by rewrite Hrun.
    + unfold bind. by rewrite Hrun.
Qed.

End ExclusionProperties.

Lemma forward_zeroes_excluded_witness :
  Forall Exclusion.fits_int64 [Exclusion.PyInt 7]
  ∧ Exclusion.batch_at "_atomic_numbers" Exclusion.example_batch 1%positive 2%positive
      [7; 6; 7; 1]
  ∧ Exclusion.forward "_atomic_numbers"
      (Exclusion.init (Some [Exclusion.PyInt 7])) 1%positive Exclusion.example_batch
    = (Ok 1%positive,
       <[2%positive := Exclusion.OTensor [0; 6; 0; 1]]> Exclusion.example_batch).
Proof.
  assert (Forall Exclusion.fits_int64 [Exclusion.PyInt 7]) as Hfits.
  { constructor; [| constructor]. cbn. lia. }
  assert (Exclusion.batch_at "_atomic_numbers" Exclusion.example_batch 1%positive
            2%positive [7; 6; 7; 1])
    as Hb by (eexists; repeat split; reflexivity).
  split; [exact Hfits |]. split; [exact Hb |].
  exact (proj1 (forward_zeroes_excluded "_atomic_numbers"
                  [Exclusion.PyInt 7] Exclusion.example_batch 1%positive 2%positive
                  [7; 6; 7; 1] Hfits Hb)).
Defined.

(** C4, as stated, on exclusion entries outside the 64-bit range. With
    [2^63] excluded, the entry [-2^63] of the tensor is set to zero,
    although it equals no entry of the list. With [7] and [2^64]
    excluded, the sevens are set to zero and then the transform raises
    instead of returning the mapping. *)
Lemma forward_zeroes_counterexample :
  Exclusion.forward "_atomic_numbers"
    (Exclusion.init (Some [Exclusion.PyInt (2 ^ 63)])) 1%positive Exclusion.extreme_batch
  = (Ok 1%positive, <[2%positive := Exclusion.OTensor [0; 6]]> Exclusion.extreme_batch)
  ∧ Exclusion.zero_excluded [Exclusion.PyInt (2 ^ 63)] <$> [- 2 ^ 63; 6] = [- 2 ^ 63; 6]
  ∧ Exclusion.forward "_atomic_numbers"
      (Exclusion.init (Some [Exclusion.PyInt 7; Exclusion.PyInt (2 ^ 64)]))
      1%positive Exclusion.example_batch
    = (Raise OverflowError,
       <[2%positive := Exclusion.OTensor [0; 6; 0; 1]]> Exclusion.example_batch).
Proof. vm_compute. done. Qed.

Lemma forward_skips_falsy_witness :
  Forall (λ v, v = Exclusion.PyNone ∨ v = Exclusion.PyInt 0)
    [Exclusion.PyInt 0; Exclusion.PyNone]
  ∧ Exclusion.forward "_atomic_numbers"
      (Exclusion.init (Some [Exclusion.PyInt 0; Exclusion.PyNone]))
      1%positive Exclusion.example_batch
    = (Ok 1%positive, Exclusion.example_batch).
Proof.
  assert (Forall (λ v, v = Exclusion.PyNone ∨ v = Exclusion.PyInt 0)
            [Exclusion.PyInt 0; Exclusion.PyNone]) as Hf.
  { constructor; [by right |]. constructor; [by left |]. constructor. }
  split; [exact Hf |].
  exact (proj2 (forward_skips_falsy "_atomic_numbers"
                  [Exclusion.PyInt 0; Exclusion.PyNone] 1%positive
                  Exclusion.example_batch) Hf).
Defined.

(** ** Part II: [train] *)

(** *** Archive names *)

Lemma list_ascii_of_string_app (s1 s2 : string) :
  String.list_ascii_of_string (s1 ++ s2)%string
  = String.list_ascii_of_string s1 ++ String.list_ascii_of_string s2.
Proof. induction s1 as [|a s1 IH]; simpl; [done | by rewrite IH]. Qed.

Lemma string_app_inj_r (s1 s2 t : string) : (s1 ++ t = s2 ++ t)%string → s1 = s2.
Proof.
  intros Heq. apply (f_equal String.list_ascii_of_string) in Heq.
  rewrite !list_ascii_of_string_app in Heq. apply app_inv_tail in Heq.
  apply (f_equal String.string_of_list_ascii) in Heq.
  by rewrite !String.string_of_list_ascii_of_string in Heq.
Qed.

Lemma archive_name_inj (n m : nat) : Cli.archive_name n = Cli.archive_name m → n = m.
Proof.
  unfold Cli.archive_name. intros Heq.
  apply (inj (String.app "config.old.")) in Heq.
  apply string_app_inj_r in Heq. by apply (inj pretty) in Heq.
Qed.

Lemma archive_name_not_config (n : nat) : Cli.archive_name n ≠ "config.yaml".
Proof. unfold Cli.archive_name. simpl. discriminate. Qed.

Lemma archive_name_not_ckpt (n : nat) : Cli.archive_name n ≠ "checkpoints/last.ckpt".
Proof. unfold Cli.archive_name. simpl. discriminate. Qed.

(** *** Path names *)

Lemma components_slash_free (p : string) :
  Cli.slash_free p = true → Cli.components p = [p].
Proof.
  unfold Cli.slash_free. induction p as [|c p IH]; [done |].
  cbn [String.list_ascii_of_string forallb Cli.components].
  intros [Hc Hp]%andb_true_iff. apply negb_true_iff in Hc.
  by rewrite Hc, IH.
Qed.

Lemma pretty_N_char_no_slash (x : N) : Cli.is_sep (pretty_N_char x) = false.
Proof. unfold pretty_N_char. by repeat case_match. Qed.

Lemma pretty_N_go_slash_free (x : N) : ∀ s,
  Cli.slash_free s = true → Cli.slash_free (pretty_N_go x s) = true.
Proof.
  induction (N.lt_wf_0 x) as [x _ IH]; intros s Hs.
  destruct (decide (x = 0)%N) as [-> | Hx]; [by rewrite pretty_N_go_0 |].
  rewrite pretty_N_go_step by lia.
  apply IH; [apply N.div_lt; lia |].
  unfold Cli.slash_free in *. cbn [String.list_ascii_of_string forallb].
  by rewrite pretty_N_char_no_slash, Hs.
Qed.

Lemma pretty_nat_slash_free (n : nat) : Cli.slash_free (pretty n) = true.
Proof.
  unfold pretty, pretty_nat, pretty, pretty_N.
  case_decide; [done |]. by apply pretty_N_go_slash_free.
Qed.

Lemma slash_free_app (s1 s2 : string) :
  Cli.slash_free (s1 ++ s2) = Cli.slash_free s1 && Cli.slash_free s2.
Proof. unfold Cli.slash_free. by rewrite list_ascii_of_string_app, forallb_app. Qed.

Lemma archive_name_plain (n : nat) : Cli.plain (Cli.archive_name n).
Proof.
  split.
  - unfold Cli.archive_name. rewrite !slash_free_app, pretty_nat_slash_free. done.
  - unfold Cli.archive_name. repeat split; simpl; discriminate.
Qed.

Lemma config_yaml_plain : Cli.plain "config.yaml".
Proof. split; [done |]. repeat split; discriminate. Qed.

Section PathProperties.

Import Cli.

Variable cwd : list string.

Implicit Types files : filesystem.

Lemma strip_prefix_app (pre l : list string) : strip_prefix pre (pre ++ l) = Some l.
Proof. induction pre as [|x pre IH]; [done |]. cbn. by rewrite decide_True. Qed.

Lemma strip_prefix_refl (l : list string) : strip_prefix l l = Some [].
Proof. rewrite <- (app_nil_r l) at 2. apply strip_prefix_app. Qed.

Lemma strip_prefix_longer (l names : list string) :
  names ≠ [] → strip_prefix (l ++ names) l = None.
Proof.
  intros Hne. induction l as [|x l IH]; [by destruct names |].
  cbn. by rewrite decide_True.
Qed.

Lemma strip_prefix_shorter (l1 l2 l : list string) :
  is_Some (strip_prefix (l1 ++ l2) l) → is_Some (strip_prefix l1 l).
Proof.
  revert l. induction l1 as [|x l1 IH]; intros l; [by eexists |].
  destruct l as [|y l]; cbn; [by intros [? ?] |].
  case_decide; [apply IH | by intros [? ?]].
Qed.

Lemma key_below (names : list string) : key cwd (cwd ++ names) = join_path names.
Proof. unfold key. by rewrite strip_prefix_app. Qed.

Lemma node_at_below files (names : list string) :
  names ≠ [] → node_at cwd files (cwd ++ names) = files !! join_path names.
Proof.
  intros Hne. unfold node_at. rewrite strip_prefix_longer by done.
  rewrite bool_decide_eq_false_2 by (by intros [? ?]). by rewrite key_below.
Qed.

(** The working directory and what lies above it are directories. *)
Lemma dir_chain_from_above files (names above : list string) :
  is_Some (strip_prefix (above ++ names) cwd) →
  dir_chain_from cwd files above names = None.
Proof.
  revert above. induction names as [|name names IH]; intros above Habove; [done |].
  cbn [dir_chain_from]. unfold node_at.
  replace (above ++ name :: names) with ((above ++ [name]) ++ names) in Habove
    by (by rewrite <- app_assoc).
  rewrite bool_decide_eq_true_2 by (by eapply strip_prefix_shorter).
  by apply IH.
Qed.

Lemma dir_chain_cwd files : dir_chain cwd files cwd = None.
Proof.
  apply dir_chain_from_above. cbn. rewrite strip_prefix_refl. by eexists.
Qed.

Lemma walk_names files (names cur : list string) :
  Forall is_name names → walk cwd files cur names = inr (cur ++ names).
Proof.
  intros Hnames. revert cur.
  induction Hnames as [|name names (H1 & H2 & H3) _ IH]; intros cur.
  - by rewrite app_nil_r.
  - cbn [walk]. rewrite !decide_False by done.
    rewrite IH. by rewrite <- app_assoc.
Qed.

Lemma components_first (p name : string) (names : list string) :
  components p = name :: names → name ≠ "" →
  ∃ c rest, p = String c rest ∧ is_sep c = false.
Proof.
  destruct p as [|c rest]; [by intros [= <- _] |].
  cbn [components]. destruct (is_sep c) eqn:Hc; [by intros [= <- _] |].
  intros _ _. by exists c, rest.
Qed.

Lemma locate_names files (p name : string) (names : list string) :
  components p = name :: names → Forall is_name (name :: names) →
  locate cwd files p = inr (cwd ++ name :: names, false).
Proof.
  intros Hp Hnames.
  destruct (components_first p name names Hp) as (c & rest & -> & Hc).
  { by inversion Hnames as [|? ? [? _]]. }
  unfold locate. rewrite Hc, Hp, walk_names by done. do 2 f_equal.
  apply bool_decide_eq_false_2. intros Hlast.
  apply last_Some in Hlast as [l' Hl'].
  rewrite Hl' in Hnames. apply Forall_app in Hnames as [_ Hlast].
  by inversion Hlast as [|? ? [? _]].
Qed.

(** A path made of names leads below the working directory, and exists
    when its key is in use. *)
Lemma exists_in_names files (p name : string) (names : list string) :
  components p = name :: names → Forall is_name (name :: names) →
  exists_in cwd files p = bool_decide (is_Some (files !! join_path (name :: names))).
Proof.
  intros Hp Hnames. unfold exists_in.
  rewrite (locate_names files p name names) by done.
  rewrite node_at_below by done.
  destruct (files !! join_path (name :: names)) as [[|]|]; symmetry;
    first [ by apply bool_decide_eq_true_2
          | apply bool_decide_eq_false_2; by intros [? ?] ].
Qed.

Lemma locate_plain files (name : string) :
  plain name → locate cwd files name = inr (cwd ++ [name], false).
Proof.
  intros [Hfree Hname]. apply locate_names.
  - by apply components_slash_free.
  - by constructor.
Qed.

Lemma exists_in_plain files (name : string) :
  plain name → exists_in cwd files name = bool_decide (is_Some (files !! name)).
Proof.
  intros [Hfree Hname].
  rewrite (exists_in_names files name name []); [done | |].
  - by apply components_slash_free.
  - by constructor.
Qed.

Lemma writable_plain files (name : string) :
  plain name →
  writable cwd files name
  = match files !! name with Some Dir => inl EISDIR | _ => inr name end.
Proof.
  intros Hplain. unfold writable. rewrite locate_plain by done.
  rewrite removelast_last, dir_chain_cwd, node_at_below by done.
  rewrite key_below. cbn [join_path]. by destruct (files !! name) as [[|]|].
Qed.

Lemma readable_plain files (name : string) :
  plain name →
  readable cwd files name
  = match files !! name with
    | Some Dir => inl EISDIR
    | Some (File text) => inr text
    | None => inl ENOENT
    end.
Proof.
  intros Hplain. unfold readable. rewrite locate_plain by done.
  rewrite removelast_last, dir_chain_cwd, node_at_below by done.
  cbn [join_path]. by destruct (files !! name) as [[|]|].
Qed.

(** What is opened for writing is no directory, and what is made is not
    there yet. *)
Lemma node_at_key files (loc : list string) (n : option node) :
  node_at cwd files loc = n → n ≠ Some Dir → files !! key cwd loc = n.
Proof.
  unfold node_at. case_bool_decide; [by intros <- | done].
Qed.

Lemma writable_free files (p k : string) :
  writable cwd files p = inr k → files !! k ≠ Some Dir.
Proof.
  unfold writable. destruct (locate cwd files p) as [|[loc dir_only]]; [done |].
  destruct (dir_chain cwd files (removelast loc)); [done |].
  destruct (node_at cwd files loc) as [[text|]|] eqn:Hnode; [| done |];
    destruct dir_only; try done; intros [= <-];
    by rewrite (node_at_key _ _ _ Hnode).
Qed.

Lemma mkdir_key_free files (p k : string) :
  mkdir_key cwd files p = inr k → files !! k = None.
Proof.
  unfold mkdir_key. destruct (locate cwd files p) as [|[loc dir_only]]; [done |].
  destruct (dir_chain cwd files (removelast loc)); [done |].
  destruct (node_at cwd files loc) as [|] eqn:Hnode; [done |].
  intros [= <-]. by rewrite (node_at_key _ _ _ Hnode).
Qed.

End PathProperties.

(** *** [os.makedirs] comes to an end *)

Lemma take_drop_while_length {A} (f : A → bool) (l : list A) :
  (length (Cli.take_while f l) + length (Cli.drop_while f l) = length l)%nat.
Proof.
  induction l as [|x l IH]; [done |]. cbn. destruct (f x); cbn; lia.
Qed.

Lemma drop_while_length {A} (f : A → bool) (l : list A) :
  (length (Cli.drop_while f l) ≤ length l)%nat.
Proof.
  induction l as [|x l IH]; [done |]. cbn. destruct (f x); cbn; lia.
Qed.

Lemma string_of_list_length (l : list Ascii.ascii) :
  String.length (String.string_of_list_ascii l) = length l.
Proof. induction l as [|c l IH]; [done |]. cbn. by rewrite IH. Qed.

Lemma list_of_string_length (p : string) :
  length (String.list_ascii_of_string p) = String.length p.
Proof. induction p as [|c p IH]; [done |]. cbn. by rewrite IH. Qed.

Lemma path_split_length (p : string) :
  (String.length (Cli.path_split p).1 + String.length (Cli.path_split p).2
   ≤ String.length p)%nat.
Proof.
  unfold Cli.path_split. cbn [fst snd].
  rewrite !string_of_list_length, !length_rev.
  pose proof (take_drop_while_length (λ c, negb (Cli.is_sep c))
                (rev (String.list_ascii_of_string p))) as Hsum.
  rewrite length_rev, list_of_string_length in Hsum.
  destruct (forallb _ _); [lia |].
  pose proof (drop_while_length Cli.is_sep
                (Cli.drop_while (λ c, negb (Cli.is_sep c))
                   (rev (String.list_ascii_of_string p)))).
  lia.
Qed.

Lemma string_length_empty (p : string) : p ≠ ""%string → (0 < String.length p)%nat.
Proof. destruct p; [done |]. cbn. lia. Qed.

(** Every recursive call is on a shorter name, so the calls come to an
    end before the fuel does. *)
Lemma makedirs_from_total (cwd : list string) (fuel : nat) :
  ∀ (name : string) (files : Cli.filesystem),
    (String.length name < fuel)%nat →
    is_Some (Cli.makedirs_from cwd fuel name files).
Proof.
  induction fuel as [|fuel IH]; intros name files Hfuel; [lia |].
  cbn [Cli.makedirs_from].
  pose proof (path_split_length name) as Hlen.
  destruct (Cli.path_split name) as [head tail]. cbn [fst snd] in Hlen.
  assert (∃ head' tail',
            (if bool_decide (tail = ""%string) then Cli.path_split head else (head, tail))
            = (head', tail')
            ∧ (String.length head' + String.length tail' ≤ String.length name)%nat)
    as (head' & tail' & -> & Hlen').
  { case_bool_decide.
    - pose proof (path_split_length head) as Hlen2.
      destruct (Cli.path_split head) as [head' tail']. cbn [fst snd] in Hlen2.
      exists head', tail'. split; [done | lia].
    - by exists head, tail. }
  destruct (bool_decide (head' = ""%string)); cbn [negb andb]; [by eexists |].
  destruct (bool_decide (tail' = ""%string)) eqn:Htail; cbn [negb andb]; [by eexists |].
  destruct (Cli.exists_in cwd files head'); cbn [negb]; [by eexists |].
  apply bool_decide_eq_false, string_length_empty in Htail.
  destruct (IH head' files ltac:(lia)) as [[r files1] ->].
  destruct (bool_decide (r = None) || Cli.is_eexist r); [| by eexists].
  destruct (bool_decide (tail' = "."%string)); by eexists.
Qed.

(** *** The archive counter *)

Lemma first_free_delete (files : Cli.filesystem) (fuel : nat) : ∀ count k,
  (k < count)%nat →
  Cli.first_free (delete (Cli.archive_name k) files) fuel count
  = Cli.first_free files fuel count.
Proof.
  induction fuel as [|fuel IH]; intros count k Hk; cbn [Cli.first_free].
  - rewrite lookup_delete_ne; [done |]. intros ?%archive_name_inj. lia.
  - rewrite lookup_delete_ne by (intros ?%archive_name_inj; lia).
    destruct (files !! Cli.archive_name count); [| done]. apply IH. lia.
Qed.

(** The loop ends: a directory of [size files] entries cannot hold the
    [size files + 1] different names the counter would have to pass. *)
Lemma first_free_total (fuel : nat) : ∀ (files : Cli.filesystem) count,
  (size files ≤ fuel)%nat → is_Some (Cli.first_free files fuel count).
Proof.
  induction fuel as [|fuel IH]; intros files count Hsize; cbn [Cli.first_free].
  - destruct (files !! Cli.archive_name count) eqn:Hl; [| by eexists].
    assert (size files = 0%nat) as ->%map_size_empty_inv by lia.
    by rewrite lookup_empty in Hl.
  - destruct (files !! Cli.archive_name count) eqn:Hl; [| by eexists].
    rewrite <- (first_free_delete files fuel (S count) count) by lia.
    apply IH.
    pose proof (map_size_delete_Some (Cli.archive_name count) files
                  (mk_is_Some _ _ Hl)) as Hdel.
    lia.
Qed.

(** What it ends with: the first index from [count] on whose name is free. *)
Lemma first_free_least (files : Cli.filesystem) (fuel : nat) : ∀ count n,
  Cli.first_free files fuel count = Some n →
  (count ≤ n)%nat
  ∧ files !! Cli.archive_name n = None
  ∧ ∀ k, (count ≤ k < n)%nat → is_Some (files !! Cli.archive_name k).
Proof.
  induction fuel as [|fuel IH]; intros count n; cbn [Cli.first_free].
  - destruct (files !! Cli.archive_name count) eqn:Hl; [done |].
    intros [= <-]. repeat split; [done | done | lia].
  - destruct (files !! Cli.archive_name count) eqn:Hl.
    + intros (Hle & Hfree & Hused)%IH. repeat split; [lia | done |].
      intros k Hk. destruct (decide (k = count)) as [-> | Hne]; [by eexists |].
      apply Hused. lia.
    + intros [= <-]. repeat split; [done | done | lia].
Qed.

Section CliProperties.

Import Cli.

Context {W : Type} `{!Framework W}.

Implicit Types s : State (W := W).

Lemma train_complete s :
  complete (cfg s) →
  train s = bind train_config_file (λ _, train_run) (greeted s).
Proof.
  intros (Hdir & Hmodel & Hdata). unfold train.
  cbv [bind print log_info gets modify]. cbn [cfg emit world].
  rewrite Hdir. rewrite !bool_decide_eq_true_2 by done. done.
Qed.

(** Lines 45-62 on a configuration that fails one of the two checks:
    the banner, the host name, the error, and the return. *)
Lemma train_incomplete_run s :
  is_missing_data_dir (cfg s) = true ∨ model (cfg s) = None ∨ data (cfg s) = None →
  ∃ msg, train s = (Ok tt, emit (EvLog ERROR msg) (greeted s)).
Proof.
  intros Hbad. unfold train.
  cbv [bind print log_info log_error gets modify]. cbn [cfg emit world].
  destruct (is_missing_data_dir (cfg s)) eqn:Hdir; [by eexists |].
  destruct Hbad as [? | [Hm | Hd]]; [done | |].
  - rewrite Hm. rewrite (bool_decide_eq_false_2 (is_Some None)) by (by intros [? ?]).
    by eexists.
  - rewrite Hd. rewrite (bool_decide_eq_false_2 (is_Some None)) by (by intros [? ?]).
    rewrite andb_false_r. by eexists.
Qed.

(** X19. When the check of line 48 fires (the configuration has a
    top-level key spelled [run.data_dir] whose value is [???]), or the
    configuration lacks a [data] or a [model] section, [train] returns
    normally; the working directory, the configuration, the data module
    and the collaborators are as before, and all the run has done is
    print the banner and log two lines, the second one the error. *)
Theorem train_incomplete_returns s :
  is_missing_data_dir (cfg s) = true ∨ model (cfg s) = None ∨ data (cfg s) = None →
  (train s).1 = Ok tt
  ∧ fs (train s).2 = fs s
  ∧ cfg (train s).2 = cfg s
  ∧ datamodule (train s).2 = datamodule s
  ∧ world (train s).2 = world s
  ∧ ∃ host msg,
      trace (train s).2
      = trace s ++ [EvPrint header; EvLog INFO host; EvLog ERROR msg].
Proof.
  intros Hbad. destruct (train_incomplete_run s Hbad) as [msg ->].
  cbn [fst snd]. unfold greeted.
  cbn [fs cfg datamodule world trace emit].
  split; [done |]. split; [done |]. split; [done |].
  split; [done |]. split; [done |].
  eexists _, msg. by rewrite <- !app_assoc.
Qed.

Ltac simpl_state :=
  unfold emit, set_fs, set_cfg, set_datamodule, set_world;
  cbn [fs cfg datamodule world trace set_ckpt_path run_ckpt_path].

(** How the primitives run. *)
Lemma log_info_run msg s : log_info msg s = (Ok tt, emit (EvLog INFO msg) s).
Proof. done. Qed.

Lemma path_exists_run path s :
  plain path →
  path_exists path s = (Ok (bool_decide (is_Some (fs s !! path))), s).
Proof.
  intros Hplain. unfold path_exists, gets. by rewrite exists_in_plain.
Qed.

Lemma path_exists_last_ckpt s :
  path_exists "checkpoints/last.ckpt" s
  = (Ok (bool_decide (is_Some (fs s !! "checkpoints/last.ckpt"))), s).
Proof.
  unfold path_exists, gets.
  rewrite (exists_in_names _ _ _ "checkpoints" ["last.ckpt"]); [done | done |].
  repeat constructor; discriminate.
Qed.

Lemma gets_run {A} (f : State → A) s : gets f s = (Ok (f s), s).
Proof. done. Qed.

Lemma omegaconf_load_file path text c s :
  plain path →
  fs s !! path = Some (File text) → yaml_load text = Some c →
  omegaconf_load path s = (Ok c, s).
Proof.
  intros Hplain Hf Hl. unfold omegaconf_load.
  by rewrite readable_plain, Hf, Hl.
Qed.

Lemma next_archive_index_run n s :
  first_free (fs s) (size (fs s)) 1 = Some n → next_archive_index s = (Ok n, s).
Proof. intros Hn. unfold next_archive_index. by rewrite Hn. Qed.

Lemma write_file_new path text s :
  plain path →
  fs s !! path = None →
  write_file path text s = (Ok tt, set_fs (<[path := File text]>) s).
Proof.
  intros Hplain Hf. unfold write_file. by rewrite writable_plain, Hf.
Qed.

Lemma write_file_over path text old s :
  plain path →
  fs s !! path = Some (File old) →
  write_file path text s = (Ok tt, set_fs (<[path := File text]>) s).
Proof.
  intros Hplain Hf. unfold write_file. by rewrite writable_plain, Hf.
Qed.

(** Lines 64-86 on a directory that holds a readable [config.yaml]. *)
Lemma train_config_file_resume s text old :
  fs s !! "config.yaml" = Some (File text) →
  yaml_load text = Some old →
  ∃ n t,
    first_free (fs s) (size (fs s)) 1 = Some n
    ∧ Forall (λ e, is_output e = true) t
    ∧ train_config_file s
      = (Ok tt, {| fs := <[archive_name n := File (yaml_save old)]> (fs s);
                   cfg := resume_cfg (fs s) (cfg s);
                   datamodule := datamodule s;
                   world := world s;
                   trace := trace s ++ t |}).
Proof.
  intros Hfile Hload.
  destruct (first_free_total (size (fs s)) (fs s) 1 ltac:(done)) as [n Hn].
  pose proof (first_free_least _ _ _ _ Hn) as (_ & Hfree & _).
  exists n. unfold train_config_file.
  erewrite bind_ok by apply path_exists_run, config_yaml_plain.
  rewrite bool_decide_eq_true_2 by (by eexists).
  unfold train_resume.
  erewrite bind_ok by apply log_info_run.
  erewrite bind_ok by (by eapply omegaconf_load_file; [apply config_yaml_plain | |]).
  erewrite bind_ok by (by apply next_archive_index_run).
  erewrite bind_ok by (by apply write_file_new; [apply archive_name_plain |]).
  erewrite bind_ok by apply gets_run.
  simpl_state. unfold resume_cfg.
  destruct (run_ckpt_path (cfg s)) as [ckpt|] eqn:Hckpt.
  - erewrite bind_ok by done. erewrite bind_ok by apply gets_run.
    simpl_state. rewrite Hckpt. rewrite log_info_run. simpl_state.
    eexists. split; [done |]. split; [| by rewrite <- app_assoc].
    by repeat constructor.
  - unfold bind at 1. unfold bind at 1. rewrite path_exists_last_ckpt. simpl_state.
    rewrite lookup_insert_ne by apply archive_name_not_ckpt.
    destruct (bool_decide (is_Some (fs s !! "checkpoints/last.ckpt"))).
    + unfold modify. erewrite bind_ok by apply gets_run. simpl_state.
      rewrite log_info_run. simpl_state.
      eexists. split; [done |]. split; [| by rewrite <- app_assoc].
      by repeat constructor.
    + unfold ret at 1. erewrite bind_ok by apply gets_run. simpl_state.
      rewrite Hckpt.
      eexists. split; [done |]. split; [| done].
      by repeat constructor.
Qed.

End CliProperties.

(** *** What a run leaves alone *)

Section Frames.

Import Cli.

Context {W : Type} `{!Framework W}.

Implicit Types s : State (W := W).

(** [R] relates a store to the stores reachable from it by steps that
    record allowed events only. *)
Variable R : State (W := W) → State (W := W) → Prop.
Variable allowed : Event → Prop.

Hypothesis R_refl : ∀ s, R s s.
Hypothesis R_trans : ∀ s1 s2 s3, R s1 s2 → R s2 s3 → R s1 s3.
Hypothesis R_write : ∀ path text s,
  fs s !! path ≠ Some Dir → R s (set_fs (<[path := File text]>) s).
Hypothesis R_mkdir : ∀ path s,
  fs s !! path = None → R s (set_fs (<[path := Dir]>) s).
Hypothesis R_world : ∀ w s, R s (set_world w s).
Hypothesis R_dm : ∀ d s, R s (set_datamodule (Some d) s).
Hypothesis R_emit : ∀ e s, allowed e → R s (emit e s).

Lemma frames_ret {A} (a : A) : frames R (ret a).
Proof. intros s. apply R_refl. Qed.

Lemma frames_raise {A} e : frames R (raise (A := A) e).
Proof. intros s. apply R_refl. Qed.

Lemma frames_gets {A} (f : State → A) : frames R (gets f).
Proof. intros s. apply R_refl. Qed.

Lemma frames_bind {A B} (m : M State A) (k : A → M State B) :
  frames R m → (∀ a, frames R (k a)) → frames R (bind m k).
Proof.
  intros Hm Hk s. unfold bind. specialize (Hm s).
  destruct (m s) as [[a|e] s1]; [| done].
  eapply R_trans; [exact Hm | apply Hk].
Qed.

Lemma frames_emit e : allowed e → frames R (modify (emit e)).
Proof. intros He s. by apply R_emit. Qed.

Lemma frames_print text : allowed (EvPrint text) → frames R (print text).
Proof. apply frames_emit. Qed.

Lemma frames_log_info msg : allowed (EvLog INFO msg) → frames R (log_info msg).
Proof. apply frames_emit. Qed.

Lemma frames_log_error msg : allowed (EvLog ERROR msg) → frames R (log_error msg).
Proof. apply frames_emit. Qed.

Lemma frames_ext {A} c (f : M W A) : allowed (EvCall c) → frames R (ext c f).
Proof.
  intros Hc s. unfold ext. destruct (f (world (emit (EvCall c) s))) as [r w].
  eapply R_trans; [by apply R_emit | apply R_world].
Qed.

Lemma frames_path_exists path : frames R (path_exists path).
Proof. apply frames_gets. Qed.

Lemma frames_omegaconf_load path : frames R (omegaconf_load path).
Proof.
  intros s. unfold omegaconf_load.
  destruct (readable getcwd (fs s) path) as [e | text]; [apply R_refl |].
  destruct (yaml_load text); apply R_refl.
Qed.

Lemma frames_write_file path text : frames R (write_file path text).
Proof.
  intros s. unfold write_file.
  destruct (writable getcwd (fs s) path) as [e | k] eqn:Hk; [apply R_refl |].
  apply R_write. by eapply writable_free.
Qed.

(** [os.makedirs] makes directories where there was nothing, one at a
    time, also when it raises in the end. *)
Lemma frames_same_fs s : R s (set_fs (λ _, fs s) s).
Proof. destruct s. apply R_refl. Qed.

Lemma frames_mkdir name s files r files' :
  R s (set_fs (λ _, files) s) →
  mkdir getcwd name files = (r, files') →
  R s (set_fs (λ _, files') s).
Proof.
  intros Hfiles. unfold mkdir.
  destruct (mkdir_key getcwd files name) as [e | k] eqn:Hk; intros [= <- <-]; [done |].
  eapply R_trans; [exact Hfiles |].
  apply (R_mkdir k (set_fs (λ _, files) s)). by eapply mkdir_key_free.
Qed.

Lemma frames_makedirs_from fuel : ∀ name s r files',
  makedirs_from getcwd fuel name (fs s) = Some (r, files') →
  R s (set_fs (λ _, files') s).
Proof.
  induction fuel as [|fuel IH]; intros name s r files'; [done |].
  cbn [makedirs_from].
  destruct (path_split name) as [head tail].
  destruct (if bool_decide (tail = "") then path_split head else (head, tail))
    as [head' tail'].
  destruct (negb (bool_decide (head' = "")) && negb (bool_decide (tail' = ""))
            && negb (exists_in getcwd (fs s) head')).
  - destruct (makedirs_from getcwd fuel head' (fs s)) as [[r1 files1]|] eqn:Hhead;
      [| done].
    apply IH in Hhead.
    destruct (bool_decide (r1 = None) || is_eexist r1).
    + destruct (bool_decide (tail' = ".")).
      * by intros [= <- <-].
      * intros [= Hmk]. by eapply frames_mkdir.
    + by intros [= <- <-].
  - intros [= Hmk]. eapply frames_mkdir; [apply frames_same_fs | done].
Qed.

Lemma frames_makedirs path : frames R (makedirs path).
Proof.
  intros s. unfold makedirs.
  destruct (makedirs_from getcwd (S (String.length path)) path (fs s))
    as [[[[e name]|] files]|] eqn:Hrun; cbn [snd];
    first [ by eapply frames_makedirs_from | apply R_refl ].
Qed.

Lemma frames_save_to c save path : allowed (EvCall c) → frames R (save_to c save path).
Proof.
  intros Hc s. unfold save_to. cbv zeta.
  pose proof (R_emit (EvCall c) s Hc) as Hemit.
  destruct (save (world (emit (EvCall c) s))) as [[e | bytes e | bytes] w];
    cbn [snd].
  - eapply R_trans; [exact Hemit | apply R_world].
  - destruct (writable getcwd (fs (emit (EvCall c) s)) path) as [? | k] eqn:Hk;
      cbn [snd]; [done |].
    eapply R_trans; [exact Hemit |]. eapply R_trans; [apply R_world |].
    apply R_write. by eapply writable_free.
  - destruct (writable getcwd (fs (emit (EvCall c) s)) path) as [? | k] eqn:Hk;
      cbn [snd]; [done |].
    eapply R_trans; [exact Hemit |]. eapply R_trans; [apply R_world |].
    apply R_write. by eapply writable_free.
Qed.

Lemma frames_next_archive_index : frames R next_archive_index.
Proof.
  intros s. unfold next_archive_index.
  destruct (first_free _ _ _); apply R_refl.
Qed.

Lemma frames_attr conf key : frames R (attr conf key).
Proof. unfold attr. destruct (conf !! key); [apply frames_ret | apply frames_raise]. Qed.

Lemma frames_npz_len s_file key : frames R (npz_len s_file key).
Proof.
  unfold npz_len. destruct (s_file !! key); [apply frames_ret | apply frames_raise].
Qed.

Lemma frames_get_datamodule : frames R get_datamodule.
Proof. intros s. unfold get_datamodule. destruct (datamodule s); apply R_refl. Qed.

Lemma frames_set_datamodule d : frames R (modify (set_datamodule (Some d))).
Proof. intros s. apply R_dm. Qed.

Lemma frames_set_attr a v upd : allowed (EvSetAttr a v) → frames R (set_attr a v upd).
Proof.
  intros Ha s. unfold set_attr. destruct (datamodule s); [| apply R_refl].
  eapply R_trans; [apply R_dm | by apply R_emit].
Qed.

(** One step of a syntax-directed proof that a block is framed by [R];
    what is left are the events that have to be allowed. *)
Ltac frames_step :=
  first
    [ apply frames_ret | apply frames_raise | apply frames_gets
    | apply frames_path_exists | apply frames_omegaconf_load
    | apply frames_write_file | apply frames_makedirs
    | apply frames_next_archive_index | apply frames_attr | apply frames_npz_len
    | apply frames_get_datamodule | apply frames_set_datamodule
    | apply frames_print | apply frames_log_info | apply frames_log_error
    | apply frames_ext | apply frames_save_to | apply frames_set_attr
    | apply frames_bind; [| intros ?]
    | match goal with
      | |- frames _ (match ?x with _ => _ end) => destruct x
      | |- frames _ (let _ := _ in _) => cbv zeta
      end ].

Ltac frames_auto := repeat frames_step.

Lemma frames_section name get_section : frames R (section name get_section).
Proof. unfold section. frames_auto. Qed.

Lemma frames_cfg_data_dir : frames R cfg_data_dir.
Proof. unfold cfg_data_dir. frames_auto. Qed.

Lemma frames_cfg_model_path : frames R cfg_model_path.
Proof. unfold cfg_model_path. frames_auto. Qed.

Hypothesis allowed_output : ∀ e, is_output e = true → allowed e.

(** Lines 91-179 *)
Section FramesSetup.
Hypothesis allowed_setup : ∀ e, setup_event e = true → allowed e.

Lemma frames_optional_class name : frames R (optional_class name).
Proof. unfold optional_class. frames_auto. by apply allowed_setup. Qed.

Lemma frames_train_options : frames R train_options.
Proof.
  unfold train_options. frames_auto;
    first [ apply frames_cfg_data_dir | by apply allowed_setup
          | by apply allowed_output ].
Qed.

Lemma frames_init_datamodule : frames R init_datamodule.
Proof.
  unfold init_datamodule. frames_auto;
    first [ apply frames_section | apply frames_optional_class
          | by apply allowed_setup | by apply allowed_output ].
Qed.

Lemma frames_init_model : frames R init_model.
Proof.
  unfold init_model. frames_auto;
    first [ apply frames_section | by apply allowed_setup
          | by apply allowed_output ].
Qed.

Lemma frames_init_task model : frames R (init_task model).
Proof.
  unfold init_task. frames_auto;
    first [ apply frames_section | apply frames_optional_class
          | by apply allowed_setup | by apply allowed_output ].
Qed.

Lemma frames_instantiate_targets group kind items :
  group ≠ "model"%string →
  frames R (instantiate_targets group kind items).
Proof.
  intros Hgroup. induction items as [|[name conf] items IH]; cbn [instantiate_targets].
  - apply frames_ret.
  - destruct (conf !! "_target_"%string); [| exact IH].
    frames_auto; [by apply allowed_output | | exact IH].
    apply allowed_setup. cbn. apply negb_true_iff, bool_decide_eq_false_2.
    congruence.
Qed.

Lemma frames_init_callbacks : frames R init_callbacks.
Proof.
  unfold init_callbacks. frames_auto. by apply frames_instantiate_targets.
Qed.

Lemma frames_init_loggers : frames R init_loggers.
Proof.
  unfold init_loggers. frames_auto. by apply frames_instantiate_targets.
Qed.

Lemma frames_init_trainer callbacks logger : frames R (init_trainer callbacks logger).
Proof.
  unfold init_trainer. frames_auto;
    first [ apply frames_section | by apply allowed_setup
          | by apply allowed_output ].
Qed.

Lemma frames_init_hyperparameters task trainer :
  frames R (init_hyperparameters task trainer).
Proof.
  unfold init_hyperparameters. frames_auto;
    first [ by apply allowed_setup | by apply allowed_output ].
Qed.
End FramesSetup.

(** Lines 183-288 *)
Section FramesSweep.
Hypothesis allowed_sweep : ∀ e, sweep_event e = true → allowed e.

Lemma frames_swap_partition path : frames R (swap_partition path).
Proof. unfold swap_partition. frames_auto; by apply allowed_sweep. Qed.

Lemma frames_timed_test trainer task label : frames R (timed_test trainer task label).
Proof.
  unfold timed_test. frames_auto;
    first [ by apply allowed_sweep | by apply allowed_output ].
Qed.

Lemma frames_train_sweep trainer task : frames R (train_sweep trainer task).
Proof.
  unfold train_sweep.
  repeat first [ apply frames_swap_partition | apply frames_timed_test
               | apply frames_bind; [| intros ?]
               | apply frames_log_info; by apply allowed_output ].
Qed.
End FramesSweep.

(** Lines 322-331 *)
Section FramesBestModel.
Hypothesis allowed_export : ∀ e, export_event e = true → allowed e.

Lemma frames_store_best_model trainer task : frames R (store_best_model trainer task).
Proof.
  unfold store_best_model. frames_auto;
    first [ apply frames_cfg_model_path | by apply allowed_export
          | by apply allowed_output ].
Qed.
End FramesBestModel.

Hypothesis allowed_train : ∀ e, train_event e = true → allowed e.

Lemma allowed_of_setup e : setup_event e = true → allowed e.
Proof. intros He. apply allowed_train. unfold train_event. by rewrite He. Qed.

Lemma allowed_of_sweep e : sweep_event e = true → allowed e.
Proof.
  intros He. apply allowed_train. unfold train_event. rewrite He.
  by rewrite orb_true_r.
Qed.

Lemma allowed_of_export e : export_event e = true → allowed e.
Proof.
  intros He. apply allowed_train. unfold train_event. rewrite He.
  by rewrite orb_true_r.
Qed.

Lemma frames_train_run : frames R train_run.
Proof.
  unfold train_run.
  repeat first
    [ apply (frames_train_options allowed_of_setup)
    | apply (frames_init_datamodule allowed_of_setup)
    | apply (frames_init_model allowed_of_setup)
    | apply (frames_init_task allowed_of_setup)
    | apply (frames_init_callbacks allowed_of_setup)
    | apply (frames_init_loggers allowed_of_setup)
    | apply (frames_init_trainer allowed_of_setup)
    | apply (frames_init_hyperparameters allowed_of_setup)
    | apply (frames_train_sweep allowed_of_sweep)
    | apply (frames_store_best_model allowed_of_export)
    | apply frames_bind; [| intros ?] ].
Qed.

Hypothesis R_cfg : ∀ s,
  R s (set_cfg (set_ckpt_path (Some "checkpoints/last.ckpt"%string)) s).

Lemma frames_train_config_file : frames R train_config_file.
Proof.
  unfold train_config_file, train_resume, train_fresh.
  frames_auto; try (by apply allowed_output).
  intros s. apply R_cfg.
Qed.

Lemma frames_train : frames R train.
Proof.
  unfold train.
  repeat first [ apply frames_train_config_file | apply frames_train_run
               | frames_step ];
    by apply allowed_output.
Qed.

End Frames.

(** *** The evaluation passes *)

Section SweepProperties.

Import Cli.

Context {W : Type} `{!Framework W}.

Implicit Types s : State (W := W).

Variables trainer task dm : Obj.

Lemma sweep_shape_exists paths : ∃ full, sweep_shape trainer task dm paths full.
Proof.
  induction paths as [|path paths [full IH]].
  - eexists. constructor.
  - eexists. by apply (sweep_pass _ _ _ path paths 0 0 0).
Qed.

Abbreviation sweeps := (sweeps (W := W) trainer task dm).
Abbreviation tests_then := (tests_then (W := W) trainer task dm).

Lemma set_attr_run a v upd s d :
  datamodule s = Some d →
  set_attr a v upd s = (Ok tt, emit (EvSetAttr a v) (set_datamodule (Some (upd d)) s)).
Proof. intros Hd. unfold set_attr. by rewrite Hd. Qed.

Lemma get_datamodule_run s d :
  datamodule s = Some d → get_datamodule s = (Ok d, s).
Proof. intros Hd. unfold get_datamodule. by rewrite Hd. Qed.

Lemma ext_run {A} c (f : M W A) s :
  ext c f s = ((f (world s)).1, set_world (f (world s)).2 (emit (EvCall c) s)).
Proof. unfold ext. cbn [world emit]. by destruct (f (world s)). Qed.

Ltac simpl_state :=
  cbn [fs cfg datamodule world trace fst snd
       emit set_fs set_cfg set_datamodule set_world].

(** The five lines that open a pass: the assignments come in the order
    split file, [num_train], [num_test], [num_val]; if they all happen
    the data module is left as they say. *)
Lemma swap_partition_run path s d :
  datamodule s = Some d →
  ∃ t n1 n2 n3,
    trace (swap_partition path s).2 = trace s ++ t
    ∧ List.filter is_sweep_step t `prefix_of` pass_assigns path n1 n2 n3
    ∧ ((swap_partition path s).1 = Ok tt →
       List.filter is_sweep_step t = pass_assigns path n1 n2 n3
       ∧ datamodule (swap_partition path s).2
         = Some (pass_dm (dm_id d) path n1 n2 n3)).
Proof.
  intros Hd. destruct (swap_partition path s) as [r s'] eqn:Hrun.
  cbn [fst snd]. unfold swap_partition in Hrun.
  erewrite bind_ok in Hrun by (by apply set_attr_run).
  erewrite bind_ok in Hrun by (by apply get_datamodule_run).
  cbn [split_file with_split_file] in Hrun.
  unfold bind at 1 in Hrun. rewrite ext_run in Hrun.
  destruct (np_load path _) as [[s_file|e] w]; cbn [fst snd] in Hrun; cycle 1.
  { injection Hrun as <- <-.
    exists [EvSetAttr "split_file" (VStr path); EvCall (CNpLoad path)], 0%nat, 0%nat, 0%nat.
    simpl_state. rewrite <- app_assoc. split; [done |]. split; [| done].
    by eexists. }
  unfold npz_len at 1 in Hrun.
  destruct (s_file !! "train_idx"%string) as [train_idx|]; cycle 1.
  { injection Hrun as <- <-.
    exists [EvSetAttr "split_file" (VStr path); EvCall (CNpLoad path)], 0%nat, 0%nat, 0%nat.
    simpl_state. rewrite <- app_assoc. split; [done |]. split; [| done].
    by eexists. }
  erewrite bind_ok in Hrun by done.
  erewrite bind_ok in Hrun by (by apply set_attr_run).
  unfold npz_len at 1 in Hrun.
  destruct (s_file !! "test_idx"%string) as [test_idx|]; cycle 1.
  { injection Hrun as <- <-.
    exists [EvSetAttr "split_file" (VStr path); EvCall (CNpLoad path);
            EvSetAttr "num_train" (VLen (length train_idx))],
           (length train_idx), 0%nat, 0%nat.
    simpl_state. rewrite <- !app_assoc. split; [done |]. split; [| done].
    by eexists. }
  erewrite bind_ok in Hrun by done.
  erewrite bind_ok in Hrun by (by apply set_attr_run).
  unfold npz_len at 1 in Hrun.
  destruct (s_file !! "val_idx"%string) as [val_idx|]; cycle 1.
  { injection Hrun as <- <-.
    exists [EvSetAttr "split_file" (VStr path); EvCall (CNpLoad path);
            EvSetAttr "num_train" (VLen (length train_idx));
            EvSetAttr "num_test" (VLen (length test_idx))],
           (length train_idx), (length test_idx), 0%nat.
    simpl_state. rewrite <- !app_assoc. split; [done |]. split; [| done].
    by eexists. }
  erewrite bind_ok in Hrun by done.
  erewrite set_attr_run in Hrun by done.
  injection Hrun as <- <-.
  exists [EvSetAttr "split_file" (VStr path); EvCall (CNpLoad path);
          EvSetAttr "num_train" (VLen (length train_idx));
          EvSetAttr "num_test" (VLen (length test_idx));
          EvSetAttr "num_val" (VLen (length val_idx))],
         (length train_idx), (length test_idx), (length val_idx).
  simpl_state. rewrite <- !app_assoc. split; [done |]. split; [done |].
  intros _. done.
Qed.

Lemma timed_test_run label s d :
  datamodule s = Some d →
  ∃ t,
    trace (timed_test trainer task label s).2 = trace s ++ t
    ∧ List.filter is_sweep_step t `prefix_of` [EvCall (CTrainerTest trainer task d)]
    ∧ ((timed_test trainer task label s).1 = Ok tt →
       List.filter is_sweep_step t = [EvCall (CTrainerTest trainer task d)]
       ∧ datamodule (timed_test trainer task label s).2 = Some d).
Proof.
  intros Hd. destruct (timed_test trainer task label s) as [r s'] eqn:Hrun.
  cbn [fst snd]. unfold timed_test in Hrun.
  unfold bind at 1 in Hrun. rewrite ext_run in Hrun.
  destruct (time_time _) as [[start|e] w1]; cbn [fst snd] in Hrun; cycle 1.
  { injection Hrun as <- <-. exists [EvCall CTime]. simpl_state.
    split; [done |]. split; [| done]. by eexists. }
  erewrite bind_ok in Hrun by (by apply get_datamodule_run).
  unfold bind at 1 in Hrun. rewrite ext_run in Hrun.
  destruct (trainer_test _ _ _ _) as [[[]|e] w2]; cbn [fst snd] in Hrun; cycle 1.
  { injection Hrun as <- <-.
    exists [EvCall CTime; EvCall (CTrainerTest trainer task d)]. simpl_state.
    rewrite <- app_assoc. split; [done |]. split; [| done]. by exists []. }
  unfold bind at 1 in Hrun. rewrite ext_run in Hrun.
  destruct (time_time _) as [[end_|e] w3]; cbn [fst snd] in Hrun; cycle 1.
  { injection Hrun as <- <-.
    exists [EvCall CTime; EvCall (CTrainerTest trainer task d); EvCall CTime].
    simpl_state. rewrite <- !app_assoc. split; [done |]. split; [| done].
    by exists []. }
  injection Hrun as <- <-.
  eexists [EvCall CTime; EvCall (CTrainerTest trainer task d); EvCall CTime;
           EvLog INFO _].
  simpl_state. rewrite <- !app_assoc. split; [done |]. split; [by exists [] |].
  done.
Qed.

Lemma sweeps_swap path paths k :
  tests_then path paths k →
  sweeps (path :: paths) (bind (swap_partition path) (λ _, k)).
Proof.
  intros Hk s d Hd Hid.
  destruct (sweep_shape_exists paths) as [any Hany].
  destruct (swap_partition_run path s d Hd) as (t1 & n1 & n2 & n3 & Htr & Hpre & Hok).
  unfold bind. destruct (swap_partition path s) as [[[]|e] s1]; cbn [fst snd] in *.
  - destruct (Hok eq_refl) as [Hfilter Hdm]. rewrite Hid in Hdm.
    destruct (Hk s1 n1 n2 n3 Hdm) as (t2 & full & Htr2 & Hshape & Hpre2 & Hok2).
    exists (t1 ++ t2), (pass_events trainer task dm path n1 n2 n3 ++ full).
    rewrite Htr2, Htr, <- app_assoc, List.filter_app, Hfilter.
    split; [done |]. split; [by apply (sweep_pass _ _ _ path paths) |].
    unfold pass_events. rewrite <- app_assoc. cbn [app].
    split; [by apply prefix_app |].
    intros Hr. by rewrite (Hok2 Hr).
  - exists t1, (pass_events trainer task dm path n1 n2 n3 ++ any).
    split; [done |]. split; [by apply (sweep_pass _ _ _ path paths) |].
    split; [| done].
    unfold pass_events. rewrite <- app_assoc. by apply prefix_app_r.
Qed.

Lemma tests_then_log path paths msg k :
  tests_then path paths k →
  tests_then path paths (bind (log_info msg) (λ _, k)).
Proof.
  intros Hk s n1 n2 n3 Hd.
  destruct (Hk (emit (EvLog INFO msg) s) n1 n2 n3 Hd)
    as (t & full & Htr & Hshape & Hpre & Hok).
  exists (EvLog INFO msg :: t), full.
  change (bind (log_info msg) (λ _, k) s) with (k (emit (EvLog INFO msg) s)).
  rewrite Htr. cbn [trace emit List.filter is_sweep_step].
  by rewrite <- app_assoc.
Qed.

Lemma tests_then_test path paths label k :
  sweeps paths k →
  tests_then path paths (bind (timed_test trainer task label) (λ _, k)).
Proof.
  intros Hk s n1 n2 n3 Hd.
  destruct (sweep_shape_exists paths) as [any Hany].
  destruct (timed_test_run label s _ Hd) as (t1 & Htr & Hpre & Hok).
  unfold bind.
  destruct (timed_test trainer task label s) as [[[]|e] s1]; cbn [fst snd] in *.
  - destruct (Hok eq_refl) as [Hfilter Hdm].
    destruct (Hk s1 _ Hdm eq_refl) as (t2 & full & Htr2 & Hshape & Hpre2 & Hok2).
    exists (t1 ++ t2), full.
    rewrite Htr2, Htr, <- app_assoc, List.filter_app, Hfilter. cbn [app].
    split; [done |]. split; [done |]. split; [by apply prefix_cons |].
    intros Hr. by rewrite (Hok2 Hr).
  - exists t1, any. split; [done |]. split; [done |]. split; [| done].
    etrans; [exact Hpre |]. by apply (prefix_app_r [_] [_] any).
Qed.

Lemma tests_then_last path label :
  tests_then path [] (timed_test trainer task label).
Proof.
  intros s n1 n2 n3 Hd.
  destruct (timed_test_run label s _ Hd) as (t1 & Htr & Hpre & Hok).
  exists t1, []. split; [done |]. split; [constructor |]. split; [done |].
  intros Hr. by destruct (Hok Hr).
Qed.

(** The seven passes of [train]. *)
Lemma train_sweep_sweeps : sweeps partitions (train_sweep trainer task).
Proof.
  unfold train_sweep, partitions.
  repeat first [ apply sweeps_swap | apply tests_then_log
               | apply tests_then_test | apply tests_then_last ].
Qed.

End SweepProperties.

(** *** The phases of a run *)

Section Phases.

Import Cli.

Context {W : Type} `{!Framework W}.

Implicit Types s : State (W := W).

Lemma extends_refl P s : extends P s s.
Proof. split; [done |]. exists []. by rewrite app_nil_r. Qed.

Lemma extends_trans P s1 s2 s3 : extends P s1 s2 → extends P s2 s3 → extends P s1 s3.
Proof.
  intros [Hd1 (t1 & Ht1 & HP1)] [Hd2 (t2 & Ht2 & HP2)]. split; [auto |].
  exists (t1 ++ t2). rewrite Ht2, Ht1, <- app_assoc. split; [done |].
  by apply Forall_app.
Qed.

Lemma extends_emit P e s : P e = true → extends P s (emit e s).
Proof. intros He. split; [done |]. exists [e]. split; [done |]. by constructor. Qed.

Lemma extends_weaken (P Q : Event → bool) s s' :
  (∀ e, P e = true → Q e = true) → extends P s s' → extends Q s s'.
Proof.
  intros HPQ [Hd (t & Ht & HP)]. split; [done |]. exists t. split; [done |].
  eapply Forall_impl; [exact HP | done].
Qed.

Lemma extends_same P s s' :
  datamodule s' = datamodule s → trace s' = trace s → extends P s s'.
Proof.
  intros Hd Ht. split; [by rewrite Hd |]. exists []. by rewrite app_nil_r.
Qed.

Lemma extends_set_dm P d s : extends P s (set_datamodule (Some d) s).
Proof. split; [by eexists |]. exists []. by rewrite app_nil_r. Qed.

Lemma extends_events P s s' :
  extends P s s' → ∃ t, trace s' = trace s ++ t ∧ Forall (λ e, P e = true) t.
Proof. by intros [_ ?]. Qed.

(** The side conditions of the frame lemmas, for [extends P]. *)
Ltac extends_frame :=
  first
    [ exact (extends_refl _) | exact (extends_trans _)
    | exact (extends_set_dm _) | exact (extends_emit _)
    | by (intros; apply extends_same)
    | done ].

Lemma train_config_file_extends : frames (extends is_output) train_config_file.
Proof.
  apply frames_train_config_file with (allowed := λ e, is_output e = true);
    extends_frame.
Qed.

Lemma train_extends : frames (extends train_or_output) train.
Proof.
  apply frames_train with (allowed := λ e, train_or_output e = true);
    try extends_frame.
  - intros e He. unfold train_or_output. by rewrite He, orb_true_r.
  - intros e He. unfold train_or_output. by rewrite He.
Qed.

Lemma store_best_model_extends trainer task :
  frames (extends export_or_output) (store_best_model trainer task).
Proof.
  apply frames_store_best_model with (allowed := λ e, export_or_output e = true);
    try extends_frame.
  - intros e He. unfold export_or_output. by rewrite He, orb_true_r.
  - intros e He. unfold export_or_output. by rewrite He.
Qed.

Lemma train_run_same_cfg : frames same_cfg train_run.
Proof.
  apply frames_train_run with (allowed := λ _, True); try done.
  intros s1 s2 s3. unfold same_cfg. congruence.
Qed.

End Phases.

(** *** Resuming *)

Section Resume.

Import Cli.

Context {W : Type} `{!Framework W}.

Implicit Types s : State (W := W).

(** With a complete configuration and a readable [config.yaml], the run
    gets past lines 48-89 and goes on from a store that differs from the
    initial one in one file, in [run.ckpt_path], and in the output. *)
Lemma train_resumes s text old :
  complete (cfg s) →
  fs s !! "config.yaml" = Some (File text) →
  yaml_load text = Some old →
  ∃ n s1,
    first_free (fs s) (size (fs s)) 1 = Some n
    ∧ train s = train_run s1
    ∧ fs s1 = <[archive_name n := File (yaml_save old)]> (fs s)
    ∧ cfg s1 = resume_cfg (fs s) (cfg s)
    ∧ datamodule s1 = datamodule s
    ∧ world s1 = world s.
Proof.
  intros Hc Hfile Hload. rewrite (train_complete s Hc).
  destruct (train_config_file_resume (greeted s) text old Hfile Hload)
    as (n & t & Hn & _ & Hrun).
  exists n. eexists. split; [exact Hn |].
  split; [by erewrite bind_ok by exact Hrun |]. done.
Qed.

(** C2 (amended). In a working directory that already holds a readable
    [config.yaml], a run with a complete configuration writes one new
    file before it goes on: the archive [config.old.<n>.yaml], where [n]
    is the first index from 1 on whose archive name is not in use; it
    holds the previous configuration as loaded and saved again. Every
    other path, [config.yaml] among them, is as it was. *)
Theorem train_archives_previous_config s text old :
  complete (cfg s) →
  fs s !! "config.yaml" = Some (File text) →
  yaml_load text = Some old →
  ∃ n s1,
    train s = train_run s1
    ∧ (1 ≤ n)%nat
    ∧ fs s !! archive_name n = None
    ∧ (∀ k, (1 ≤ k < n)%nat → is_Some (fs s !! archive_name k))
    ∧ fs s1 !! archive_name n = Some (File (yaml_save old))
    ∧ (∀ path, path ≠ archive_name n → fs s1 !! path = fs s !! path)
    ∧ fs s1 !! "config.yaml" = Some (File text).
Proof.
  intros Hc Hfile Hload.
  destruct (train_resumes s text old Hc Hfile Hload)
    as (n & s1 & Hn & Hrun & Hfs & _).
  destruct (first_free_least _ _ _ _ Hn) as (Hle & Hfree & Hused).
  exists n, s1. rewrite Hfs.
  split; [done |]. split; [done |]. split; [done |]. split; [done |].
  split; [by rewrite lookup_insert_eq |].
  split; [by intros path Hne; rewrite lookup_insert_ne |].
  by rewrite lookup_insert_ne by apply archive_name_not_config.
Qed.

(** C6. When [config.yaml] is there (and readable) and the configuration
    is complete, the checkpoint path the run ends with is: the one that
    was given, if one was given; otherwise [checkpoints/last.ckpt] if that
    path exists, and none if it does not. *)
Theorem train_resolves_checkpoint s text old :
  complete (cfg s) →
  fs s !! "config.yaml" = Some (File text) →
  yaml_load text = Some old →
  let ckpt_path := run_ckpt_path (cfg (train s).2) in
  (run_ckpt_path (cfg s) = None →
     (ckpt_path = Some "checkpoints/last.ckpt"%string
      ↔ is_Some (fs s !! "checkpoints/last.ckpt"))
     ∧ (fs s !! "checkpoints/last.ckpt" = None → ckpt_path = None))
  ∧ (∀ given, run_ckpt_path (cfg s) = Some given → ckpt_path = Some given).
Proof.
  intros Hc Hfile Hload.
  destruct (train_resumes s text old Hc Hfile Hload)
    as (n & s1 & _ & Hrun & _ & Hcfg & _).
  cbv zeta. rewrite Hrun. rewrite (train_run_same_cfg s1), Hcfg.
  unfold resume_cfg. split.
  - intros Hnone. rewrite Hnone. case_bool_decide as Hex.
    + cbn. split; [done |]. intros Hno. rewrite Hno in Hex. by destruct Hex.
    + rewrite Hnone. split; [done |]. done.
  - intros given Hgiven. by rewrite Hgiven.
Qed.

End Resume.

(** *** Storing the best model *)

Lemma string_length_app (s1 s2 : string) :
  String.length (s1 ++ s2)%string = (String.length s1 + String.length s2)%nat.
Proof. induction s1 as [|a s1 IH]; simpl; [done | by rewrite IH]. Qed.

Lemma task_suffix_fresh (path : string) : path ≠ (path ++ ".task")%string.
Proof.
  intros Heq. apply (f_equal String.length) in Heq.
  rewrite string_length_app in Heq. simpl in Heq. lia.
Qed.

Lemma bind_inv {S A B} (m : M S A) (k : A → M S B) s b s' :
  bind m k s = (Ok b, s') → ∃ a s1, m s = (Ok a, s1) ∧ k a s1 = (Ok b, s').
Proof.
  unfold bind. destruct (m s) as [[a|e] s1]; [| done]. intros Hk. by exists a, s1.
Qed.

(** *** Files that were written can be read *)

Lemma components_app_name (p sfx : string) :
  Cli.slash_free sfx = true →
  ∃ front c, Cli.components p = (front ++ [c])%list
             ∧ Cli.components (p ++ sfx) = (front ++ [(c ++ sfx)%string])%list.
Proof.
  intros Hsfx. induction p as [|ch p (front & c & Hp & Hps)].
  - exists [], ""%string. split; [done |]. cbn. by apply components_slash_free.
  - change (String ch p ++ sfx)%string with (String ch (p ++ sfx)).
    cbn [Cli.components]. destruct (Cli.is_sep ch).
    + exists (""%string :: front), c. by rewrite Hp, Hps.
    + rewrite Hp, Hps. destruct front as [|f front].
      * by exists [], (String ch c).
      * by exists (String ch f :: front), c.
Qed.

Lemma join_path_cons (name : string) (names : list string) :
  names ≠ [] → Cli.join_path (name :: names) = (name ++ "/" ++ Cli.join_path names)%string.
Proof. by destruct names. Qed.

Lemma join_path_last_inj (front : list string) (x y : string) :
  Cli.join_path (front ++ [x]) = Cli.join_path (front ++ [y]) → x = y.
Proof.
  induction front as [|f front IH]; [done |].
  cbn [app]. rewrite !join_path_cons by (by destruct front).
  intros Heq. apply (inj (String.append f)) in Heq.
  apply (inj (String.append "/")) in Heq. by apply IH.
Qed.

Section WrittenFiles.

Import Cli.

Variable cwd : list string.

Implicit Types files : filesystem.

(** [files'] has every directory of [files]. *)
Abbreviation keeps_dirs files files' :=
  (∀ loc, node_at cwd files loc = Some Dir → node_at cwd files' loc = Some Dir).

Lemma keeps_dirs_insert files k n :
  files !! k ≠ Some Dir → keeps_dirs files (<[k := n]> files).
Proof.
  intros Hk loc. unfold node_at. case_bool_decide; [done |].
  destruct (decide (key cwd loc = k)) as [-> | Hne]; [done |].
  by rewrite lookup_insert_ne.
Qed.

Lemma dir_chain_from_mono files files' (names above : list string) :
  keeps_dirs files files' →
  dir_chain_from cwd files above names = None →
  dir_chain_from cwd files' above names = None.
Proof.
  intros Hkeeps. revert above.
  induction names as [|name names IH]; intros above; [done |].
  cbn [dir_chain_from].
  destruct (node_at cwd files (above ++ [name])) as [[|]|] eqn:Hnode; [done | | done].
  rewrite (Hkeeps _ Hnode). apply IH.
Qed.

Lemma walk_mono files files' (names cur : list string) (loc : list string) :
  keeps_dirs files files' →
  walk cwd files cur names = inr loc → walk cwd files' cur names = inr loc.
Proof.
  intros Hkeeps. revert cur.
  induction names as [|name names IH]; intros cur; [done |].
  cbn [walk]. repeat case_decide; [apply IH | | | apply IH].
  - unfold dir_chain.
    destruct (dir_chain_from cwd files [] cur) eqn:Hchain; [done |].
    rewrite (dir_chain_from_mono _ _ _ _ Hkeeps Hchain). apply IH.
  - unfold dir_chain.
    destruct (dir_chain_from cwd files [] cur) eqn:Hchain; [done |].
    rewrite (dir_chain_from_mono _ _ _ _ Hkeeps Hchain). apply IH.
Qed.

Lemma locate_mono files files' (p : string) x :
  keeps_dirs files files' →
  locate cwd files p = inr x → locate cwd files' p = inr x.
Proof.
  intros Hkeeps. unfold locate. destruct p as [|c p]; [done |].
  destruct (walk cwd files _ _) as [|loc] eqn:Hwalk; [done |].
  by rewrite (walk_mono _ _ _ _ _ Hkeeps Hwalk).
Qed.

Lemma node_at_not_dir files (loc : list string) :
  node_at cwd files loc ≠ Some Dir →
  strip_prefix loc cwd = None ∧ files !! key cwd loc ≠ Some Dir.
Proof.
  unfold node_at. case_bool_decide as Hpre; [done |]. intros Hnode.
  split; [| done]. destruct (strip_prefix loc cwd); [| done].
  destruct Hpre. by eexists.
Qed.

Lemma node_at_insert files (loc : list string) (n : node) :
  strip_prefix loc cwd = None →
  node_at cwd (<[key cwd loc := n]> files) loc = Some n.
Proof.
  intros Hpre. unfold node_at. rewrite Hpre.
  rewrite bool_decide_eq_false_2 by (by intros [? ?]).
  by rewrite lookup_insert_eq.
Qed.

(** What a successful open for writing knows. *)
Lemma writable_inv files (p k : string) :
  writable cwd files p = inr k →
  ∃ loc, locate cwd files p = inr (loc, false)
         ∧ dir_chain cwd files (removelast loc) = None
         ∧ node_at cwd files loc ≠ Some Dir
         ∧ k = key cwd loc.
Proof.
  unfold writable. destruct (locate cwd files p) as [|[loc dir_only]]; [done |].
  destruct (dir_chain cwd files (removelast loc)) eqn:Hchain; [done |].
  destruct (node_at cwd files loc) as [[text|]|] eqn:Hnode; [| done |];
    destruct dir_only; try done; intros [= <-]; exists loc;
    repeat split; congruence.
Qed.

(** The file that was opened and written holds what was written. *)
Lemma readable_written files (p k text : string) :
  writable cwd files p = inr k →
  readable cwd (<[k := File text]> files) p = inr text.
Proof.
  intros (loc & Hloc & Hchain & Hnode & ->)%writable_inv.
  destruct (node_at_not_dir _ _ Hnode) as [Hpre Hkey].
  pose proof (keeps_dirs_insert files (key cwd loc) (File text) Hkey) as Hkeeps.
  unfold readable. rewrite (locate_mono _ _ _ _ Hkeeps Hloc).
  unfold dir_chain in *. rewrite (dir_chain_from_mono _ _ _ _ Hkeeps Hchain).
  by rewrite node_at_insert.
Qed.

(** A file that can be read stays as it is when another one is
    written. *)
Lemma readable_kept files (p k text other : string) (loc : list string) :
  readable cwd files p = inr text →
  locate cwd files p = inr (loc, false) →
  files !! k ≠ Some Dir → key cwd loc ≠ k →
  readable cwd (<[k := File other]> files) p = inr text.
Proof.
  intros Hread Hloc Hk Hne.
  pose proof (keeps_dirs_insert files k (File other) Hk) as Hkeeps.
  unfold readable in *. rewrite Hloc in Hread.
  rewrite (locate_mono _ _ _ _ Hkeeps Hloc).
  unfold dir_chain in *.
  destruct (dir_chain_from cwd files [] (removelast loc)) eqn:Hchain; [done |].
  rewrite (dir_chain_from_mono _ _ _ _ Hkeeps Hchain).
  unfold node_at in *. case_bool_decide; [done |].
  by rewrite lookup_insert_ne.
Qed.

(** Where the chain of directories holds, there are directories. *)
Lemma node_at_root files : node_at cwd files [] = Some Dir.
Proof. unfold node_at. by rewrite bool_decide_eq_true_2 by (by eexists). Qed.

Lemma dir_chain_from_dir files (names above : list string) :
  names ≠ [] →
  dir_chain_from cwd files above names = None →
  node_at cwd files (above ++ names) = Some Dir.
Proof.
  revert above. induction names as [|name names IH]; intros above Hne; [done |].
  cbn [dir_chain_from].
  destruct (node_at cwd files (above ++ [name])) as [[|]|] eqn:Hnode; [done | | done].
  destruct names as [|name' names]; [by intros _ |].
  intros Hchain. apply IH in Hchain; [| done].
  by rewrite <- app_assoc in Hchain.
Qed.

Lemma dir_chain_dir files (loc : list string) :
  dir_chain cwd files loc = None → node_at cwd files loc = Some Dir.
Proof.
  destruct loc as [|name loc]; [intros _; apply node_at_root |].
  intros Hchain. by apply (dir_chain_from_dir files (name :: loc) []).
Qed.

Lemma dir_chain_from_front files (names1 names2 above : list string) :
  dir_chain_from cwd files above (names1 ++ names2) = None →
  dir_chain_from cwd files above names1 = None.
Proof.
  revert above. induction names1 as [|name names1 IH]; intros above; [done |].
  cbn [app dir_chain_from].
  destruct (node_at cwd files (above ++ [name])) as [[|]|]; [done | apply IH | done].
Qed.

Lemma dir_chain_parent files (loc : list string) :
  dir_chain cwd files loc = None →
  node_at cwd files (removelast loc) = Some Dir.
Proof.
  intros Hchain. apply dir_chain_dir.
  destruct (decide (loc = [])) as [-> | Hne]; [done |].
  rewrite (app_removelast_last ""%string Hne) in Hchain.
  by apply dir_chain_from_front in Hchain.
Qed.

Lemma walk_app files (names1 names2 cur : list string) :
  walk cwd files cur (names1 ++ names2)
  = match walk cwd files cur names1 with
    | inl e => inl e
    | inr loc => walk cwd files loc names2
    end.
Proof.
  revert cur. induction names1 as [|name names1 IH]; intros cur; [done |].
  cbn [app walk]. repeat case_decide; try apply IH;
    destruct (dir_chain cwd files cur); try done; apply IH.
Qed.

Lemma strip_prefix_snoc (pre l : list string) (x : string) :
  strip_prefix pre (l ++ [x])
  = match strip_prefix pre l with
    | Some below => Some (below ++ [x])
    | None => if decide (pre = l ++ [x]) then Some [] else None
    end.
Proof.
  revert l. induction pre as [|y pre IH]; intros l; [done |].
  destruct l as [|z l]; cbn [app strip_prefix].
  - destruct (decide (y = x)) as [-> | Hne].
    + destruct pre; [by rewrite decide_True | by rewrite decide_False].
    + by rewrite decide_False by congruence.
  - destruct (decide (y = z)) as [-> | Hne].
    + rewrite IH. destruct (strip_prefix pre l); [done |].
      destruct (decide (pre = l ++ [x])) as [-> | Hne'].
      * by rewrite decide_True.
      * by rewrite decide_False by congruence.
    + by rewrite decide_False by congruence.
Qed.

Lemma task_is_name (c : string) : is_name (c ++ ".task").
Proof.
  repeat split; intros Heq; apply (f_equal String.length) in Heq;
    rewrite string_length_app in Heq; cbn in Heq; lia.
Qed.

(** Two places below the same directory, neither at or above the
    working directory, have different keys when their names differ. *)
Lemma key_last_inj (front : list string) (x y : string) :
  strip_prefix (front ++ [x]) cwd = None →
  strip_prefix (front ++ [y]) cwd = None →
  key cwd (front ++ [x]) = key cwd (front ++ [y]) → x = y.
Proof.
  intros Hx Hy. unfold key. rewrite !strip_prefix_snoc.
  destruct (strip_prefix cwd front) as [below |].
  - apply join_path_last_inj.
  - rewrite !decide_False.
    + intros Heq. apply (inj (String.append "/")) in Heq.
      by apply join_path_last_inj in Heq.
    + intros ->. by rewrite strip_prefix_refl in Hy.
    + intros ->. by rewrite strip_prefix_refl in Hx.
Qed.

(** The task snapshot and the model export are different files. *)
Lemma task_keys_differ files files' (path : string) (loc1 loc2 : list string) :
  keeps_dirs files files' →
  locate cwd files (path ++ ".task") = inr (loc1, false) →
  locate cwd files' path = inr (loc2, false) →
  node_at cwd files loc1 ≠ Some Dir →
  node_at cwd files' loc2 ≠ Some Dir →
  key cwd loc1 ≠ key cwd loc2.
Proof.
  intros Hkeeps Hloc1 Hloc2 Hnode1 Hnode2.
  destruct path as [|ch path]; [done |].
  destruct (components_app_name (String ch path) ".task") as (front & c & Hp & Hps);
    [done |].
  change (String ch path ++ ".task")%string with (String ch (path ++ ".task"))
    in Hloc1, Hps.
  unfold locate in Hloc1, Hloc2. cbv zeta in Hloc1, Hloc2.
  rewrite Hps in Hloc1. rewrite Hp in Hloc2.
  rewrite walk_app in Hloc1, Hloc2.
  destruct (walk cwd files _ front) as [|cur] eqn:Hfront; [done |].
  rewrite (walk_mono _ _ _ _ _ Hkeeps Hfront) in Hloc2.
  pose proof (task_is_name c) as (Ht1 & Ht2 & Ht3).
  cbn [walk] in Hloc1. rewrite !decide_False in Hloc1 by done.
  injection Hloc1 as <- _.
  destruct (walk cwd files' cur [c]) as [|loc] eqn:Hlast; [done |].
  injection Hloc2 as -> Hslash.
  apply bool_decide_eq_false in Hslash. rewrite last_snoc in Hslash.
  cbn [walk] in Hlast. rewrite decide_False in Hlast by congruence.
  destruct (decide (c = ".")) as [-> | Hdot].
  { destruct (dir_chain cwd files' cur) eqn:Hchain; [done |].
    injection Hlast as <-. destruct Hnode2. by apply dir_chain_dir. }
  destruct (decide (c = "..")) as [-> | Hdots].
  { destruct (dir_chain cwd files' cur) eqn:Hchain; [done |].
    injection Hlast as <-. destruct Hnode2. by apply dir_chain_parent. }
  injection Hlast as <-.
  apply node_at_not_dir in Hnode1 as [Hpre1 _].
  apply node_at_not_dir in Hnode2 as [Hpre2 _].
  intros Heq%key_last_inj; [| done | done].
  by apply (task_suffix_fresh c).
Qed.

End WrittenFiles.

Section BestModel.

Import Cli.

Context {W : Type} `{!Framework W}.

Implicit Types s : State (W := W).

Lemma ext_ok_inv {A} c (f : M W A) s a s' :
  ext c f s = (Ok a, s') →
  ∃ w, f (world s) = (Ok a, w) ∧ s' = set_world w (emit (EvCall c) s).
Proof.
  unfold ext. cbn [world emit]. destruct (f (world s)) as [r w].
  intros [= -> <-]. by exists w.
Qed.

Lemma cfg_model_path_inv s path s' :
  cfg_model_path s = (Ok path, s') →
  globals_model_path (cfg s) = Some path ∧ s' = s.
Proof.
  unfold cfg_model_path, bind, gets.
  destruct (globals_model_path (cfg s)); [| done]. by intros [= -> <-].
Qed.

Lemma ext_ok_run {A} c (f : M W A) s a w :
  f (world s) = (Ok a, w) → ext c f s = (Ok a, set_world w (emit (EvCall c) s)).
Proof. intros Hf. rewrite ext_run. by rewrite Hf. Qed.

Lemma cfg_model_path_run s path :
  globals_model_path (cfg s) = Some path → cfg_model_path s = (Ok path, s).
Proof. intros Hp. unfold cfg_model_path, bind, gets. by rewrite Hp. Qed.

Lemma cfg_model_path_none s :
  globals_model_path (cfg s) = None →
  cfg_model_path s = (Raise (TypeError "globals.model_path"), s).
Proof. intros Hp. unfold cfg_model_path, bind, gets. by rewrite Hp. Qed.

(** A save that returns has opened the file and written all of it. *)
Lemma save_to_inv c save path s s' :
  save_to c save path s = (Ok tt, s') →
  ∃ bytes w k,
    save (world s) = (Completed bytes, w)
    ∧ writable getcwd (fs s) path = inr k
    ∧ s' = set_fs (<[k := File bytes]>) (set_world w (emit (EvCall c) s)).
Proof.
  unfold save_to. cbv zeta. cbn [world fs emit].
  destruct (save (world s)) as [[e | bytes e | bytes] w]; [done | |].
  - by destruct (writable getcwd (fs s) path).
  - destruct (writable getcwd (fs s) path) as [|k] eqn:Hk; [done |].
    intros [= <-]. by exists bytes, w, k.
Qed.

Lemma save_to_run c save path s bytes w k :
  save (world s) = (Completed bytes, w) →
  writable getcwd (fs s) path = inr k →
  save_to c save path s
  = (Ok tt, set_fs (<[k := File bytes]>) (set_world w (emit (EvCall c) s))).
Proof.
  intros Hsave Hk. unfold save_to. cbv zeta. cbn [world fs emit].
  by rewrite Hsave, Hk.
Qed.

(** However a save ends, the call is on record, and the configuration
    is as it was. *)
Lemma save_to_trace c save path s :
  trace (save_to c save path s).2 = trace s ++ [EvCall c]
  ∧ cfg (save_to c save path s).2 = cfg s.
Proof.
  unfold save_to. cbv zeta. cbn [world fs emit].
  destruct (save (world s)) as [[e | bytes e | bytes] w]; [done | |];
    by destruct (writable getcwd (fs s) path).
Qed.

(** The export when nothing stands in its way. *)
Lemma store_best_model_run (trainer task : Obj) s
    path best_path w1 best w2 snapshot w3 export w4 k1 k2 :
  globals_model_path (cfg s) = Some path →
  best_model_path trainer (world s) = (Ok best_path, w1) →
  load_from_checkpoint task best_path w1 = (Ok best, w2) →
  torch_save best (path ++ ".task")%string w2 = (Completed snapshot, w3) →
  writable getcwd (fs s) (path ++ ".task")%string = inr k1 →
  save_model best path w3 = (Completed export, w4) →
  writable getcwd (<[k1 := File snapshot]> (fs s)) path = inr k2 →
  (store_best_model trainer task s).1 = Ok tt
  ∧ fs (store_best_model trainer task s).2
    = <[k2 := File export]> (<[k1 := File snapshot]> (fs s)).
Proof.
  intros Hpath Hbest Hload Hsnap Hk1 Hexp Hk2. unfold store_best_model.
  erewrite bind_ok by (by apply ext_ok_run).
  do 2 erewrite bind_ok by apply log_info_run.
  erewrite bind_ok by (by apply ext_ok_run).
  erewrite bind_ok by (by apply cfg_model_path_run).
  erewrite bind_ok by (by apply save_to_run).
  erewrite bind_ok by (by apply cfg_model_path_run).
  erewrite bind_ok by (by apply save_to_run).
  erewrite bind_ok by (by apply cfg_model_path_run).
  rewrite log_info_run. done.
Qed.

(** C8. If [store_best_model] returns, the task snapshot can be read
    at [globals.model_path] with the suffix [.task] and the model export
    at [globals.model_path], each as the save that completed wrote it.
    If the best checkpoint cannot be found or cannot be loaded,
    [store_best_model] raises, the files are as before, and neither
    [torch.save] nor [save_model] has been called. In every run the
    saves that are made are a beginning of: the task snapshot, then the
    model export. And [store_best_model] does return, with these two
    files written, when the checkpoint loads, both saves complete and
    both files can be opened for writing. *)
Theorem store_best_model_exports (trainer task : Obj) s :
  ((store_best_model trainer task s).1 = Ok tt →
     ∃ path best snapshot export w1 w1' w2 w2',
       globals_model_path (cfg s) = Some path
       ∧ torch_save best (path ++ ".task")%string w1 = (Completed snapshot, w1')
       ∧ save_model best path w2 = (Completed export, w2')
       ∧ readable getcwd (fs (store_best_model trainer task s).2)
           (path ++ ".task")%string = inr snapshot
       ∧ readable getcwd (fs (store_best_model trainer task s).2) path
         = inr export)
  ∧ (¬ checkpoint_loads trainer task (world s) →
     is_ok (store_best_model trainer task s).1 = false
     ∧ fs (store_best_model trainer task s).2 = fs s
     ∧ ∃ t, trace (store_best_model trainer task s).2 = trace s ++ t
            ∧ Forall (λ e, is_save e = false) t)
  ∧ (∃ t best path,
       trace (store_best_model trainer task s).2 = trace s ++ t
       ∧ List.filter is_save t
         `prefix_of` [EvCall (CTorchSave best (path ++ ".task")%string);
                      EvCall (CSaveModel best path)]
       ∧ ((store_best_model trainer task s).1 = Ok tt →
          List.filter is_save t
          = [EvCall (CTorchSave best (path ++ ".task")%string);
             EvCall (CSaveModel best path)]))
  ∧ (∀ path best_path w1 best w2 snapshot w3 export w4 k1 k2,
       globals_model_path (cfg s) = Some path →
       best_model_path trainer (world s) = (Ok best_path, w1) →
       load_from_checkpoint task best_path w1 = (Ok best, w2) →
       torch_save best (path ++ ".task")%string w2 = (Completed snapshot, w3) →
       writable getcwd (fs s) (path ++ ".task")%string = inr k1 →
       save_model best path w3 = (Completed export, w4) →
       writable getcwd (<[k1 := File snapshot]> (fs s)) path = inr k2 →
       (store_best_model trainer task s).1 = Ok tt
       ∧ fs (store_best_model trainer task s).2
         = <[k2 := File export]> (<[k1 := File snapshot]> (fs s))).
Proof.
  split; [| split; [| split; [| apply store_best_model_run]]].
  - destruct (store_best_model trainer task s) as [r s'] eqn:Hrun;
      cbn [fst snd]; unfold store_best_model in Hrun.
    intros ->.
    apply bind_inv in Hrun as (best_path & s1 & (w1 & _ & ->)%ext_ok_inv & Hrun).
    do 2 apply bind_inv in Hrun as ([] & ? & [= <-] & Hrun).
    apply bind_inv in Hrun as (best & s2 & (w2 & _ & ->)%ext_ok_inv & Hrun).
    apply bind_inv in Hrun as (path & ? & [Hpath ->]%cfg_model_path_inv & Hrun).
    apply bind_inv in Hrun
      as ([] & s3 & (snapshot & w3 & k1 & Hsave1 & Hk1 & ->)%save_to_inv & Hrun).
    apply bind_inv in Hrun as (path' & ? & [Hpath' ->]%cfg_model_path_inv & Hrun).
    apply bind_inv in Hrun
      as ([] & s4 & (export & w4 & k2 & Hsave2 & Hk2 & ->)%save_to_inv & Hrun).
    apply bind_inv in Hrun as (path'' & ? & [_ ->]%cfg_model_path_inv & Hrun).
    injection Hrun as <-.
    cbn [cfg fs world emit set_fs set_world] in *.
    assert (path' = path) as -> by congruence.
    exists path, best, snapshot, export. do 4 eexists.
    split; [done |]. split; [exact Hsave1 |]. split; [exact Hsave2 |].
    split; [| by apply readable_written].
    destruct (writable_inv _ _ _ _ Hk1) as (loc1 & Hloc1 & _ & Hnode1 & ->).
    destruct (writable_inv _ _ _ _ Hk2) as (loc2 & Hloc2 & _ & Hnode2 & ->).
    pose proof (keeps_dirs_insert getcwd (fs s) (key getcwd loc1) (File snapshot)
                  (proj2 (node_at_not_dir _ _ _ Hnode1))) as Hkeeps.
    apply readable_kept with (loc := loc1).
    + by apply readable_written.
    + by apply (locate_mono _ _ _ _ _ Hkeeps).
    + exact (proj2 (node_at_not_dir _ _ _ Hnode2)).
    + by eapply task_keys_differ.
  - destruct (store_best_model trainer task s) as [r s'] eqn:Hrun;
      cbn [fst snd]; unfold store_best_model in Hrun.
    intros Hno. unfold bind at 1 in Hrun. rewrite ext_run in Hrun.
    destruct (best_model_path trainer (world s)) as [[best_path|e] w1] eqn:Hbest;
      cbn [fst snd] in Hrun; cycle 1.
    { injection Hrun as <- <-. cbn [fs trace emit set_world].
      split; [done |]. split; [done |]. eexists. split; [done |].
      by repeat constructor. }
    do 2 erewrite bind_ok in Hrun by apply log_info_run.
    unfold bind at 1 in Hrun. rewrite ext_run in Hrun. cbn [world emit set_world] in Hrun.
    destruct (load_from_checkpoint task best_path w1) as [[best|e] w2] eqn:Hload;
      cbn [fst snd] in Hrun.
    { destruct Hno. by exists best_path, w1, best, w2. }
    injection Hrun as <- <-. cbn [fs trace emit set_world].
    split; [done |]. split; [done |]. eexists. split.
    { rewrite <- !app_assoc. reflexivity. }
    by repeat constructor.
  - destruct (store_best_model trainer task s) as [r s'] eqn:Hrun;
      cbn [fst snd]; unfold store_best_model in Hrun.
    unfold bind at 1 in Hrun. rewrite ext_run in Hrun.
    destruct (best_model_path trainer (world s)) as [[best_path|e] w1];
      cbn [fst snd] in Hrun; cycle 1.
    { injection Hrun as <- <-.
      exists [EvCall (CBestModelPath trainer)], 1%positive, ""%string.
      cbn [trace emit set_world]. split; [done |].
      split; [apply prefix_nil | done]. }
    do 2 erewrite bind_ok in Hrun by apply log_info_run.
    unfold bind at 1 in Hrun. rewrite ext_run in Hrun.
    cbn [world emit set_world] in Hrun.
    destruct (load_from_checkpoint task best_path w1) as [[best|e] w2];
      cbn [fst snd] in Hrun; cycle 1.
    { injection Hrun as <- <-.
      eexists _, 1%positive, ""%string. cbn [trace emit set_world].
      rewrite <- !app_assoc. split; [done |].
      split; [apply prefix_nil | done]. }
    destruct (globals_model_path (cfg s)) as [path|] eqn:Hpath; cycle 1.
    { erewrite bind_raise in Hrun by (by apply cfg_model_path_none).
      injection Hrun as <- <-.
      eexists _, 1%positive, ""%string. cbn [trace emit set_world].
      rewrite <- !app_assoc. split; [done |].
      split; [apply prefix_nil | done]. }
    erewrite bind_ok in Hrun by (by apply cfg_model_path_run).
    unfold bind at 1 in Hrun.
    match type of Hrun with
    | context [save_to ?c ?save ?p ?s0] =>
        pose proof (save_to_trace c save p s0) as [Ht1 Hc1];
        destruct (save_to c save p s0) as [[[]|e] s1]
    end; cbn [fst snd trace cfg emit set_world] in *; cycle 1.
    { injection Hrun as <- <-.
      eexists _, best, path. rewrite Ht1, <- !app_assoc. split; [done |].
      cbn. split; [by eexists [_] | done]. }
    erewrite bind_ok in Hrun by (apply cfg_model_path_run; by rewrite Hc1).
    unfold bind at 1 in Hrun.
    match type of Hrun with
    | context [save_to ?c ?save ?p ?s0] =>
        pose proof (save_to_trace c save p s0) as [Ht2 Hc2];
        destruct (save_to c save p s0) as [[[]|e] s2]
    end; cbn [fst snd trace cfg emit set_world] in *; cycle 1.
    { injection Hrun as <- <-.
      eexists _, best, path. rewrite Ht2, Ht1, <- !app_assoc. split; [done |].
      cbn. split; [done | done]. }
    erewrite bind_ok in Hrun by (apply cfg_model_path_run; by rewrite Hc2, Hc1).
    rewrite log_info_run in Hrun. injection Hrun as <- <-.
    cbn [fst snd trace emit].
    eexists _, best, path. rewrite Ht2, Ht1, <- !app_assoc. split; [done |].
    cbn. split; [done | done].
Qed.

End BestModel.

(** *** From the start of a run to its first pass *)

Section SetupProperties.

Import Cli.

Context {W : Type} `{!Framework W}.

Implicit Types s : State (W := W).

Lemma section_inv name get_section s conf s' :
  section name get_section s = (Ok conf, s') → s' = s.
Proof.
  unfold section, bind, gets. destruct (get_section (cfg s)); [| done].
  by intros [= _ <-].
Qed.

Lemma attr_inv conf key s v s' : attr conf key s = (Ok v, s') → s' = s.
Proof. unfold attr. destruct (conf !! key); [| done]. by intros [= _ <-]. Qed.

Lemma setup_or_output_setup e : setup_event e = true → setup_or_output e = true.
Proof. intros He. unfold setup_or_output. by rewrite He. Qed.

Lemma setup_or_output_output e : is_output e = true → setup_or_output e = true.
Proof. intros He. unfold setup_or_output. by rewrite He, orb_true_r. Qed.

(** The blocks of lines 91-179 record output and setup events only. *)
Ltac setup_frames lem :=
  apply lem with (allowed := λ e, setup_or_output e = true);
  first [ exact (extends_refl _) | exact (extends_trans _)
        | exact (extends_set_dm _) | exact (extends_emit _)
        | exact setup_or_output_setup | exact setup_or_output_output
        | by (intros; apply extends_same) ].

Ltac setup_seq :=
  repeat first
    [ setup_frames (@frames_train_options W _)
    | setup_frames (@frames_init_datamodule W _)
    | setup_frames (@frames_init_model W _)
    | setup_frames (@frames_init_task W _)
    | setup_frames (@frames_init_callbacks W _)
    | setup_frames (@frames_init_loggers W _)
    | setup_frames (@frames_init_trainer W _)
    | setup_frames (@frames_init_hyperparameters W _)
    | apply frames_ret; exact (extends_refl _)
    | apply frames_bind; [exact (extends_trans _) | | intros ?] ].

Lemma train_setup_extends : frames (extends setup_or_output) train_setup.
Proof.
  unfold train_setup.
  setup_seq.
Qed.

Lemma init_datamodule_ok s s' :
  init_datamodule s = (Ok tt, s') → is_Some (datamodule s').
Proof.
  unfold init_datamodule. intros Hrun.
  do 5 apply bind_inv in Hrun as (? & ? & _ & Hrun).
  apply bind_inv in Hrun as (d & ? & _ & Hrun).
  injection Hrun as <-. by eexists.
Qed.

Lemma init_model_ok s model s' :
  init_model s = (Ok model, s') →
  datamodule s' = datamodule s
  ∧ ∃ t, trace s' = trace s ++ t
         ∧ Forall (λ e, setup_or_output e = true) t
         ∧ EvCall (CTorchLoad pretrained_model_path) ∈ t.
Proof.
  unfold init_model. intros Hrun.
  apply bind_inv in Hrun as (conf & ? & ->%section_inv & Hrun).
  apply bind_inv in Hrun as (target & ? & ->%attr_inv & Hrun).
  apply bind_inv in Hrun as ([] & ? & [= <-] & Hrun).
  apply ext_ok_inv in Hrun as (w & _ & ->).
  split; [done |]. eexists. cbn [trace emit set_world].
  rewrite <- app_assoc. split; [reflexivity |].
  split; [by repeat constructor |]. set_solver.
Qed.

(** [train_run] is the setup, then the passes, then the export. *)
Lemma train_run_setup s :
  train_run s
  = bind train_setup
      (λ p, bind (train_sweep p.1 p.2) (λ _, store_best_model p.1 p.2)) s.
Proof.
  unfold train_run, train_setup, bind.
  destruct (train_options s) as [[[]|?] ?]; [| done].
  destruct (init_datamodule _) as [[[]|?] ?]; [| done].
  destruct (init_model _) as [[?|?] ?]; [| done].
  destruct (init_task _ _) as [[?|?] ?]; [| done].
  destruct (init_callbacks _) as [[?|?] ?]; [| done].
  destruct (init_loggers _) as [[?|?] ?]; [| done].
  destruct (init_trainer _ _ _) as [[?|?] ?]; [| done].
  destruct (init_hyperparameters _ _ _) as [[[]|?] ?]; done.
Qed.

(** When the setup completes, the data module exists and the model has
    been loaded from the fixed path. *)
Lemma train_setup_ok s trainer task s' :
  train_setup s = (Ok (trainer, task), s') →
  is_Some (datamodule s')
  ∧ ∃ t, trace s' = trace s ++ t
         ∧ Forall (λ e, setup_or_output e = true) t
         ∧ EvCall (CTorchLoad pretrained_model_path) ∈ t.
Proof.
  unfold train_setup. intros Hrun.
  apply bind_inv in Hrun as ([] & sa & Ha & Hrun).
  apply bind_inv in Hrun as ([] & sb & Hb & Hrun).
  apply bind_inv in Hrun as (model & sc & Hc & Hrun).
  assert (extends setup_or_output s sa) as [_ (ta & Hta & HPa)].
  { assert (frames (extends setup_or_output) train_options) as Hf
      by setup_frames (@frames_train_options W _).
    specialize (Hf s). by rewrite Ha in Hf. }
  assert (extends setup_or_output sa sb) as [_ (tb & Htb & HPb)].
  { assert (frames (extends setup_or_output) init_datamodule) as Hf
      by setup_frames (@frames_init_datamodule W _).
    specialize (Hf sa). by rewrite Hb in Hf. }
  apply init_datamodule_ok in Hb.
  apply init_model_ok in Hc as (Hdc & tc & Htc & HPc & Hload).
  assert (extends setup_or_output sc s') as [Hd (td & Htd & HPd)].
  { match type of Hrun with
    | ?m sc = _ =>
        assert (frames (extends setup_or_output) m) as Hf
    end.
    { setup_seq. }
    specialize (Hf sc). by rewrite Hrun in Hf. }
  split; [apply Hd; by rewrite Hdc |].
  exists (ta ++ tb ++ tc ++ td).
  rewrite Htd, Htc, Htb, Hta, <- !app_assoc. split; [done |].
  split; [by rewrite !Forall_app |]. set_solver.
Qed.

End SetupProperties.

(** *** The whole run *)

Lemma filter_none {A} (P Q : A → bool) (t : list A) :
  Forall (λ e, P e = true) t → (∀ e, P e = true → Q e = false) →
  List.filter Q t = [].
Proof.
  intros Ht HPQ. induction Ht as [|e t He _ IH]; [done |].
  cbn. by rewrite (HPQ e He).
Qed.

Lemma split_behind {A} (P : A → bool) (t0 : list A) : ∀ t' t1 e t2,
  t0 ++ t' = t1 ++ e :: t2 → Forall (λ x, P x = false) t0 → P e = true →
  ∃ t1', t1 = t0 ++ t1'.
Proof.
  induction t0 as [|x t0 IH]; intros t' t1 e t2 Heq Hno He; [by exists t1 |].
  apply Forall_cons in Hno as [Hx Hno].
  destruct t1 as [|y t1]; cbn in Heq.
  - injection Heq as -> _. congruence.
  - injection Heq as -> Heq. destruct (IH _ _ _ _ Heq Hno He) as [t1' ->].
    by exists t1'.
Qed.

Section Run.

Import Cli.

Context {W : Type} `{!Framework W}.

Implicit Types s : State (W := W).

Lemma complete_dec (c : Config) :
  complete c ∨ (is_missing_data_dir c = true ∨ model c = None ∨ data c = None).
Proof.
  unfold complete. destruct (is_missing_data_dir c); [by right; left |].
  destruct (model c); [| by right; right; left].
  destruct (data c); [| by right; right; right].
  left. by repeat split; eexists.
Qed.

Lemma not_complete (c : Config) :
  is_missing_data_dir c = true ∨ model c = None ∨ data c = None → ¬ complete c.
Proof.
  intros [Hm | [Hm | Hd]] (Hdir & [? Hmodel] & [? Hdata]); congruence.
Qed.

Lemma setup_no_step e : setup_or_output e = true → is_sweep_step e = false.
Proof. by destruct e as [| | |[]]. Qed.

Lemma setup_no_test e : setup_or_output e = true → is_test e = false.
Proof. by destruct e as [| | |[]]. Qed.

Lemma export_no_step e : export_or_output e = true → is_sweep_step e = false.
Proof. by destruct e as [| | |[]]. Qed.

Lemma output_is_setup e : is_output e = true → setup_or_output e = true.
Proof. apply setup_or_output_output. Qed.

(** A run either ends before its first pass, having recorded output and
    setup events only, or it reaches the passes with the data module in
    place and the model loaded from the fixed path. *)
Lemma train_phases s :
  (∃ t, trace (train s).2 = trace s ++ t
        ∧ Forall (λ e, setup_or_output e = true) t
        ∧ ((train s).1 = Ok tt → ¬ complete (cfg s)))
  ∨ (∃ t0 s2 trainer task d,
       complete (cfg s)
       ∧ trace s2 = trace s ++ t0
       ∧ Forall (λ e, setup_or_output e = true) t0
       ∧ EvCall (CTorchLoad pretrained_model_path) ∈ t0
       ∧ datamodule s2 = Some d
       ∧ train s
         = bind (train_sweep trainer task)
             (λ _, store_best_model trainer task) s2).
Proof.
  destruct (complete_dec (cfg s)) as [Hc | Hbad].
  - rewrite (train_complete s Hc).
    pose proof (train_config_file_extends (greeted s)) as [_ (t1 & Ht1 & HP1)].
    pose proof (Forall_impl _ _ _ HP1 output_is_setup) as HP1'.
    destruct (train_config_file (greeted s)) as [[[]|e] s1] eqn:Hcf;
      cbn [snd] in Ht1; cycle 1.
    { left. exists ([EvPrint header;
                     EvLog INFO ("Running on host GULSUM!: " ++ gethostname (world s))%string]
                    ++ t1).
      erewrite bind_raise by exact Hcf. cbn [fst snd].
      rewrite Ht1. cbn [greeted trace emit]. rewrite <- !app_assoc.
      split; [done |]. split; [| done].
      apply Forall_app. split; [by repeat constructor | done]. }
    erewrite bind_ok by exact Hcf. rewrite train_run_setup.
    pose proof (train_setup_extends s1) as [_ (t2 & Ht2 & HP2)].
    destruct (train_setup s1) as [[[trainer task]|e] s2] eqn:Hsetup;
      cbn [snd] in Ht2; cycle 1.
    { left. exists ([EvPrint header;
                     EvLog INFO ("Running on host GULSUM!: " ++ gethostname (world s))%string]
                    ++ t1 ++ t2).
      erewrite bind_raise by exact Hsetup. cbn [fst snd].
      rewrite Ht2, Ht1. cbn [greeted trace emit]. rewrite <- !app_assoc.
      split; [done |]. split; [| done].
      apply Forall_app. split; [by repeat constructor |].
      by apply Forall_app. }
    erewrite bind_ok by exact Hsetup. cbn [fst snd].
    apply train_setup_ok in Hsetup as ([d Hd] & t2' & Ht2' & HP2' & Hload).
    right. exists ([EvPrint header;
                    EvLog INFO ("Running on host GULSUM!: " ++ gethostname (world s))%string]
                   ++ t1 ++ t2'), s2, trainer, task, d.
    split; [done |]. rewrite Ht2', Ht1. cbn [greeted trace emit].
    rewrite <- !app_assoc. split; [done |].
    split. { apply Forall_app. split; [by repeat constructor |].
             by apply Forall_app. }
    split; [set_solver | done].
  - left. destruct (train_incomplete_run s Hbad) as [msg ->].
    cbn [fst snd]. unfold greeted. cbn [trace emit].
    eexists. rewrite <- !app_assoc. split; [reflexivity |].
    split; [by repeat constructor |].
    intros _. by apply not_complete.
Qed.

Lemma sweep_and_export_extends trainer task :
  frames (extends train_or_output)
    (bind (train_sweep trainer task) (λ _, store_best_model trainer task)).
Proof.
  apply frames_bind; [exact (extends_trans _) | | intros _].
  - apply frames_train_sweep with (allowed := λ e, train_or_output e = true);
      first [ exact (extends_refl _) | exact (extends_trans _)
            | exact (extends_set_dm _) | exact (extends_emit _)
            | by (intros; apply extends_same) | idtac ].
    + intros e He. unfold train_or_output. by rewrite He, orb_true_r.
    + intros e He. unfold train_or_output, train_event. rewrite He.
      by rewrite orb_true_r.
  - intros s. eapply extends_weaken; [| apply store_best_model_extends].
    intros e. unfold export_or_output, train_or_output, train_event.
    destruct (export_event e), (is_output e); cbn; try done;
      by rewrite !orb_true_r.
Qed.

End Run.

Section Claims.

Import Cli.

Context {W : Type} `{!Framework W}.

Implicit Types s : State (W := W).

Lemma train_event_no_fit e :
  train_or_output e = true → is_fit e = false ∧ is_instantiate_model e = false.
Proof.
  destruct e as [| | |[]]; try done.
  unfold train_or_output, train_event, is_instantiate_model, is_fit.
  cbn [setup_event sweep_event export_event is_output].
  destruct (bool_decide _); by cbn.
Qed.

(** C3 (amended). A run never calls [trainer.fit] and never instantiates
    the model from [config.model]: whatever the configuration, the
    working directory and the collaborators, no such call is among the
    events the run records. The model is the one loaded with
    [torch.load] from the fixed path: every evaluation call of the run
    comes after that load. *)
Theorem train_evaluates_pretrained s :
  ∃ t,
    trace (train s).2 = trace s ++ t
    ∧ Forall (λ e, is_fit e = false ∧ is_instantiate_model e = false) t
    ∧ ∀ t1 e t2, t = t1 ++ e :: t2 → is_test e = true →
        EvCall (CTorchLoad pretrained_model_path) ∈ t1.
Proof.
  destruct (train_extends s) as [_ (t & Ht & HP)]. exists t.
  split; [done |].
  split; [exact (Forall_impl _ _ _ HP train_event_no_fit) |].
  intros t1 e t2 -> He.
  destruct (train_phases s) as [(t' & Ht' & HP' & _) | Hreached].
  - rewrite Ht in Ht'. apply app_inv_head in Ht' as <-.
    apply Forall_app in HP' as [_ [He' _]%Forall_cons].
    apply setup_no_test in He'. congruence.
  - destruct Hreached as (t0 & s2 & trainer & task & d & _ & Ht0 & HP0 & Hload & _ & Hrun).
    destruct (sweep_and_export_extends trainer task s2) as [_ (t' & Ht' & _)].
    rewrite <- Hrun, Ht, Ht0, <- app_assoc in Ht'. apply app_inv_head in Ht'.
    symmetry in Ht'.
    destruct (split_behind is_test t0 t' t1 e t2 Ht') as [t1' ->]; [| done |].
    + exact (Forall_impl _ _ _ HP0 setup_no_test).
    + set_solver.
Qed.

(** C7. The assignments to the data module and the evaluation calls of a
    run, in the order in which they happen, are the seven passes or a
    beginning of them: for each partition file in turn the split file is
    assigned, then [num_train], [num_test] and [num_val], then the test is
    called on the data module as these assignments left it; all the passes
    use one trainer, one task and one data module object. A run that
    completes with a complete configuration has made all seven passes. *)
Theorem train_sweep_order s :
  ∃ t trainer task dm full,
    trace (train s).2 = trace s ++ t
    ∧ sweep_shape trainer task dm partitions full
    ∧ List.filter is_sweep_step t `prefix_of` full
    ∧ ((train s).1 = Ok tt → complete (cfg s) →
       List.filter is_sweep_step t = full).
Proof.
  destruct (train_phases s) as [(t & Ht & HP & Hend) | Hreached].
  - destruct (sweep_shape_exists 1%positive 1%positive 1%positive partitions)
      as [full Hfull].
    exists t, 1%positive, 1%positive, 1%positive, full.
    rewrite (filter_none _ _ _ HP setup_no_step).
    split; [done |]. split; [done |]. split; [apply prefix_nil |].
    intros Hok Hc. by destruct (Hend Hok).
  - destruct Hreached as (t0 & s2 & trainer & task & d & _ & Ht0 & HP0 & _ & Hd & Hrun).
    destruct (train_sweep_sweeps trainer task (dm_id d) s2 d Hd eq_refl)
      as (t3 & full & Ht3 & Hshape & Hpre & Hfull).
    rewrite Hrun. unfold bind.
    destruct (train_sweep trainer task s2) as [[[]|e] s3]; cbn [fst snd] in *.
    + destruct (store_best_model_extends trainer task s3) as [_ (t4 & Ht4 & HP4)].
      exists (t0 ++ t3 ++ t4), trainer, task, (dm_id d), full.
      rewrite Ht4, Ht3, Ht0, <- !app_assoc, !List.filter_app.
      rewrite (filter_none _ _ _ HP0 setup_no_step).
      rewrite (filter_none _ _ _ HP4 export_no_step).
      rewrite app_nil_r, (Hfull eq_refl). cbn [app].
      split; [done |]. split; [done |]. split; done.
    + exists (t0 ++ t3), trainer, task, (dm_id d), full.
      rewrite Ht3, Ht0, <- !app_assoc, !List.filter_app.
      rewrite (filter_none _ _ _ HP0 setup_no_step). cbn [app].
      split; [done |]. split; [done |]. split; done.
Qed.

End Claims.

(** ** The properties on a concrete run *)

(** C1, as stated, on a configuration whose [run.data_dir] is still
    [???], with its [data] and [model] sections, in an empty working
    directory: the run would have to return without writing anything. The
    check of line 48 does not see the missing value, the run writes
    [config.yaml] and raises at line 107. *)
Theorem train_missing_data_dir_raises :
  let run := Cli.train (Framework0 := Demo.demo_framework true)
               (Demo.start ∅ Demo.incomplete_config) in
  Cli.run_data_dir Demo.incomplete_config = Cli.Missing
  ∧ Cli.is_missing_data_dir Demo.incomplete_config = false
  ∧ run.1 = Raise (MissingMandatoryValue "run.data_dir")
  ∧ Cli.fs run.2 = {["config.yaml" := Cli.File "run0"]}.
Proof. vm_compute. done. Qed.

Lemma train_incomplete_returns_witness :
  (Cli.is_missing_data_dir (Cli.cfg (Demo.start Demo.resumed_dir Demo.no_model_config)) = true
   ∨ Cli.model (Cli.cfg (Demo.start Demo.resumed_dir Demo.no_model_config)) = None
   ∨ Cli.data (Cli.cfg (Demo.start Demo.resumed_dir Demo.no_model_config)) = None)
  ∧ (Cli.train (Framework0 := Demo.demo_framework true)
       (Demo.start Demo.resumed_dir Demo.no_model_config)).1 = Ok tt
  ∧ Cli.fs (Cli.train (Framework0 := Demo.demo_framework true)
              (Demo.start Demo.resumed_dir Demo.no_model_config)).2
    = Demo.resumed_dir.
Proof.
  assert (Cli.is_missing_data_dir
            (Cli.cfg (Demo.start Demo.resumed_dir Demo.no_model_config)) = true
          ∨ Cli.model (Cli.cfg (Demo.start Demo.resumed_dir Demo.no_model_config)) = None
          ∨ Cli.data (Cli.cfg (Demo.start Demo.resumed_dir Demo.no_model_config)) = None)
    as Hbad by (right; left; reflexivity).
  split; [exact Hbad |].
  destruct (train_incomplete_returns (Framework0 := Demo.demo_framework true)
              (Demo.start Demo.resumed_dir Demo.no_model_config) Hbad)
    as (Hok & Hfs & _).
  split; [exact Hok | exact Hfs].
Defined.

Lemma demo_complete : Cli.complete Demo.base_config.
Proof. split; [reflexivity |]. split; eexists; reflexivity. Defined.

Lemma resumed_dir_archives (k : nat) :
  k ≠ 2%nat → Demo.resumed_dir !! Cli.archive_name k = None.
Proof.
  intros Hk. unfold Demo.resumed_dir.
  rewrite lookup_insert_ne by (intros Heq; by apply (archive_name_not_config k)).
  apply lookup_singleton_ne. intros Heq. apply Hk. symmetry.
  by apply archive_name_inj.
Qed.

(** C2, as stated, on a directory whose only archive is number 2: the new
    archive would have to be number 3 and [config.yaml] would have to hold
    the new configuration (saved as ["run0"]). The run completes, the new
    archive is number 1, there is no number 3, and [config.yaml] still
    holds the previous configuration. *)
Lemma train_archive_counterexample :
  let run := Cli.train (Framework0 := Demo.demo_framework true)
               (Demo.start Demo.resumed_dir Demo.base_config) in
  run.1 = Ok tt
  ∧ Cli.highest_archive Demo.resumed_dir 2
  ∧ Cli.fs run.2 !! Cli.archive_name 3 = None
  ∧ Cli.fs run.2 !! Cli.archive_name 1 = Some (Cli.File "run-before")
  ∧ Cli.fs run.2 !! "config.yaml" = Some (Cli.File "run-before")
  ∧ ¬ Cli.archived_as_specified Demo.resumed_dir (Cli.fs run.2)
        (Cli.yaml_save (Framework := Demo.demo_framework true) Demo.base_config).
Proof.
  assert (Cli.highest_archive Demo.resumed_dir 2) as Hhighest.
  { split; [right; by eexists |]. intros k Hk. apply resumed_dir_archives. lia. }
  cbv zeta. split; [by vm_compute |]. split; [exact Hhighest |].
  split; [by vm_compute |]. split; [by vm_compute |]. split; [by vm_compute |].
  intros (h & [Hh Hnone] & Hnew & Hconfig).
  vm_compute in Hconfig. discriminate Hconfig.
Qed.

Lemma train_archives_previous_config_witness :
  Cli.complete Demo.base_config
  ∧ Demo.resumed_dir !! "config.yaml" = Some (Cli.File "run-before")
  ∧ ∃ n s1,
      Cli.train (Framework0 := Demo.demo_framework true)
        (Demo.start Demo.resumed_dir Demo.base_config)
      = Cli.train_run (Framework0 := Demo.demo_framework true) s1
      ∧ (1 ≤ n)%nat
      ∧ Demo.resumed_dir !! Cli.archive_name n = None
      ∧ Cli.fs s1 !! Cli.archive_name n = Some (Cli.File "run-before")
      ∧ Cli.fs s1 !! "config.yaml" = Some (Cli.File "run-before").
Proof.
  split; [exact demo_complete |]. split; [reflexivity |].
  destruct (train_archives_previous_config (Framework0 := Demo.demo_framework true)
              (Demo.start Demo.resumed_dir Demo.base_config) "run-before"
              (Demo.with_run_id "run-before" Demo.base_config)
              demo_complete eq_refl eq_refl)
    as (n & s1 & Hrun & Hle & Hfree & _ & Harchive & _ & Hconfig).
  exists n, s1. repeat split; assumption.
Defined.

Lemma train_resolves_checkpoint_witness :
  Cli.complete Demo.base_config
  ∧ Demo.resumed_dir !! "config.yaml" = Some (Cli.File "run-before")
  ∧ Cli.run_ckpt_path Demo.base_config = None
  ∧ Demo.resumed_dir !! "checkpoints/last.ckpt" = None
  ∧ Cli.run_ckpt_path
      (Cli.cfg (Cli.train (Framework0 := Demo.demo_framework true)
                  (Demo.start Demo.resumed_dir Demo.base_config)).2) = None.
Proof.
  split; [exact demo_complete |]. split; [reflexivity |].
  split; [reflexivity |]. split; [reflexivity |].
  exact (proj2 (proj1 (train_resolves_checkpoint (Framework0 := Demo.demo_framework true)
                         (Demo.start Demo.resumed_dir Demo.base_config) "run-before"
                         (Demo.with_run_id "run-before" Demo.base_config)
                         demo_complete eq_refl eq_refl) eq_refl) eq_refl).
Defined.

(** C3, as stated, on a run that completes: it would have to call
    [trainer.fit] before its evaluation passes and instantiate the model
    from [config.model]. It makes its seven evaluation calls and neither of
    the other two. *)
Lemma train_fit_counterexample :
  let run := Cli.train (Framework0 := Demo.demo_framework true)
               (Demo.start ∅ Demo.base_config) in
  run.1 = Ok tt
  ∧ existsb Cli.is_fit (Cli.trace run.2) = false
  ∧ existsb Cli.is_instantiate_model (Cli.trace run.2) = false
  ∧ length (List.filter Cli.is_test (Cli.trace run.2)) = 7%nat.
Proof. vm_compute. done. Qed.

Lemma train_sweep_order_witness :
  Cli.complete Demo.base_config
  ∧ (Cli.train (Framework0 := Demo.demo_framework true)
       (Demo.start ∅ Demo.base_config)).1 = Ok tt
  ∧ ∃ trainer task dm full,
      Cli.sweep_shape trainer task dm Cli.partitions full
      ∧ List.filter Cli.is_sweep_step
          (Cli.trace (Cli.train (Framework0 := Demo.demo_framework true)
                        (Demo.start ∅ Demo.base_config)).2)
        = full.
Proof.
  assert ((Cli.train (Framework0 := Demo.demo_framework true)
             (Demo.start ∅ Demo.base_config)).1 = Ok tt) as Hok
    by (vm_compute; reflexivity).
  split; [exact demo_complete |]. split; [exact Hok |].
  destruct (train_sweep_order (Framework0 := Demo.demo_framework true)
              (Demo.start ∅ Demo.base_config))
    as (t & trainer & task & dm & full & Ht & Hshape & _ & Hfull).
  exists trainer, task, dm, full. split; [exact Hshape |].
  cbn [Demo.start Cli.trace] in Ht. rewrite Ht. exact (Hfull Hok demo_complete).
Defined.

Lemma store_best_model_exports_witness :
  (Cli.store_best_model (Framework0 := Demo.demo_framework true)
     1%positive 2%positive (Demo.start ∅ Demo.base_config)).1 = Ok tt
  ∧ (∃ path snapshot export,
       Cli.globals_model_path Demo.base_config = Some path
       ∧ Cli.readable ["work"]
           (Cli.fs (Cli.store_best_model (Framework0 := Demo.demo_framework true)
                      1%positive 2%positive (Demo.start ∅ Demo.base_config)).2)
           (path ++ ".task")%string = inr snapshot
       ∧ Cli.readable ["work"]
           (Cli.fs (Cli.store_best_model (Framework0 := Demo.demo_framework true)
                      1%positive 2%positive (Demo.start ∅ Demo.base_config)).2)
           path = inr export)
  ∧ ¬ Cli.checkpoint_loads (Framework0 := Demo.demo_framework false) 1%positive 2%positive O
  ∧ Cli.fs (Cli.store_best_model (Framework0 := Demo.demo_framework false)
              1%positive 2%positive (Demo.start ∅ Demo.base_config)).2 = ∅.
Proof.
  assert ((Cli.store_best_model (Framework0 := Demo.demo_framework true)
             1%positive 2%positive (Demo.start ∅ Demo.base_config)).1 = Ok tt) as Hok
    by (vm_compute; reflexivity).
  assert (¬ Cli.checkpoint_loads (Framework0 := Demo.demo_framework false)
              1%positive 2%positive O) as Hno.
  { intros (path & w1 & best & w2 & Hpath & Hload).
    cbn in Hpath. injection Hpath as <- <-. discriminate Hload. }
  split; [exact Hok |].
  split.
  { destruct (proj1 (store_best_model_exports (Framework0 := Demo.demo_framework true)
                       1%positive 2%positive (Demo.start ∅ Demo.base_config)) Hok)
      as (path & best & snapshot & export & w1 & w1' & w2 & w2'
          & Hpath & _ & _ & Hsnapshot & Hexport).
    exists path, snapshot, export. split; [exact Hpath |].
    split; [exact Hsnapshot | exact Hexport]. }
  split; [exact Hno |].
  exact (proj1 (proj2 (proj1 (proj2 (store_best_model_exports
                                       (Framework0 := Demo.demo_framework false)
                                       1%positive 2%positive
                                       (Demo.start ∅ Demo.base_config)))
                         Hno))).
Defined.

(** C8, as stated, in a working directory where [best_model] is a
    directory: the export would have to write both files or none. The
    checkpoint loads and the task snapshot is written; then the model
    export cannot be opened, and the run raises with the snapshot left and
    no model export. *)
Lemma store_best_model_counterexample :
  let run := Cli.store_best_model (Framework0 := Demo.demo_framework true)
               1%positive 2%positive (Demo.start Demo.model_dir Demo.base_config) in
  Cli.checkpoint_loads (Framework0 := Demo.demo_framework true) 1%positive 2%positive O
  ∧ is_ok run.1 = false
  ∧ Cli.readable ["work"] (Cli.fs run.2) "best_model.task" = inr "task-snapshot"%string
  ∧ Cli.readable ["work"] (Cli.fs run.2) "best_model" = inl Cli.EISDIR.
Proof.
  cbv zeta. split.
  { by exists "checkpoints/best.ckpt"%string, O, 1%positive, 1%nat. }
  vm_compute. done.
Qed.

(** * Further properties *)

(** ** [ExclusionTransformer.forward] *)

Section ExclusionMore.

Import Exclusion.

Variable structure_Z : string.

Abbreviation forward := (forward structure_Z).
Abbreviation forward_loop := (forward_loop structure_Z).
Abbreviation forward_step := (forward_step structure_Z).
Abbreviation batch_at := (batch_at structure_Z).

Lemma forward_loop_app inputs atoms1 atoms2 h :
  forward_loop inputs (atoms1 ++ atoms2) h
  = bind (forward_loop inputs atoms1) (λ _, forward_loop inputs atoms2) h.
Proof.
  revert h. induction atoms1 as [|v atoms1 IH]; intros h; [done |].
  cbn [app Exclusion.forward_loop]. unfold bind.
  destruct (forward_step inputs v h) as [[[]|e] h1]; [| done].
  rewrite IH. done.
Qed.

(** X1. Running the transform for one exclusion list and then, on the
    batch it returned, for a second one, is running it once for the two
    lists joined: same result, same store, and when one of them raises,
    the same exception at the same point. *)
Theorem forward_append (atoms1 atoms2 : list pyval) (inputs : loc) (h : heap) :
  bind (forward (init (Some atoms1)) inputs) (forward (init (Some atoms2))) h
  = forward (init (Some (atoms1 ++ atoms2))) inputs h.
Proof.
  unfold Exclusion.forward, init. cbn [excluded_atoms].
  unfold bind. rewrite forward_loop_app. unfold bind.
  destruct (forward_loop inputs atoms1 h) as [[[]|e] h1]; done.
Qed.

Lemma truthy_excluded atoms :
  existsb truthy atoms = true ↔ ∃ x, is_excluded atoms x = true.
Proof.
  unfold is_excluded. split.
  - intros (v & Hin & Hv)%existsb_exists. destruct v as [|z]; [done |].
    exists z. apply existsb_exists. exists (PyInt z). split; [done |].
    by rewrite Hv, bool_decide_eq_true_2.
  - intros (x & (v & Hin & [Hv _]%andb_true_iff)%existsb_exists).
    apply existsb_exists. by exists v.
Qed.

(** On a store where the batch is not well formed, one exception awaits
    every truthy entry. *)
Lemma forward_step_bad inputs h :
  (∀ tz t, ¬ batch_at h inputs tz t) →
  ∃ e, ∀ v, truthy v = true → forward_step inputs v h = (Raise e, h).
Proof.
  intros Hbad.
  destruct (h !! inputs) as [[entries|]|] eqn:Hd.
  - destruct (entries !! structure_Z) as [tz|] eqn:Hz.
    + destruct (h !! tz) as [[|t]|] eqn:Ht.
      * eexists. intros [|a] Hv; [done |]. unfold Exclusion.forward_step.
        rewrite Hv. unfold bind, getitem, tensor_contains, tensor_eq, bind, tensor_data.
        rewrite Hd, Hz, Ht. reflexivity.
      * destruct (Hbad tz t). by exists entries.
      * eexists. intros [|a] Hv; [done |]. unfold Exclusion.forward_step.
        rewrite Hv. unfold bind, getitem, tensor_contains, tensor_eq, bind, tensor_data.
        rewrite Hd, Hz, Ht. reflexivity.
    + eexists. intros [|a] Hv; [done |]. unfold Exclusion.forward_step.
      rewrite Hv. unfold bind, getitem. rewrite Hd, Hz. reflexivity.
  - eexists. intros [|a] Hv; [done |]. unfold Exclusion.forward_step.
    rewrite Hv. unfold bind, getitem. rewrite Hd. reflexivity.
  - eexists. intros [|a] Hv; [done |]. unfold Exclusion.forward_step.
    rewrite Hv. unfold bind, getitem. rewrite Hd. reflexivity.
Qed.

Lemma forward_loop_bad inputs h :
  (∀ tz t, ¬ batch_at h inputs tz t) →
  ∃ e, ∀ atoms,
    forward_loop inputs atoms h
    = (if existsb truthy atoms then Raise e else Ok tt, h).
Proof.
  intros Hbad. destruct (forward_step_bad inputs h Hbad) as [e He].
  exists e. induction atoms as [|v atoms IH]; [done |].
  cbn [Exclusion.forward_loop existsb]. destruct (truthy v) eqn:Hv.
  - by erewrite bind_raise by (by apply He).
  - erewrite bind_ok by (by apply forward_step_falsy). exact IH.
Qed.

(** X2. For exclusion lists whose entries fit in 64 bits, what the
    transform does depends only on which values the list excludes: two
    such lists that exclude the same values, in whatever order and
    however often they name them, give the same result on every batch
    and every store. *)
Theorem forward_same_exclusions (atoms1 atoms2 : list pyval)
    (inputs : loc) (h : heap) :
  Forall fits_int64 atoms1 → Forall fits_int64 atoms2 →
  (∀ x, is_excluded atoms1 x = is_excluded atoms2 x) →
  forward (init (Some atoms1)) inputs h = forward (init (Some atoms2)) inputs h.
Proof.
  intros Hfits1 Hfits2 Hsame. unfold Exclusion.forward, init. cbn [excluded_atoms].
  unfold bind.
  destruct (batch_at_dec structure_Z h inputs) as [(tz & t & Hb) | Hbad].
  - rewrite !(forward_loop_fits structure_Z _ h inputs tz t) by done.
    do 3 f_equal. apply list_fmap_ext. intros i x _.
    unfold zero_excluded. by rewrite Hsame.
  - destruct (forward_loop_bad inputs h Hbad) as [e He]. rewrite !He.
    assert (existsb truthy atoms1 = existsb truthy atoms2) as ->; [| done].
    apply eq_true_iff_eq. rewrite !truthy_excluded.
    split; intros [x Hx]; exists x; by rewrite ?Hsame in *.
Qed.

(** X3. After the transform has run on a batch that holds the atomic
    numbers, with an exclusion list whose entries fit in 64 bits, none
    of the truthy entries of the list occurs in them any more: for each
    of them, [excluded_atom in inputs[Z]] is false on the store the
    transform left. *)
Theorem forward_removes_excluded (atoms : list pyval) (h : heap)
    (inputs tz : loc) (t : list Z) (a : Z) :
  Forall fits_int64 atoms →
  batch_at h inputs tz t →
  PyInt a ∈ atoms → a ≠ 0 →
  tensor_contains a tz (forward (init (Some atoms)) inputs h).2
  = (Ok false, (forward (init (Some atoms)) inputs h).2).
Proof.
  intros Hfits Hb Hin Ha. unfold Exclusion.forward, init. cbn [excluded_atoms].
  erewrite bind_ok by (by apply forward_loop_fits). cbn [snd ret].
  assert (int64_scalar a = Ok a) as Hc.
  { apply int64_scalar_fits. rewrite Forall_forall in Hfits.
    exact (Hfits _ Hin). }
  erewrite tensor_contains_batch by (done || by eapply batch_at_insert).
  do 2 f_equal. apply not_true_is_false.
  intros (b & Hin' & Hb')%existsb_exists.
  apply list_elem_of_In, list_elem_of_fmap in Hin' as (x & -> & Hx).
  apply list_elem_of_fmap in Hx as (y & -> & _). unfold id in Hb'.
  apply Z.eqb_eq in Hb'. unfold zero_excluded in Hb'.
  destruct (is_excluded atoms y) eqn:Hy; [congruence |]. subst y.
  assert (is_excluded atoms a = true); [| congruence].
  apply is_excluded_spec. exists (PyInt a). split; [done |]. split; [| done].
  cbn. by apply negb_true_iff, Z.eqb_neq.
Qed.

(** X4. When the mapping has no entry for the atomic numbers, the first
    truthy entry of the exclusion list makes the transform raise
    [KeyError] for that key, with the store untouched. *)
Theorem forward_missing_key (atoms : list pyval) (h : heap)
    (inputs : loc) (entries : gmap string loc) :
  h !! inputs = Some (ODict entries) →
  entries !! structure_Z = None →
  existsb truthy atoms = true →
  forward (init (Some atoms)) inputs h = (Raise (KeyError structure_Z), h).
Proof.
  intros Hd Hz Hsome. unfold Exclusion.forward, init. cbn [excluded_atoms].
  apply bind_raise.
  induction atoms as [|v atoms IH]; [done |].
  cbn [Exclusion.forward_loop existsb] in *. destruct (truthy v) eqn:Hv.
  - apply bind_raise. destruct v as [|a]; [done |].
    unfold Exclusion.forward_step. rewrite Hv. apply bind_raise.
    unfold getitem. by rewrite Hd, Hz.
  - erewrite bind_ok by (by apply forward_step_falsy). by apply IH.
Qed.

End ExclusionMore.

(** ** [train]: the configuration file *)

Section TrainMore.

Import Cli.

Context {W : Type} `{!Framework W}.

Implicit Types s : State (W := W).

(** Lines 87-89 on a directory without [config.yaml]. *)
Lemma train_config_file_fresh s :
  fs s !! "config.yaml" = None →
  train_config_file s
  = (Ok tt, set_fs (<["config.yaml"%string := File (yaml_save (cfg s))]>) s).
Proof.
  intros Hnone. unfold train_config_file.
  erewrite bind_ok by apply path_exists_run, config_yaml_plain.
  rewrite bool_decide_eq_false_2 by (rewrite Hnone; by intros [? ?]).
  unfold train_fresh. erewrite bind_ok by apply gets_run.
  by apply write_file_new; [apply config_yaml_plain |].
Qed.

(** X5. In a working directory without [config.yaml], a run with a
    complete configuration writes the configuration to [config.yaml] and
    nothing else before it goes on; it looks for no checkpoint: the
    configuration it ends with is the one it was given, also when
    [checkpoints/last.ckpt] exists. *)
Theorem train_fresh_writes_config s :
  complete (cfg s) →
  fs s !! "config.yaml" = None →
  cfg (train s).2 = cfg s
  ∧ ∃ s1, train s = train_run s1
          ∧ fs s1 = <["config.yaml"%string := File (yaml_save (cfg s))]> (fs s).
Proof.
  intros Hc Hnone. rewrite (train_complete s Hc).
  erewrite bind_ok by (by apply train_config_file_fresh).
  split; [by rewrite (train_run_same_cfg _) |].
  eexists. split; [reflexivity | done].
Qed.

(** X6. When [config.yaml] exists but cannot be loaded (it is a directory,
    or its text does not parse), a run with a complete configuration
    raises before it has written anything: the working directory and the
    configuration are as they were. *)
Theorem train_unreadable_config s :
  complete (cfg s) →
  (fs s !! "config.yaml" = Some Dir
   ∨ ∃ text, fs s !! "config.yaml" = Some (File text) ∧ yaml_load text = None) →
  is_ok (train s).1 = false
  ∧ fs (train s).2 = fs s
  ∧ cfg (train s).2 = cfg s.
Proof.
  intros Hc Hbad. rewrite (train_complete s Hc).
  assert (∃ e, omegaconf_load "config.yaml"
                 (emit (EvLog INFO ("Config already exists in given directory "
                                    ++ abspath "." ++ "."
                                    ++ " Attempting to continue training.")%string)
                    (greeted s))
               = (Raise e, emit (EvLog INFO ("Config already exists in given directory "
                                    ++ abspath "." ++ "."
                                    ++ " Attempting to continue training.")%string)
                    (greeted s))) as [e Hload].
  { unfold omegaconf_load.
    rewrite readable_plain by apply config_yaml_plain. cbn [fs emit greeted].
    destruct Hbad as [-> | (text & -> & ->)]; by eexists. }
  erewrite bind_raise; cycle 1.
  { unfold train_config_file.
    erewrite bind_ok by apply path_exists_run, config_yaml_plain.
    rewrite bool_decide_eq_true_2
      by (cbn [fs emit greeted]; destruct Hbad as [-> | (? & -> & _)]; by eexists).
    unfold train_resume. erewrite bind_ok by apply log_info_run.
    by erewrite bind_raise by exact Hload. }
  done.
Qed.

(** X7. Lines 64-89 twice in a row, starting without [config.yaml]: the
    first time writes [config.yaml], the second time archives it under
    the first free index, as the configuration that loading and saving
    it again gives; [config.yaml] stays as the first time wrote it. *)
Theorem train_config_file_twice s reloaded :
  fs s !! "config.yaml" = None →
  yaml_load (yaml_save (cfg s)) = Some reloaded →
  ∃ n,
    (bind train_config_file (λ _, train_config_file) s).1 = Ok tt
    ∧ fs (bind train_config_file (λ _, train_config_file) s).2
      = <[archive_name n := File (yaml_save reloaded)]>
          (<["config.yaml"%string := File (yaml_save (cfg s))]> (fs s))
    ∧ (1 ≤ n)%nat
    ∧ fs s !! archive_name n = None
    ∧ ∀ k, (1 ≤ k < n)%nat → is_Some (fs s !! archive_name k).
Proof.
  intros Hnone Hload.
  erewrite bind_ok by (by apply train_config_file_fresh).
  destruct (train_config_file_resume
              (set_fs (<["config.yaml"%string := File (yaml_save (cfg s))]>) s)
              (yaml_save (cfg s)) reloaded)
    as (n & t & Hn & _ & ->); [apply lookup_insert_eq | done |].
  apply first_free_least in Hn as (Hle & Hfree & Hused).
  cbn [fs set_fs] in *.
  rewrite lookup_insert_ne in Hfree
    by (intros Heq; by apply (archive_name_not_config n)).
  exists n. split; [done |]. split; [done |]. split; [done |].
  split; [done |]. intros k Hk. specialize (Hused k Hk).
  by rewrite lookup_insert_ne in Hused
    by (intros Heq; by apply (archive_name_not_config k)).
Qed.

(** X8. When the archives in the working directory are numbered 1 to [m]
    without a gap, a resumed run writes archive number [m + 1]. *)
Theorem train_archives_next s text old (m : nat) :
  complete (cfg s) →
  fs s !! "config.yaml" = Some (File text) →
  yaml_load text = Some old →
  (∀ k, (1 ≤ k ≤ m)%nat → is_Some (fs s !! archive_name k)) →
  fs s !! archive_name (S m) = None →
  ∃ s1, train s = train_run s1
        ∧ fs s1 = <[archive_name (S m) := File (yaml_save old)]> (fs s).
Proof.
  intros Hc Hfile Hload Hused Hfree.
  destruct (train_resumes s text old Hc Hfile Hload)
    as (n & s1 & Hn & Hrun & Hfs & _).
  apply first_free_least in Hn as (Hle & Hfree' & Hused').
  assert (n = S m) as ->.
  { destruct (decide (n ≤ m)%nat) as [Hnm | Hnm].
    - destruct (Hused n ltac:(lia)) as [? Hex]. congruence.
    - destruct (decide (S m < n)%nat) as [Hlt | Hlt]; [| lia].
      destruct (Hused' (S m) ltac:(lia)) as [? Hex]. congruence. }
  by exists s1.
Qed.

End TrainMore.

(** ** [train]: what a whole run leaves in place *)

Section TrainInvariants.

Import Cli.

Context {W : Type} `{!Framework W}.

Implicit Types s : State (W := W).

Lemma keeps_entries_refl s : keeps_entries s s.
Proof. by intros path. Qed.

Lemma keeps_entries_trans s1 s2 s3 :
  keeps_entries s1 s2 → keeps_entries s2 s3 → keeps_entries s1 s3.
Proof.
  intros H12 H23 path. destruct (H12 path) as [Ha Hb], (H23 path) as [Hc Hd].
  split; auto.
Qed.

Lemma keeps_entries_same s s' : fs s' = fs s → keeps_entries s s'.
Proof. intros Hfs path. by rewrite Hfs. Qed.

Lemma keeps_entries_write path text s :
  fs s !! path ≠ Some Dir →
  keeps_entries s (set_fs (<[path := File text]>) s).
Proof.
  intros Hnd p. cbn [fs set_fs]. destruct (decide (path = p)) as [<- | Hne].
  - rewrite lookup_insert_eq. split; [by eexists | done].
  - by rewrite lookup_insert_ne.
Qed.

Lemma keeps_entries_mkdir path s :
  fs s !! path = None → keeps_entries s (set_fs (<[path := Dir]>) s).
Proof.
  intros Hnone p. cbn [fs set_fs]. destruct (decide (path = p)) as [<- | Hne].
  - rewrite lookup_insert_eq, Hnone. split; [by eexists | done].
  - by rewrite lookup_insert_ne.
Qed.

(** X9. Whatever a run does and however it ends, it removes nothing from
    the working directory: every path that existed before exists after,
    and every directory is still a directory. *)
Theorem train_keeps_entries s (path : string) :
  (is_Some (fs s !! path) → is_Some (fs (train s).2 !! path))
  ∧ (fs s !! path = Some Dir → fs (train s).2 !! path = Some Dir).
Proof.
  revert path. change (keeps_entries s (train s).2). revert s.
  apply frames_train with (allowed := λ _, True);
    first [ exact keeps_entries_refl | exact keeps_entries_trans
          | exact keeps_entries_write | exact keeps_entries_mkdir
          | by (intros; apply keeps_entries_same) | done ].
Qed.

Lemma ckpt_only_trans s1 s2 s3 : ckpt_only s1 s2 → ckpt_only s2 s3 → ckpt_only s1 s3.
Proof.
  unfold ckpt_only. intros [-> | ->] [-> | ->]; auto.
Qed.

(** X10. The only thing a run ever changes in the configuration it was
    given is [run.ckpt_path], and the only value it ever puts there is
    [checkpoints/last.ckpt]. *)
Theorem train_changes_ckpt_path_only s :
  cfg (train s).2 = cfg s
  ∨ cfg (train s).2 = set_ckpt_path (Some "checkpoints/last.ckpt"%string) (cfg s).
Proof.
  change (ckpt_only s (train s).2). revert s.
  apply frames_train with (allowed := λ _, True);
    first [ exact ckpt_only_trans | by (intros; right)
          | by (intros; left) | done ].
Qed.

End TrainInvariants.

(** ** [train]: the data directory, callbacks and loggers *)

Section TrainSetupMore.

Import Cli.

Context {W : Type} `{!Framework W}.

Implicit Types s : State (W := W).









(** X12. The loops over [config.callbacks] and [config.logger] call
    [hydra.utils.instantiate] once for every entry that has a [_target_]
    key, in the order of the entries, and for no other entry; when a loop
    completes, it has collected one object per such entry. A loop that
    raises has made a beginning of these calls. *)
Theorem instantiate_targets_calls (group kind : string)
    (items : list (string * Fragment)) s :
  ∃ t,
    trace (instantiate_targets group kind items s).2 = trace s ++ t
    ∧ List.filter is_call t
      `prefix_of` (target_call group <$> List.filter has_target items)
    ∧ ∀ objs, (instantiate_targets group kind items s).1 = Ok objs →
        List.filter is_call t = target_call group <$> List.filter has_target items
        ∧ length objs = length (List.filter has_target items).
Proof.
  revert s. induction items as [|[name conf] items IH]; intros s.
  - exists []. cbn. rewrite app_nil_r. split; [done |]. split; [done |].
    by intros objs [= <-].
  - destruct (conf !! "_target_"%string) as [target|] eqn:Htarget; cycle 1.
    { assert (has_target (name, conf) = false) as Hskip.
      { unfold has_target. cbn [snd]. rewrite Htarget.
        by rewrite bool_decide_eq_false_2 by (by intros [? ?]). }
      cbn [instantiate_targets List.filter]. rewrite Htarget, Hskip. apply IH. }
    assert (has_target (name, conf) = true) as Hkeep.
    { unfold has_target. cbn [snd]. rewrite Htarget.
      by rewrite bool_decide_eq_true_2 by (by eexists). }
    destruct (instantiate_targets group kind ((name, conf) :: items) s)
      as [r s'] eqn:Hrun.
    cbn [fst snd List.filter]. rewrite Hkeep. cbn [fmap list_fmap].
    cbn [instantiate_targets] in Hrun. rewrite Htarget in Hrun.
    erewrite bind_ok in Hrun by apply log_info_run.
    unfold bind at 1 in Hrun. rewrite ext_run in Hrun.
    destruct (instantiate _ _ _ _) as [[o|e] w]; cbn [fst snd] in Hrun; cycle 1.
    { injection Hrun as <- <-.
      exists [EvLog INFO ("Instantiating " ++ kind ++ " <" ++ fmt target ++ ">")%string;
              target_call group (name, conf)].
      cbn [trace emit set_world]. rewrite <- !app_assoc.
      split; [done |]. cbn [app List.filter is_call target_call].
      split; [| done]. apply prefix_cons, prefix_nil. }
    unfold bind in Hrun.
    match type of Hrun with
    | context [instantiate_targets group kind items ?s1] =>
        destruct (IH s1) as (t & Ht & Hpre & Hok);
        destruct (instantiate_targets group kind items s1) as [[objs|e] s2]
    end; unfold ret in Hrun; injection Hrun as <- <-; cbn [fst snd] in *.
    + exists ([EvLog INFO ("Instantiating " ++ kind ++ " <" ++ fmt target ++ ">")%string;
               target_call group (name, conf)] ++ t).
      rewrite Ht. cbn [trace emit set_world]. rewrite <- !app_assoc.
      split; [done |]. cbn [app List.filter is_call target_call].
      destruct (Hok objs eq_refl) as [Hcalls Hlen].
      split; [by apply prefix_cons |].
      intros objs' Heq. injection Heq as <-. cbn [length].
      by rewrite Hcalls, Hlen.
    + exists ([EvLog INFO ("Instantiating " ++ kind ++ " <" ++ fmt target ++ ">")%string;
               target_call group (name, conf)] ++ t).
      rewrite Ht. cbn [trace emit set_world]. rewrite <- !app_assoc.
      split; [done |]. cbn [app List.filter is_call target_call].
      split; [by apply prefix_cons | done].
Qed.

End TrainSetupMore.

(** ** Part III: [predict] and [WrapperLM.predict_step] *)

Lemma normalize_index_Some n j k :
  Predict.normalize_index n j = Some k ↔
  - Z.of_nat n ≤ j < Z.of_nat n ∧ k = Predict.position n j.
Proof.
  unfold Predict.normalize_index, Predict.position.
  repeat case_decide; split; try (intros [= <-]); try (intros [? ->]);
    try done; try lia; split; try done; lia.
Qed.

Lemma position_lt n j :
  - Z.of_nat n ≤ j < Z.of_nat n → (Predict.position n j < n)%nat.
Proof. unfold Predict.position. case_decide; lia. Qed.

Lemma gather_Some {A} (xs : list A) js ys :
  Predict.gather xs js = Some ys ↔
  Forall2 (λ j y, - Z.of_nat (length xs) ≤ j < Z.of_nat (length xs) ∧
                  xs !! Predict.position (length xs) j = Some y) js ys.
Proof.
  unfold Predict.gather. rewrite mapM_Some.
  split; intros Hall; eapply Forall2_impl; try exact Hall;
    intros j y; cbv beta; rewrite bind_Some.
  - intros (k & [Hj ->]%normalize_index_Some & Hy). done.
  - intros [Hj Hy]. eexists. split; [by apply normalize_index_Some | done].
Qed.

Lemma gather_is_Some {A} (xs : list A) js :
  is_Some (Predict.gather xs js) ↔
  Forall (λ j, - Z.of_nat (length xs) ≤ j < Z.of_nat (length xs)) js.
Proof.
  split.
  - intros [ys Hys%gather_Some]. induction Hys as [| j y js ys [Hj _] _ IH]; by constructor.
  - intros Hjs. induction Hjs as [| j js Hj _ [ys Hys%gather_Some]].
    + exists []. by apply gather_Some.
    + destruct (lookup_lt_is_Some_2 xs (Predict.position (length xs) j)) as [y Hy];
        [by apply position_lt |].
      exists (y :: ys). apply gather_Some. by constructor.
Qed.

Lemma gather_lookup {A} (xs : list A) js ys :
  Predict.gather xs js = Some ys →
  length ys = length js ∧
  ∀ i j, js !! i = Some j →
    - Z.of_nat (length xs) ≤ j < Z.of_nat (length xs) ∧
    ys !! i = xs !! Predict.position (length xs) j.
Proof.
  intros Hys%gather_Some. split; [symmetry; by eapply Forall2_length |].
  intros i j Hj.
  destruct (Forall2_lookup_l _ _ _ _ _ Hys Hj) as (y & Hy & Hrange & Hrow).
  split; [done |]. by rewrite Hy, Hrow.
Qed.

Section PredictProperties.

Import Predict.

Context {W : Type} `{!Collaborators W}.

Variables properties_idx properties_idx_m : string.

Implicit Types s : State (W := W).

(** The entries of [a[b]], when it is defined. *)
Lemma tensor_index_inv a b v :
  tensor_index a b = Ok v →
  ∃ js, b = TInt js ∧ tensor_len v = length js ∧
    ∀ i j, js !! i = Some j →
      - Z.of_nat (tensor_len a) ≤ j < Z.of_nat (tensor_len a) ∧
      tensor_row v i = tensor_row a (position (tensor_len a) j).
Proof.
  destruct b as [js | rows]; [| done]. intros Hv. exists js. split; [done |].
  destruct a as [xs | xs]; simpl in Hv;
    destruct (gather xs js) as [ys |] eqn:Hys; simplify_eq/=;
    destruct (gather_lookup _ _ _ Hys) as [Hlen Hrows];
    (split; [done |]); intros i j Hj; destruct (Hrows i j Hj) as [? ->]; done.
Qed.

Lemma tensor_index_is_ok a b :
  is_ok (tensor_index a b) = true ↔
  ∃ js, b = TInt js ∧
    Forall (λ j, - Z.of_nat (tensor_len a) ≤ j < Z.of_nat (tensor_len a)) js.
Proof.
  destruct b as [js | rows]; [| split; [done | by intros (? & ? & _)]].
  assert (∀ A (xs : list A) (f : list A → tensor),
    is_ok (from_option (λ ys, Ok (f ys)) (Raise IndexError) (gather xs js)) = true ↔
    is_Some (gather xs js)) as Hok.
  { intros A xs f. destruct (gather xs js); simpl; split; try done; by intros [? ?].
  }
  destruct a as [xs | xs]; simpl; rewrite Hok, gather_is_Some; split.
  all: try (intros Hjs; by exists js).
  all: by intros (? & [= <-] & ?).
Qed.

(** *** Running the steps *)

Lemma field_inv {A} name (value : option A) s a s' :
  field name value s = (Ok a, s') → value = Some a ∧ s' = s.
Proof. destruct value; intros [= <- <-]; done. Qed.

Lemma predict_ext_inv {A} c (f : M W A) s a s' :
  ext c f s = (Ok a, s') →
  f (world s) = (Ok a, world s') ∧ trace s' = (trace s ++ [EvCall c])%list.
Proof.
  unfold ext. destruct (f (world s)) as [r w]. by intros [= -> <-].
Qed.

Lemma predict_ext_run {A} c (f : M W A) s r w :
  f (world s) = (r, w) →
  ext c f s = (r, {| world := w; trace := (trace s ++ [EvCall c])%list |}).
Proof. unfold ext. by intros ->. Qed.

(** What [predict_step] does once the model has answered. *)
Lemma predict_step_run model self batch batch_idx dataloader_idx s w1 w2 results :
  set_grad_enabled (wl_enable_grad self) (world s) = (Ok tt, w1) →
  run_model model batch w1 = (Ok results, w2) →
  predict_step properties_idx properties_idx_m model self batch batch_idx
      dataloader_idx s =
    let s2 := {| world := w2;
                 trace := (trace s ++ [EvCall (CSetGradEnabled (wl_enable_grad self));
                                       EvCall (CModel model batch)])%list |} in
    match batch !! properties_idx with
    | None => (Raise (KeyError properties_idx), s2)
    | Some a =>
        match batch !! properties_idx_m with
        | None => (Raise (KeyError properties_idx_m), s2)
        | Some b =>
            match tensor_index a b with
            | Ok value => (Ok (<[properties_idx_m := value]> results), s2)
            | Raise e => (Raise e, s2)
            end
        end
    end.
Proof.
  intros Hgrad Hmodel. unfold predict_step, forward.
  erewrite bind_ok by (by apply predict_ext_run).
  erewrite bind_ok by (apply predict_ext_run; cbn [world]; exact Hmodel).
  cbn [world trace]. rewrite <- (assoc_L (++)). cbn [app].
  unfold bind, getitem, lift, ret, raise.
  destruct (batch !! properties_idx) as [a |]; [| done].
  destruct (batch !! properties_idx_m) as [b |]; [| done].
  by destruct (tensor_index a b).
Qed.

(** A step that returns has set the gradient mode and has run the model,
    in this order. *)
Lemma predict_step_inv model self batch batch_idx dataloader_idx s out s' :
  predict_step properties_idx properties_idx_m model self batch batch_idx
      dataloader_idx s = (Ok out, s') →
  ∃ w1 results,
    set_grad_enabled (wl_enable_grad self) (world s) = (Ok tt, w1) ∧
    run_model model batch w1 = (Ok results, world s').
Proof.
  intros Hrun. unfold predict_step in Hrun.
  apply bind_inv in Hrun as ([] & s1 & [Hgrad Ht1]%predict_ext_inv & Hrun).
  apply bind_inv in Hrun as (results & s2 & [Hmodel Ht2]%predict_ext_inv & Hrun).
  apply bind_inv in Hrun as (a & s3 & Ha & Hrun).
  apply bind_inv in Hrun as (b & s4 & Hb & Hrun).
  apply bind_inv in Hrun as (v & s5 & Hv & Hrun).
  unfold getitem in Ha, Hb.
  destruct (batch !! properties_idx); [| done].
  destruct (batch !! properties_idx_m); [| done].
  unfold ret, lift in *. simplify_eq. eauto.
Qed.

(** X13. A prediction step that returns has stored, under [idx_m], a
    tensor with one entry per atom: for the atom whose molecule number
    within the batch is [j], the entry [j] of the batch's [idx] tensor,
    counted from the end when [j] is negative. *)
Theorem predict_step_gathers model self batch batch_idx dataloader_idx s out s' :
  predict_step properties_idx properties_idx_m model self batch batch_idx
      dataloader_idx s = (Ok out, s') →
  ∃ a js value,
    batch !! properties_idx = Some a ∧
    batch !! properties_idx_m = Some (TInt js) ∧
    out !! properties_idx_m = Some value ∧
    tensor_len value = length js ∧
    ∀ i j, js !! i = Some j →
      - Z.of_nat (tensor_len a) ≤ j < Z.of_nat (tensor_len a) ∧
      tensor_row value i = tensor_row a (position (tensor_len a) j).
Proof.
  intros Hrun.
  destruct (predict_step_inv _ _ _ _ _ _ _ _ Hrun) as (w1 & results & Hgrad & Hmodel).
  rewrite (predict_step_run _ _ _ _ _ _ _ _ _ Hgrad Hmodel) in Hrun. cbv zeta in Hrun.
  destruct (batch !! properties_idx) as [a |]; [| done].
  destruct (batch !! properties_idx_m) as [b |]; [| done].
  destruct (tensor_index a b) as [value | e] eqn:Hvalue; [| done].
  injection Hrun as <- _.
  destruct (tensor_index_inv _ _ _ Hvalue) as (js & -> & Hlen & Hrows).
  exists a, js, value. by rewrite lookup_insert_eq.
Qed.

(** X14. A prediction step that returns has set the gradient mode to the
    wrapper's [enable_grad], then called the model of [predict] (not the
    wrapper's own) once on the batch; every result of the model under
    another key than [idx_m] is returned as it is. *)
Theorem predict_step_keeps_results model self batch batch_idx dataloader_idx s out s' :
  predict_step properties_idx properties_idx_m model self batch batch_idx
      dataloader_idx s = (Ok out, s') →
  ∃ w1 results,
    set_grad_enabled (wl_enable_grad self) (world s) = (Ok tt, w1) ∧
    run_model model batch w1 = (Ok results, world s') ∧
    trace s' = (trace s ++ [EvCall (CSetGradEnabled (wl_enable_grad self));
                            EvCall (CModel model batch)])%list ∧
    ∀ key, key ≠ properties_idx_m → out !! key = results !! key.
Proof.
  intros Hrun.
  destruct (predict_step_inv _ _ _ _ _ _ _ _ Hrun) as (w1 & results & Hgrad & Hmodel).
  exists w1, results. split; [done |]. split; [done |].
  rewrite (predict_step_run _ _ _ _ _ _ _ _ _ Hgrad Hmodel) in Hrun. cbv zeta in Hrun.
  destruct (batch !! properties_idx) as [a |]; [| done].
  destruct (batch !! properties_idx_m) as [b |]; [| done].
  destruct (tensor_index a b) as [value | e]; [| done].
  injection Hrun as <- <-. split; [done |].
  intros key Hkey. by rewrite lookup_insert_ne.
Qed.

(** X15. Once the model has answered, a prediction step returns exactly
    when the batch has both keys [idx] and [idx_m], [idx_m] holds
    integers, and each of them is a position of the [idx] tensor, from
    the front or from the end. *)
Theorem predict_step_returns_iff model self batch batch_idx dataloader_idx s w1 w2
    results :
  set_grad_enabled (wl_enable_grad self) (world s) = (Ok tt, w1) →
  run_model model batch w1 = (Ok results, w2) →
  is_ok (predict_step properties_idx properties_idx_m model self batch batch_idx
           dataloader_idx s).1 = true ↔
  ∃ a js,
    batch !! properties_idx = Some a ∧
    batch !! properties_idx_m = Some (TInt js) ∧
    Forall (λ j, - Z.of_nat (tensor_len a) ≤ j < Z.of_nat (tensor_len a)) js.
Proof.
  intros Hgrad Hmodel.
  rewrite (predict_step_run _ _ _ _ _ _ _ _ _ Hgrad Hmodel). cbv zeta.
  destruct (batch !! properties_idx) as [a |];
    [| split; [done | by intros (? & ? & ? & _)]].
  destruct (batch !! properties_idx_m) as [b |];
    [| split; [done | by intros (? & ? & _ & ? & _)]].
  transitivity (is_ok (tensor_index a b) = true).
  { by destruct (tensor_index a b). }
  rewrite tensor_index_is_ok. split.
  - intros (js & -> & Hjs). by exists a, js.
  - intros (a' & js & [= <-] & [= ->] & Hjs). by exists js.
Qed.

(** X16. A batch without the key [idx], or without [idx_m], makes the
    prediction step raise [KeyError] for that key ([idx] when both are
    absent), and only after the model has run: the results are dropped
    and what the model did to the world stays. *)
Theorem predict_step_missing_key model self batch batch_idx dataloader_idx s w1 w2
    results :
  set_grad_enabled (wl_enable_grad self) (world s) = (Ok tt, w1) →
  run_model model batch w1 = (Ok results, w2) →
  batch !! properties_idx = None ∨ batch !! properties_idx_m = None →
  predict_step properties_idx properties_idx_m model self batch batch_idx
      dataloader_idx s =
    (Raise (KeyError (if bool_decide (batch !! properties_idx = None)
                      then properties_idx else properties_idx_m)),
     {| world := w2;
        trace := (trace s ++ [EvCall (CSetGradEnabled (wl_enable_grad self));
                              EvCall (CModel model batch)])%list |}).
Proof.
  intros Hgrad Hmodel Hmissing.
  rewrite (predict_step_run _ _ _ _ _ _ _ _ _ Hgrad Hmodel). cbv zeta.
  case_bool_decide as Hidx.
  - by rewrite Hidx.
  - destruct Hmissing as [? | Hidx_m]; [done |].
    destruct (batch !! properties_idx); [| done]. by rewrite Hidx_m.
Qed.

(** *** [predict] *)

Lemma predict_log_inv msg s u s' :
  log_info msg s = (Ok u, s') →
  world s' = world s ∧ trace s' = (trace s ++ [EvLog msg])%list.
Proof. by intros [= _ <-]. Qed.

Lemma predict_log_run msg s :
  log_info msg s = (Ok tt, {| world := world s; trace := (trace s ++ [EvLog msg])%list |}).
Proof. done. Qed.

Lemma field_run {A} name (a : A) s : field name (Some a) s = (Ok a, s).
Proof. done. Qed.

(** X17. A run of [predict] that returns has read every key it uses and
    has made six calls, each on the results of the earlier ones: the data
    set is built from [config.data], the loader from it with
    [config.batch_size] and 8 workers, the model is loaded from
    [best_model], the trainer is built from [config.trainer] with one
    [PredictionWriter] as its callbacks, and [trainer.predict] gets the
    wrapper of that model with [config.enable_grad], the loader and
    [config.ckpt_path]. *)
Theorem predict_calls config s s' :
  predict config s = (Ok tt, s') →
  ∃ conf datapath size grad trainer_conf target output_dir interval write_idx ckpt,
    (data config = Some conf ∧ conf !! "datapath"%string = Some datapath ∧
     batch_size config = Some size ∧ enable_grad config = Some grad ∧
     trainer config = Some trainer_conf ∧
     trainer_conf !! "_target_"%string = Some target ∧
     outputdir config = Some output_dir ∧ write_interval config = Some interval ∧
     write_idx_m config = Some write_idx ∧ ckpt_path config = Some ckpt) ∧
    ∃ dataset loader model writer trainer w1 w2 w3 w4 w5,
      let kwargs := [("callbacks", Cli.AObjs [writer]); ("default_root_dir", Cli.AStr ".");
                     ("_convert_", Cli.AStr "partial")]%string in
      instantiate ["data"%string] conf [] (world s) = (Ok dataset, w1) ∧
      atoms_loader dataset size 8 w1 = (Ok loader, w2) ∧
      torch_load "best_model" w2 = (Ok model, w3) ∧
      prediction_writer output_dir interval write_idx w3 = (Ok writer, w4) ∧
      instantiate ["trainer"%string] trainer_conf kwargs w4 = (Ok trainer, w5) ∧
      trainer_predict trainer (init model grad) loader ckpt w5 = (Ok tt, world s') ∧
      trace s' =
        (trace s ++
         [EvLog ("Load data from `" ++ Cli.fmt datapath ++ "`");
          EvCall (CInstantiate ["data"%string] conf []);
          EvCall (CAtomsLoader dataset size 8);
          EvCall (CTorchLoad "best_model");
          EvLog ("Instantiating trainer <" ++ Cli.fmt target ++ ">");
          EvCall (CPredictionWriter output_dir interval write_idx);
          EvCall (CInstantiate ["trainer"%string] trainer_conf kwargs);
          EvCall (CTrainerPredict trainer (init model grad) loader ckpt)])%list.
Proof.
  intros Hrun. unfold predict, attr in Hrun.
  apply bind_inv in Hrun as (conf & ? & [Hdata ->]%field_inv & Hrun).
  apply bind_inv in Hrun as (datapath & ? & [Hpath ->]%field_inv & Hrun).
  apply bind_inv in Hrun as ([] & s1 & [Hw1 Ht1]%predict_log_inv & Hrun).
  apply bind_inv in Hrun as (dataset & s2 & [Hw2 Ht2]%predict_ext_inv & Hrun).
  apply bind_inv in Hrun as (size & ? & [Hsize ->]%field_inv & Hrun).
  apply bind_inv in Hrun as (loader & s3 & [Hw3 Ht3]%predict_ext_inv & Hrun).
  apply bind_inv in Hrun as (model & s4 & [Hw4 Ht4]%predict_ext_inv & Hrun).
  apply bind_inv in Hrun as (grad0 & ? & [Hgrad0 ->]%field_inv & Hrun).
  apply bind_inv in Hrun as (trainer_conf & ? & [Htrainer ->]%field_inv & Hrun).
  apply bind_inv in Hrun as (target & ? & [Htarget ->]%field_inv & Hrun).
  apply bind_inv in Hrun as ([] & s5 & [Hw5 Ht5]%predict_log_inv & Hrun).
  apply bind_inv in Hrun as (output_dir & ? & [Hout ->]%field_inv & Hrun).
  apply bind_inv in Hrun as (interval & ? & [Hinterval ->]%field_inv & Hrun).
  apply bind_inv in Hrun as (write_idx & ? & [Hidx ->]%field_inv & Hrun).
  apply bind_inv in Hrun as (writer & s6 & [Hw6 Ht6]%predict_ext_inv & Hrun).
  cbv zeta in Hrun.
  apply bind_inv in Hrun as (trainer & s7 & [Hw7 Ht7]%predict_ext_inv & Hrun).
  apply bind_inv in Hrun as (grad & ? & [Hgrad ->]%field_inv & Hrun).
  apply bind_inv in Hrun as (ckpt & ? & [Hckpt ->]%field_inv & Hrun).
  apply predict_ext_inv in Hrun as [Hw8 Ht8].
  exists conf, datapath, size, grad, trainer_conf, target, output_dir, interval,
    write_idx, ckpt.
  split; [done |].
  exists dataset, loader, model, writer, trainer,
    (world s2), (world s3), (world s4), (world s6), (world s7).
  cbv zeta. rewrite Hw1 in Hw2. rewrite Hw5 in Hw6.
  repeat (split; [done |]).
  rewrite Ht8, Ht7, Ht6, Ht5, Ht4, Ht3, Ht2, Ht1.
  by rewrite <- !(assoc_L (++)).
Qed.

(** X18. The default of [WrapperLM]'s [enable_grad] is read when the
    class is defined: a configuration without the key [enable_grad] makes
    [predict] raise after the data set, the loader and the model have been
    loaded, and before the trainer section is looked at. *)
Theorem predict_enable_grad_absent config s conf datapath size dataset loader model
    w1 w2 w3 :
  data config = Some conf →
  conf !! "datapath"%string = Some datapath →
  batch_size config = Some size →
  enable_grad config = None →
  instantiate ["data"%string] conf [] (world s) = (Ok dataset, w1) →
  atoms_loader dataset size 8 w1 = (Ok loader, w2) →
  torch_load "best_model" w2 = (Ok model, w3) →
  predict config s =
    (Raise (ConfigAttributeError "enable_grad"),
     {| world := w3;
        trace := (trace s ++
                  [EvLog ("Load data from `" ++ Cli.fmt datapath ++ "`");
                   EvCall (CInstantiate ["data"%string] conf []);
                   EvCall (CAtomsLoader dataset size 8);
                   EvCall (CTorchLoad "best_model")])%list |}).
Proof.
  intros Hdata Hpath Hsize Hgrad Hdataset Hloader Hmodel.
  unfold predict, attr. rewrite Hdata, Hsize, Hgrad.
  erewrite bind_ok by apply field_run.
  rewrite Hpath.
  erewrite bind_ok by apply field_run.
  erewrite bind_ok by apply predict_log_run.
  erewrite bind_ok by (apply predict_ext_run; cbn [world]; exact Hdataset).
  erewrite bind_ok by apply field_run.
  erewrite bind_ok by (apply predict_ext_run; cbn [world]; exact Hloader).
  erewrite bind_ok by (apply predict_ext_run; cbn [world]; exact Hmodel).
  erewrite bind_raise by reflexivity.
  cbn [world trace]. by rewrite <- !(assoc_L (++)).
Qed.

End PredictProperties.

(** ** The further properties on concrete inputs *)

Lemma forward_same_exclusions_witness :
  Forall Exclusion.fits_int64 [Exclusion.PyInt 7; Exclusion.PyInt 7]
  ∧ Forall Exclusion.fits_int64 [Exclusion.PyNone; Exclusion.PyInt 7; Exclusion.PyInt 0]
  ∧ (∀ x, Exclusion.is_excluded [Exclusion.PyInt 7; Exclusion.PyInt 7] x
          = Exclusion.is_excluded [Exclusion.PyNone; Exclusion.PyInt 7; Exclusion.PyInt 0] x)
  ∧ Exclusion.forward "_atomic_numbers"
      (Exclusion.init (Some [Exclusion.PyInt 7; Exclusion.PyInt 7]))
      1%positive Exclusion.example_batch
    = Exclusion.forward "_atomic_numbers"
        (Exclusion.init (Some [Exclusion.PyNone; Exclusion.PyInt 7; Exclusion.PyInt 0]))
        1%positive Exclusion.example_batch.
Proof.
  assert (Forall Exclusion.fits_int64 [Exclusion.PyInt 7; Exclusion.PyInt 7]) as Hfits1.
  { repeat constructor; cbn; lia. }
  assert (Forall Exclusion.fits_int64
            [Exclusion.PyNone; Exclusion.PyInt 7; Exclusion.PyInt 0]) as Hfits2.
  { repeat constructor; cbn; lia. }
  assert (∀ x, Exclusion.is_excluded [Exclusion.PyInt 7; Exclusion.PyInt 7] x
               = Exclusion.is_excluded
                   [Exclusion.PyNone; Exclusion.PyInt 7; Exclusion.PyInt 0] x) as Hsame.
  { intros x. unfold Exclusion.is_excluded. cbn [existsb Exclusion.truthy].
    destruct (bool_decide (Exclusion.PyInt 7 = Exclusion.PyInt x)); reflexivity. }
  split; [exact Hfits1 |]. split; [exact Hfits2 |]. split; [exact Hsame |].
  exact (forward_same_exclusions "_atomic_numbers" _ _ 1%positive
           Exclusion.example_batch Hfits1 Hfits2 Hsame).
Defined.

Lemma forward_removes_excluded_witness :
  Forall Exclusion.fits_int64 [Exclusion.PyInt 1; Exclusion.PyInt 7]
  ∧ Exclusion.batch_at "_atomic_numbers" Exclusion.example_batch 1%positive 2%positive
      [7; 6; 7; 1]
  ∧ Exclusion.PyInt 7 ∈ [Exclusion.PyInt 1; Exclusion.PyInt 7]
  ∧ 7 ≠ 0
  ∧ Exclusion.tensor_contains 7 2%positive
      (Exclusion.forward "_atomic_numbers"
         (Exclusion.init (Some [Exclusion.PyInt 1; Exclusion.PyInt 7]))
         1%positive Exclusion.example_batch).2
    = (Ok false,
       (Exclusion.forward "_atomic_numbers"
          (Exclusion.init (Some [Exclusion.PyInt 1; Exclusion.PyInt 7]))
          1%positive Exclusion.example_batch).2).
Proof.
  assert (Forall Exclusion.fits_int64 [Exclusion.PyInt 1; Exclusion.PyInt 7]) as Hfits.
  { repeat constructor; cbn; lia. }
  assert (Exclusion.batch_at "_atomic_numbers" Exclusion.example_batch 1%positive
            2%positive [7; 6; 7; 1])
    as Hb by (eexists; repeat split; reflexivity).
  assert (Exclusion.PyInt 7 ∈ [Exclusion.PyInt 1; Exclusion.PyInt 7]) as Hin
    by (right; left).
  assert (7 ≠ 0) as Hne by lia.
  split; [exact Hfits |]. split; [exact Hb |]. split; [exact Hin |]. split; [exact Hne |].
  exact (forward_removes_excluded "_atomic_numbers" _ _ _ _ _ _ Hfits Hb Hin Hne).
Defined.

Lemma forward_missing_key_witness :
  Exclusion.example_batch !! 1%positive
    = Some (Exclusion.ODict {["_atomic_numbers" := 2%positive; "_idx" := 3%positive]})
  ∧ ({["_atomic_numbers" := 2%positive; "_idx" := 3%positive]} : gmap string Exclusion.loc)
      !! "Z" = None
  ∧ existsb Exclusion.truthy [Exclusion.PyNone; Exclusion.PyInt 7] = true
  ∧ Exclusion.forward "Z" (Exclusion.init (Some [Exclusion.PyNone; Exclusion.PyInt 7]))
      1%positive Exclusion.example_batch
    = (Raise (KeyError "Z"), Exclusion.example_batch).
Proof.
  split; [reflexivity |]. split; [reflexivity |]. split; [reflexivity |].
  exact (forward_missing_key "Z" [Exclusion.PyNone; Exclusion.PyInt 7]
           Exclusion.example_batch 1%positive
           {["_atomic_numbers" := 2%positive; "_idx" := 3%positive]}
           eq_refl eq_refl eq_refl).
Defined.

Lemma train_fresh_writes_config_witness :
  Cli.complete Demo.base_config
  ∧ Demo.checkpoint_dir !! "config.yaml" = None
  ∧ Cli.cfg (Cli.train (Framework0 := Demo.demo_framework true)
               (Demo.start Demo.checkpoint_dir Demo.base_config)).2
    = Demo.base_config.
Proof.
  assert (Cli.fs (Demo.start Demo.checkpoint_dir Demo.base_config) !! "config.yaml" = None)
    as Hnone by reflexivity.
  split; [exact demo_complete |]. split; [exact Hnone |].
  exact (proj1 (train_fresh_writes_config (Framework0 := Demo.demo_framework true)
                  (Demo.start Demo.checkpoint_dir Demo.base_config)
                  demo_complete Hnone)).
Defined.

Lemma train_unreadable_config_witness :
  Cli.complete Demo.base_config
  ∧ ({["config.yaml" := Cli.Dir]} : Cli.filesystem) !! "config.yaml" = Some Cli.Dir
  ∧ is_ok (Cli.train (Framework0 := Demo.demo_framework true)
             (Demo.start {["config.yaml" := Cli.Dir]} Demo.base_config)).1 = false
  ∧ Cli.fs (Cli.train (Framework0 := Demo.demo_framework true)
              (Demo.start {["config.yaml" := Cli.Dir]} Demo.base_config)).2
    = {["config.yaml" := Cli.Dir]}.
Proof.
  split; [exact demo_complete |]. split; [reflexivity |].
  destruct (train_unreadable_config (Framework0 := Demo.demo_framework true)
              (Demo.start {["config.yaml" := Cli.Dir]} Demo.base_config)
              demo_complete ltac:(left; reflexivity))
    as (Hraise & Hfs & _).
  split; [exact Hraise | exact Hfs].
Defined.

Lemma train_config_file_twice_witness :
  (∅ : Cli.filesystem) !! "config.yaml" = None
  ∧ Cli.yaml_load (Framework := Demo.demo_framework true)
      (Cli.yaml_save (Framework := Demo.demo_framework true) Demo.base_config)
    = Some (Demo.with_run_id "run0" Demo.base_config)
  ∧ ∃ n,
      Cli.fs (bind (Cli.train_config_file (Framework0 := Demo.demo_framework true))
                (λ _, Cli.train_config_file (Framework0 := Demo.demo_framework true))
                (Demo.start ∅ Demo.base_config)).2
      = <[Cli.archive_name n := Cli.File "run0"]> {["config.yaml" := Cli.File "run0"]}.
Proof.
  split; [reflexivity |]. split; [reflexivity |].
  assert (Cli.fs (Demo.start ∅ Demo.base_config) !! "config.yaml" = None) as Hnone
    by reflexivity.
  assert (Cli.yaml_load (Framework := Demo.demo_framework true)
            (Cli.yaml_save (Framework := Demo.demo_framework true)
               (Cli.cfg (Demo.start ∅ Demo.base_config)))
          = Some (Demo.with_run_id "run0" Demo.base_config)) as Hload
    by reflexivity.
  destruct (train_config_file_twice (Framework0 := Demo.demo_framework true)
              (Demo.start ∅ Demo.base_config)
              (Demo.with_run_id "run0" Demo.base_config) Hnone Hload)
    as (n & _ & Hfs & _).
  exists n. exact Hfs.
Defined.

Lemma train_archives_next_witness :
  Cli.complete Demo.base_config
  ∧ (<[Cli.archive_name 1 := Cli.File "run-long-ago"]> Demo.resumed_dir)
      !! "config.yaml" = Some (Cli.File "run-before")
  ∧ (∀ k, (1 ≤ k ≤ 2)%nat →
          is_Some ((<[Cli.archive_name 1 := Cli.File "run-long-ago"]> Demo.resumed_dir)
                     !! Cli.archive_name k))
  ∧ (<[Cli.archive_name 1 := Cli.File "run-long-ago"]> Demo.resumed_dir)
      !! Cli.archive_name 3 = None
  ∧ ∃ s1,
      Cli.train (Framework0 := Demo.demo_framework true)
        (Demo.start (<[Cli.archive_name 1 := Cli.File "run-long-ago"]> Demo.resumed_dir)
           Demo.base_config)
      = Cli.train_run (Framework0 := Demo.demo_framework true) s1
      ∧ Cli.fs s1
        = <[Cli.archive_name 3 := Cli.File "run-before"]>
            (<[Cli.archive_name 1 := Cli.File "run-long-ago"]> Demo.resumed_dir).
Proof.
  assert (∀ k, (1 ≤ k ≤ 2)%nat →
            is_Some ((<[Cli.archive_name 1 := Cli.File "run-long-ago"]> Demo.resumed_dir)
                       !! Cli.archive_name k)) as Hfull.
  { intros k Hk. destruct k as [| [| [| k]]]; [lia | by eexists | by eexists | lia]. }
  split; [exact demo_complete |]. split; [reflexivity |].
  split; [exact Hfull |]. split; [reflexivity |].
  exact (train_archives_next (Framework0 := Demo.demo_framework true)
           (Demo.start (<[Cli.archive_name 1 := Cli.File "run-long-ago"]> Demo.resumed_dir)
              Demo.base_config)
           "run-before" (Demo.with_run_id "run-before" Demo.base_config) 2
           demo_complete eq_refl eq_refl Hfull eq_refl).
Defined.


Lemma predict_step_gathers_witness :
  Predict.predict_step (Collaborators0 := Demo.demo_collaborators) "_idx" "_idx_m"
    3%positive Demo.wrapper Demo.predict_batch 0 0 Demo.predict_start
  = (Ok (<["_idx_m" := Predict.TInt [41; 41; 41; 42; 42]]>
           {["energy" := Predict.TReal [7; 8]%positive]}),
     (Predict.predict_step (Collaborators0 := Demo.demo_collaborators) "_idx" "_idx_m"
        3%positive Demo.wrapper Demo.predict_batch 0 0 Demo.predict_start).2)
  ∧ ∃ a js value,
      Demo.predict_batch !! "_idx" = Some a
      ∧ Demo.predict_batch !! "_idx_m" = Some (Predict.TInt js)
      ∧ (<["_idx_m" := Predict.TInt [41; 41; 41; 42; 42]]>
           ({["energy" := Predict.TReal [7; 8]%positive]} : Predict.tensors))
          !! "_idx_m" = Some value
      ∧ Predict.tensor_len value = length js
      ∧ ∀ i j, js !! i = Some j →
          - Z.of_nat (Predict.tensor_len a) ≤ j < Z.of_nat (Predict.tensor_len a)
          ∧ Predict.tensor_row value i
            = Predict.tensor_row a (Predict.position (Predict.tensor_len a) j).
Proof.
  assert (Predict.predict_step (Collaborators0 := Demo.demo_collaborators) "_idx" "_idx_m"
            3%positive Demo.wrapper Demo.predict_batch 0 0 Demo.predict_start
          = (Ok (<["_idx_m" := Predict.TInt [41; 41; 41; 42; 42]]>
                   {["energy" := Predict.TReal [7; 8]%positive]}),
             (Predict.predict_step (Collaborators0 := Demo.demo_collaborators)
                "_idx" "_idx_m" 3%positive Demo.wrapper Demo.predict_batch 0 0
                Demo.predict_start).2)) as Hrun
    by (vm_compute; reflexivity).
  split; [exact Hrun |].
  exact (predict_step_gathers (Collaborators0 := Demo.demo_collaborators) "_idx" "_idx_m"
           3%positive Demo.wrapper Demo.predict_batch 0 0 Demo.predict_start _ _ Hrun).
Defined.

Lemma predict_step_keeps_results_witness :
  Predict.predict_step (Collaborators0 := Demo.demo_collaborators) "_idx" "_idx_m"
    3%positive Demo.wrapper Demo.predict_batch 0 0 Demo.predict_start
  = (Ok (<["_idx_m" := Predict.TInt [41; 41; 41; 42; 42]]>
           {["energy" := Predict.TReal [7; 8]%positive]}),
     {| Predict.world := O;
        Predict.trace := [Predict.EvCall (Predict.CSetGradEnabled false);
                          Predict.EvCall (Predict.CModel 3%positive Demo.predict_batch)] |})
  ∧ ∃ results,
      Predict.run_model (Collaborators := Demo.demo_collaborators) 3%positive
        Demo.predict_batch O = (Ok results, O)
      ∧ ∀ key, key ≠ "_idx_m"%string →
          (<["_idx_m" := Predict.TInt [41; 41; 41; 42; 42]]>
             ({["energy" := Predict.TReal [7; 8]%positive]} : Predict.tensors)) !! key
          = results !! key.
Proof.
  assert (Predict.predict_step (Collaborators0 := Demo.demo_collaborators) "_idx" "_idx_m"
            3%positive Demo.wrapper Demo.predict_batch 0 0 Demo.predict_start
          = (Ok (<["_idx_m" := Predict.TInt [41; 41; 41; 42; 42]]>
                   {["energy" := Predict.TReal [7; 8]%positive]}),
             {| Predict.world := O;
                Predict.trace :=
                  [Predict.EvCall (Predict.CSetGradEnabled false);
                   Predict.EvCall (Predict.CModel 3%positive Demo.predict_batch)] |}))
    as Hrun by (vm_compute; reflexivity).
  split; [exact Hrun |].
  destruct (predict_step_keeps_results (Collaborators0 := Demo.demo_collaborators)
              "_idx" "_idx_m" 3%positive Demo.wrapper Demo.predict_batch 0 0
              Demo.predict_start _ _ Hrun)
    as (w1 & results & Hgrad & Hmodel & _ & Hkeys).
  injection Hgrad as <-.
  exists results. split; [exact Hmodel | exact Hkeys].
Defined.

Lemma predict_step_returns_iff_witness :
  Predict.set_grad_enabled (Collaborators := Demo.demo_collaborators) false O = (Ok tt, O)
  ∧ Predict.run_model (Collaborators := Demo.demo_collaborators) 3%positive
      Demo.predict_batch O
    = (Ok {["energy" := Predict.TReal [7; 8]%positive]}, O)
  ∧ (is_ok (Predict.predict_step (Collaborators0 := Demo.demo_collaborators)
              "_idx" "_idx_m" 3%positive Demo.wrapper Demo.predict_batch 0 0
              Demo.predict_start).1 = true
     ↔ ∃ a js,
         Demo.predict_batch !! "_idx" = Some a
         ∧ Demo.predict_batch !! "_idx_m" = Some (Predict.TInt js)
         ∧ Forall (λ j, - Z.of_nat (Predict.tensor_len a) ≤ j
                        < Z.of_nat (Predict.tensor_len a)) js).
Proof.
  split; [reflexivity |]. split; [reflexivity |].
  exact (predict_step_returns_iff (Collaborators0 := Demo.demo_collaborators)
           "_idx" "_idx_m" 3%positive Demo.wrapper Demo.predict_batch 0 0
           Demo.predict_start O O {["energy" := Predict.TReal [7; 8]%positive]}
           eq_refl eq_refl).
Defined.

Lemma predict_step_missing_key_witness :
  Predict.set_grad_enabled (Collaborators := Demo.demo_collaborators) false O = (Ok tt, O)
  ∧ Predict.run_model (Collaborators := Demo.demo_collaborators) 3%positive
      {["_idx" := Predict.TInt [41; 42]]} O
    = (Ok {["energy" := Predict.TReal [7; 8]%positive]}, O)
  ∧ (({["_idx" := Predict.TInt [41; 42]]} : Predict.tensors) !! "_idx" = None
     ∨ ({["_idx" := Predict.TInt [41; 42]]} : Predict.tensors) !! "_idx_m" = None)
  ∧ (Predict.predict_step (Collaborators0 := Demo.demo_collaborators)
       "_idx" "_idx_m" 3%positive Demo.wrapper {["_idx" := Predict.TInt [41; 42]]} 0 0
       Demo.predict_start).1
    = Raise (KeyError "_idx_m").
Proof.
  split; [reflexivity |]. split; [reflexivity |].
  split; [right; reflexivity |].
  exact (f_equal fst
           (predict_step_missing_key (Collaborators0 := Demo.demo_collaborators)
              "_idx" "_idx_m" 3%positive Demo.wrapper {["_idx" := Predict.TInt [41; 42]]}
              0 0 Demo.predict_start O O {["energy" := Predict.TReal [7; 8]%positive]}
              eq_refl eq_refl (or_intror eq_refl))).
Defined.

Lemma predict_calls_witness :
  Predict.predict (Collaborators0 := Demo.demo_collaborators) Demo.predict_config
    Demo.predict_start
  = (Ok tt, (Predict.predict (Collaborators0 := Demo.demo_collaborators)
               Demo.predict_config Demo.predict_start).2)
  ∧ length (Predict.trace
              (Predict.predict (Collaborators0 := Demo.demo_collaborators)
                 Demo.predict_config Demo.predict_start).2) = 8%nat.
Proof.
  assert (Predict.predict (Collaborators0 := Demo.demo_collaborators) Demo.predict_config
            Demo.predict_start
          = (Ok tt, (Predict.predict (Collaborators0 := Demo.demo_collaborators)
                       Demo.predict_config Demo.predict_start).2)) as Hrun
    by (vm_compute; reflexivity).
  split; [exact Hrun |].
  destruct (predict_calls (Collaborators0 := Demo.demo_collaborators)
              Demo.predict_config Demo.predict_start _ Hrun)
    as (conf & datapath & size & grad & trainer_conf & target & output_dir & interval
        & write_idx & ckpt & _ & dataset & loader & model & writer & trainer
        & w1 & w2 & w3 & w4 & w5 & Hcalls).
  cbv zeta in Hcalls.
  destruct Hcalls as (_ & _ & _ & _ & _ & _ & Htrace).
  rewrite Htrace. reflexivity.
Defined.

Lemma predict_enable_grad_absent_witness :
  Predict.enable_grad Demo.predict_config_no_grad = None
  ∧ (Predict.predict (Collaborators0 := Demo.demo_collaborators)
       Demo.predict_config_no_grad Demo.predict_start).1
    = Raise (ConfigAttributeError "enable_grad")
  ∧ length (Predict.trace
              (Predict.predict (Collaborators0 := Demo.demo_collaborators)
                 Demo.predict_config_no_grad Demo.predict_start).2) = 4%nat.
Proof.
  split; [reflexivity |].
  rewrite (predict_enable_grad_absent (Collaborators0 := Demo.demo_collaborators)
             Demo.predict_config_no_grad Demo.predict_start
             {["_target_" := Some "schnetpack.data.ASEAtomsData";
               "datapath" := Some "qm9.db"]}%string
             (Some "qm9.db"%string) 100 1%positive 2%positive 3%positive
             1%nat 2%nat 3%nat
             eq_refl eq_refl eq_refl eq_refl eq_refl eq_refl eq_refl).
  split; reflexivity.
Defined.
